(** * LoveAR: the in-memory repository, the request handlers and the
      content moderator, embedded from [server/storage.ts], the route
      handlers that follow it, and the [ContentModerator] class.

    Conventions of the embedding.
    - A JavaScript string is a [string]: a sequence of code units, here
      the code units below 256.
    - A JavaScript number that the code computes with is a binary64
      [float]; ids and timestamps (integers) are [Z].
    - A [Map<number, T>] is an insertion-ordered association list
      ([Js.jsmap]); [Array.from(m.values())] is the list of its values.
    - [async] methods run to completion without interleaving, so each is
      a function from the store to the store and a result. *)

From Stdlib Require Import List String Ascii ZArith Bool Arith Lia Floats.
From Stdlib Require Uint63 DecimalString.
Import ListNotations.

Local Open Scope string_scope.
Local Open Scope list_scope.
Local Open Scope nat_scope.

Set Warnings "-inexact-float".

(* ------------------------------------------------------------------ *)
(** * JavaScript built-ins used by the repository *)

Module Js.

(** ** Characters *)

Definition code (c : ascii) : nat := nat_of_ascii c.

Definition between (lo hi : nat) (c : ascii) : bool :=
  (lo <=? code c) && (code c <=? hi).

Definition isDigit (c : ascii) : bool := between 48 57 c.
Definition isUpperAZ (c : ascii) : bool := between 65 90 c.
Definition isLowerAZ (c : ascii) : bool := between 97 122 c.

(** [\w]: letters, digits and underscore. *)
Definition isWordChar (c : ascii) : bool :=
  isDigit c || isUpperAZ c || isLowerAZ c || (code c =? 95).

(** [\s] on code units below 256: TAB, LF, VT, FF, CR, SPACE, NBSP. *)
Definition isSpace (c : ascii) : bool :=
  between 9 13 c || (code c =? 32) || (code c =? 160).

(** [String.prototype.toLowerCase] on one code unit below 256. *)
Definition lowerChar (c : ascii) : ascii :=
  if isUpperAZ c || (between 192 222 c && negb (code c =? 215))
  then ascii_of_nat (code c + 32) else c.

(** [Canonicalize] of the [i] flag: the upper-case form when it is a
    single code unit of the same range. *)
Definition canonChar (c : ascii) : ascii :=
  if isLowerAZ c || (between 224 254 c && negb (code c =? 247))
  then ascii_of_nat (code c - 32) else c.

(** ** Strings *)

Definition chars (s : string) : list ascii := list_ascii_of_string s.
Definition str (l : list ascii) : string := string_of_list_ascii l.

Definition toLowerCase (s : string) : string := str (map lowerChar (chars s)).

Fixpoint startsWith (p l : list ascii) : bool :=
  match p, l with
  | [], _ => true
  | _ :: _, [] => false
  | a :: p', b :: l' => Ascii.eqb a b && startsWith p' l'
  end.

Fixpoint includesFrom (p l : list ascii) : bool :=
  startsWith p l ||
  match l with
  | [] => false
  | _ :: l' => includesFrom p l'
  end.

(** [s.includes(p)] *)
Definition includes (s p : string) : bool := includesFrom (chars p) (chars s).

Definition slice (l : list ascii) (i j : nat) : list ascii :=
  firstn (j - i) (skipn i l).

Fixpoint dropWhile {A} (f : A -> bool) (l : list A) : list A :=
  match l with
  | [] => []
  | a :: l' => if f a then dropWhile f l' else l
  end.

(** [s.trim()] *)
Definition trim (s : string) : string :=
  str (rev (dropWhile isSpace (rev (dropWhile isSpace (chars s))))).

(** ['*'.repeat(n)] *)
Definition repeatStar (n : nat) : string := str (repeat "*"%char n).

(** [[...new Set(xs)]]: the first occurrence of each element, in order. *)
Fixpoint dedupFrom (seen xs : list string) : list string :=
  match xs with
  | [] => []
  | x :: xs' =>
      if existsb (String.eqb x) seen then dedupFrom seen xs'
      else x :: dedupFrom (x :: seen) xs'
  end.

Definition dedup (xs : list string) : list string := dedupFrom [] xs.

(** [xs.includes(x)] on an array of strings. *)
Definition arrIncludes (xs : list string) (x : string) : bool :=
  existsb (String.eqb x) xs.

(** ** Numbers *)

Definition ofNat (n : nat) : float := PrimFloat.of_uint63 (Uint63.of_Z (Z.of_nat n)).

Definition isNaN (x : float) : bool := negb (PrimFloat.eqb x x).

(** [Math.max(a, b)] and [Math.min(a, b)]. *)
Definition max2 (a b : float) : float :=
  if isNaN a || isNaN b then PrimFloat.nan
  else if PrimFloat.ltb a b then b
  else if PrimFloat.ltb b a then a
  else if PrimFloat.get_sign a then b else a.

Definition min2 (a b : float) : float :=
  if isNaN a || isNaN b then PrimFloat.nan
  else if PrimFloat.ltb a b then a
  else if PrimFloat.ltb b a then b
  else if PrimFloat.get_sign a then a else b.

(** [Math.max(...xs)]: [-Infinity] on the empty list. *)
Definition maxOf (xs : list float) : float :=
  fold_left max2 xs PrimFloat.neg_infinity.

(** The number that [parseFloat] reads back from [x.toString()]: every
    number prints to a decimal string that denotes it, except that
    negative zero prints as ["0"]. *)
Definition printed (x : float) : float :=
  if PrimFloat.is_zero x then PrimFloat.zero else x.

(** ** [Map<number, V>] in insertion order *)

Definition jsmap (V : Type) : Type := list (Z * V).

Definition get {V} (m : jsmap V) (k : Z) : option V :=
  option_map snd (find (fun p => Z.eqb (fst p) k) m).

(** [m.set(k, v)] replaces the value of a present key in place and
    appends a new key. *)
Fixpoint set {V} (m : jsmap V) (k : Z) (v : V) : jsmap V :=
  match m with
  | [] => [(k, v)]
  | (k', v') :: m' =>
      if Z.eqb k' k then (k, v) :: m' else (k', v') :: set m' k v
  end.

Definition values {V} (m : jsmap V) : list V := map snd m.

End Js.

(* ------------------------------------------------------------------ *)
(** * Regular expressions

    The patterns of the repository use literals, classes, sequence,
    alternation, greedy quantifiers, [\b] and [^]; groups capture but
    are never referred to, so a group is its body.  The matcher is the
    backtracking matcher of the language definition: a regex takes a
    position and a continuation, and the first success in priority
    order is the match. *)

Module Regex.

Inductive item : Type :=
| IChar (c : ascii)
| IRange (lo hi : ascii)
| IDigit
| ISpace.

Inductive regex : Type :=
| Empty
| Char (c : ascii)
| Class (negated : bool) (items : list item)
| Seq (r1 r2 : regex)
| Alt (r1 r2 : regex)
| Rep (r : regex) (lo : nat) (hi : option nat)
| WordBoundary
| LineStart.

Definition itemHas (it : item) (c : ascii) : bool :=
  match it with
  | IChar a => Ascii.eqb a c
  | IRange lo hi => Js.between (Js.code lo) (Js.code hi) c
  | IDigit => Js.isDigit c
  | ISpace => Js.isSpace c
  end.

(** Under the [i] flag a set holds [c] when it holds a character with
    the same canonical form. *)
Definition itemHasCanon (it : item) (c : ascii) : bool :=
  match it with
  | IChar a => Ascii.eqb (Js.canonChar a) (Js.canonChar c)
  | IRange _ _ =>
      itemHas it c || itemHas it (Js.canonChar c) || itemHas it (Js.lowerChar c)
  | IDigit | ISpace => itemHas it c
  end.

Section Matcher.

Variable ignoreCase : bool.
Variable input : list ascii.

Definition charIs (a c : ascii) : bool :=
  if ignoreCase then Ascii.eqb (Js.canonChar a) (Js.canonChar c)
  else Ascii.eqb a c.

Definition classHas (negated : bool) (items : list item) (c : ascii) : bool :=
  xorb negated
    (existsb (fun it => if ignoreCase then itemHasCanon it c else itemHas it c) items).

Definition wordAt (i : nat) : bool :=
  match nth_error input i with
  | Some c => Js.isWordChar c
  | None => false
  end.

Definition atBoundary (i : nat) : bool :=
  xorb (match i with O => false | S p => wordAt p end) (wordAt i).

(** [rmatch r i k]: match [r] at position [i], then continue with
    [k] at the end position.  A quantifier without upper bound runs
    at most [lo + List.length input] iterations: beyond [lo] an iteration
    that consumes nothing fails. *)
Fixpoint rmatch (r : regex) (i : nat) (k : nat -> option nat) : option nat :=
  match r with
  | Empty => k i
  | Char a =>
      match nth_error input i with
      | Some c => if charIs a c then k (S i) else None
      | None => None
      end
  | Class negated items =>
      match nth_error input i with
      | Some c => if classHas negated items c then k (S i) else None
      | None => None
      end
  | Seq r1 r2 => rmatch r1 i (fun j => rmatch r2 j k)
  | Alt r1 r2 =>
      match rmatch r1 i k with
      | Some e => Some e
      | None => rmatch r2 i k
      end
  | Rep r1 lo hi =>
      (fix iter (n lo : nat) (i : nat) {struct n} : option nat :=
         match n with
         | O => if lo =? 0 then k i else None
         | S n' =>
             match
               rmatch r1 i
                 (fun j => if (lo =? 0) && (j =? i) then None
                           else iter n' (pred lo) j)
             with
             | Some e => Some e
             | None => if lo =? 0 then k i else None
             end
         end)
        (match hi with Some h => h | None => lo + List.length input end) lo i
  | WordBoundary => if atBoundary i then k i else None
  | LineStart => if i =? 0 then k i else None
  end.

Definition matchAt (r : regex) (i : nat) : option nat :=
  rmatch r i (fun j => Some j).

(** The search loop of [exec]: the first position from [i] on, up to
    the end of the input, where the pattern matches. *)
Fixpoint searchN (r : regex) (n i : nat) : option (nat * nat) :=
  match matchAt r i with
  | Some e => Some (i, e)
  | None =>
      match n with
      | O => None
      | S n' => searchN r n' (S i)
      end
  end.

Definition search (r : regex) (i : nat) : option (nat * nat) :=
  if List.length input <? i then None else searchN r (List.length input - i) i.

(** [r.test(input)] for a pattern without the [g] flag. *)
Definition test (r : regex) : bool :=
  match search r 0 with Some _ => true | None => false end.

(** [r.test(input)] for a pattern with the [g] flag: the search
    starts at [lastIndex], which becomes the end of the match, or 0
    when there is none. *)
Definition testGlobal (r : regex) (lastIndex : nat) : bool * nat :=
  match search r lastIndex with
  | Some (_, e) => (true, e)
  | None => (false, 0)
  end.

(** The successive matches of a [g] pattern from position 0, as
    [matchAll], [match] and [replace] enumerate them: after an empty
    match the search resumes one position further. *)
Fixpoint matchesN (r : regex) (n i : nat) : list (nat * nat) :=
  match n with
  | O => []
  | S n' =>
      match search r i with
      | Some (s, e) => (s, e) :: matchesN r n' (if e =? s then S e else e)
      | None => []
      end
  end.

Definition matchAll (r : regex) : list (nat * nat) :=
  matchesN r (S (List.length input)) 0.

(** [input.replace(r, by)] for a [g] pattern and a replacement text
    without [$]. *)
Fixpoint replaceN (ms : list (nat * nat)) (from : nat) (by_ : list ascii) : list ascii :=
  match ms with
  | [] => skipn from input
  | (s, e) :: ms' => Js.slice input from s ++ by_ ++ replaceN ms' e by_
  end.

Definition replaceAll (r : regex) (by_ : list ascii) : list ascii :=
  replaceN (matchAll r) 0 by_.

(** [input.split(r)] for a pattern without groups. *)
Fixpoint splitN (r : regex) (n p q : nat) : list string :=
  match n with
  | O => [Js.str (skipn p input)]
  | S n' =>
      if List.length input <=? q then [Js.str (skipn p input)]
      else
        match matchAt r q with
        | None => splitN r n' p (S q)
        | Some e =>
            if e =? p then splitN r n' p (S q)
            else Js.str (Js.slice input p q) :: splitN r n' e e
        end
  end.

Definition split (r : regex) : list string :=
  match input with
  | [] => match matchAt r 0 with Some _ => [] | None => [EmptyString] end
  | _ => splitN r (2 * List.length input + 1) 0 0
  end.

End Matcher.

(** ** Pattern syntax *)

Definition lit (s : string) : regex :=
  fold_right (fun c r => Seq (Char c) r) Empty (Js.chars s).

Fixpoint alts (rs : list regex) : regex :=
  match rs with
  | [] => Empty
  | [r] => r
  | r :: rs' => Alt r (alts rs')
  end.

Fixpoint seqs (rs : list regex) : regex :=
  match rs with
  | [] => Empty
  | [r] => r
  | r :: rs' => Seq r (seqs rs')
  end.

Definition opt (r : regex) : regex := Rep r 0 (Some 1).
Definition plus (r : regex) : regex := Rep r 1 None.
Definition star (r : regex) : regex := Rep r 0 None.
Definition times (n : nat) (r : regex) : regex := Rep r n (Some n).
Definition digit : regex := Class false [IDigit].
Definition nondigit : regex := Class true [IDigit].
Definition space : regex := Class false [ISpace].
Definition oneOf (s : string) : regex := Class false (map IChar (Js.chars s)).

(** [[-.\s]] *)
Definition sep : regex := Class false [IChar "-"; IChar "."; ISpace].
(** [[-_.*#@!]] *)
Definition symbol : regex := oneOf "-_.*#@!".

End Regex.

(* ------------------------------------------------------------------ *)
(** * The rows of [shared/schema.ts]

    Every row keeps the columns that the operations below read or
    write; the remaining columns are copied unchanged by every one of
    them.  A [decimal] column that the code reads with [parseFloat] is
    kept as the number it parses to; [latitude] and [longitude], which
    the code also tests for truth, are [None] when the column is [null]
    or the empty string.  A [timestamp] is the milliseconds of its
    [Date]. *)

Module User.
Record t : Type := mk {
  id : Z;
  username : string;
  email : string;
  isPremium : bool;
  latitude : option float;
  longitude : option float;
  walletBalance : float;
  suspendedUntil : option Z
}.

(** [Partial<User>], for the fields that the handlers update. *)
Record partial : Type := mkPartial {
  setIsPremium : option bool;
  setWalletBalance : option float;
  setSuspendedUntil : option (option Z)
}.

Definition noUpdate : partial := mkPartial None None None.

(** [{ ...user, ...updates }] *)
Definition merge (u : t) (p : partial) : t :=
  mk (id u) (username u) (email u)
     (match setIsPremium p with Some b => b | None => isPremium u end)
     (latitude u) (longitude u)
     (match setWalletBalance p with Some b => b | None => walletBalance u end)
     (match setSuspendedUntil p with Some d => d | None => suspendedUntil u end).
End User.

Module Swipe.
Record insert : Type := mkInsert {
  swiperId : Z;
  swipedId : Z;
  action : string
}.

Record t : Type := mk {
  data : insert;
  id : Z;
  createdAt : Z
}.
End Swipe.

Module Match.
Record insert : Type := mkInsert {
  user1Id : Z;
  user2Id : Z
}.

Record t : Type := mk {
  data : insert;
  id : Z;
  isActive : bool;
  matchedAt : Z
}.
End Match.

Module Message.
Record insert : Type := mkInsert {
  matchId : Z;
  senderId : Z;
  content : string;
  messageType : string
}.

Record t : Type := mk {
  data : insert;
  id : Z;
  isRead : bool;
  sentAt : Z
}.
End Message.

(** Modelled from the spec: [shared/schema.ts] declares no [blindDates]
    table (the handlers import [BlindDate], [InsertBlindDate] and
    [insertBlindDateSchema] from it).  The columns are those of the
    spec's data model: id, user1Id, user2Id (null until matched), radius,
    centerLat, centerLng, amount, status, scheduledFor; [createBlindDate]
    adds createdAt. *)
Module BlindDate.
Record insert : Type := mkInsert {
  user1Id : Z;
  radius : Z;
  centerLat : float;
  centerLng : float;
  amount : float
}.

Record t : Type := mk {
  data : insert;
  id : Z;
  user2Id : option Z;
  status : string;
  scheduledFor : option Z;
  createdAt : Z
}.

(** [Partial<BlindDate>], for the fields that [matchBlindDate] sets. *)
Record partial : Type := mkPartial {
  setUser2Id : option (option Z);
  setStatus : option string;
  setScheduledFor : option (option Z)
}.

Definition merge (b : t) (p : partial) : t :=
  mk (data b) (id b)
     (match setUser2Id p with Some u => u | None => user2Id b end)
     (match setStatus p with Some s => s | None => status b end)
     (match setScheduledFor p with Some d => d | None => scheduledFor b end)
     (createdAt b).
End BlindDate.

Module Violation.
Record insert : Type := mkInsert {
  userId : Z;
  reporterId : option Z;
  type : string;
  content : option string;
  fineAmount : option string
}.

Record t : Type := mk {
  data : insert;
  id : Z;
  status : string;
  createdAt : Z
}.
End Violation.

(* ------------------------------------------------------------------ *)
(** * [MemStorage]

    The store holds the tables that the handlers below read or write,
    each with the counter of its next id (users are stored with the id
    they carry).  Each method takes the store (and the clock reading
    [now] where it calls [new Date()]) and returns the store with its
    result. *)

Module MemStorage.

Record t : Type := mk {
  users : Js.jsmap User.t;
  matches : Js.jsmap Match.t;
  swipes : Js.jsmap Swipe.t;
  messages : Js.jsmap Message.t;
  blindDates : Js.jsmap BlindDate.t;
  violations : Js.jsmap Violation.t;
  currentMatchId : Z;
  currentSwipeId : Z;
  currentMessageId : Z;
  currentBlindDateId : Z;
  currentViolationId : Z
}.

(** [new MemStorage()] *)
Definition empty : t := mk [] [] [] [] [] [] 1 1 1 1 1.

Definition withUsers (st : t) (us : Js.jsmap User.t) : t :=
  mk us (matches st) (swipes st) (messages st) (blindDates st) (violations st)
     (currentMatchId st) (currentSwipeId st) (currentMessageId st)
     (currentBlindDateId st) (currentViolationId st).

Definition getUser (st : t) (id : Z) : option User.t := Js.get (users st) id.

Definition updateUser (st : t) (id : Z) (updates : User.partial) : t * option User.t :=
  match Js.get (users st) id with
  | None => (st, None)
  | Some user =>
      let updatedUser := User.merge user updates in
      (withUsers st (Js.set (users st) id updatedUser), Some updatedUser)
  end.

(** The distance of [getUsersNearby]; [Math.pow(d, 2)] is [d * d]. *)
Definition distance (lat lng userLat userLng : float) : float :=
  (PrimFloat.sqrt ((lat - userLat) * (lat - userLat) + (lng - userLng) * (lng - userLng))
   * 111)%float.

Definition nearby (lat lng radius : float) (excludeIds : list Z) (user : User.t) : bool :=
  if existsb (Z.eqb (User.id user)) excludeIds then false
  else
    match User.latitude user, User.longitude user with
    | Some userLat, Some userLng =>
        PrimFloat.leb (distance lat lng userLat userLng) radius
    | _, _ => false
    end.

Definition getUsersNearby (st : t) (lat lng radius : float) (excludeIds : list Z)
  : list User.t :=
  filter (nearby lat lng radius excludeIds) (Js.values (users st)).

Definition getSwipe (st : t) (swiperId swipedId : Z) : option Swipe.t :=
  find (fun swipe =>
          Z.eqb (Swipe.swiperId (Swipe.data swipe)) swiperId
          && Z.eqb (Swipe.swipedId (Swipe.data swipe)) swipedId)
       (Js.values (swipes st)).

Definition createSwipe (now : Z) (st : t) (insertSwipe : Swipe.insert) : t * Swipe.t :=
  let swipe := Swipe.mk insertSwipe (currentSwipeId st) now in
  (mk (users st) (matches st) (Js.set (swipes st) (Swipe.id swipe) swipe)
      (messages st) (blindDates st) (violations st)
      (currentMatchId st) (currentSwipeId st + 1) (currentMessageId st)
      (currentBlindDateId st) (currentViolationId st),
   swipe).

Definition getMatches (st : t) (userId : Z) : list Match.t :=
  filter (fun m =>
            (Z.eqb (Match.user1Id (Match.data m)) userId
             || Z.eqb (Match.user2Id (Match.data m)) userId)
            && Match.isActive m)
         (Js.values (matches st)).

Definition createMatch (now : Z) (st : t) (insertMatch : Match.insert) : t * Match.t :=
  let m := Match.mk insertMatch (currentMatchId st) true now in
  (mk (users st) (Js.set (matches st) (Match.id m) m) (swipes st)
      (messages st) (blindDates st) (violations st)
      (currentMatchId st + 1) (currentSwipeId st) (currentMessageId st)
      (currentBlindDateId st) (currentViolationId st),
   m).

Definition createMessage (now : Z) (st : t) (insertMessage : Message.insert)
  : t * Message.t :=
  let message := Message.mk insertMessage (currentMessageId st) false now in
  (mk (users st) (matches st) (swipes st)
      (Js.set (messages st) (Message.id message) message)
      (blindDates st) (violations st)
      (currentMatchId st) (currentSwipeId st) (currentMessageId st + 1)
      (currentBlindDateId st) (currentViolationId st),
   message).

Definition getBlindDate (st : t) (id : Z) : option BlindDate.t :=
  Js.get (blindDates st) id.

Definition createBlindDate (now : Z) (st : t) (insertBlindDate : BlindDate.insert)
  : t * BlindDate.t :=
  let blindDate :=
    BlindDate.mk insertBlindDate (currentBlindDateId st) None "pending" None now in
  (mk (users st) (matches st) (swipes st) (messages st)
      (Js.set (blindDates st) (BlindDate.id blindDate) blindDate) (violations st)
      (currentMatchId st) (currentSwipeId st) (currentMessageId st)
      (currentBlindDateId st + 1) (currentViolationId st),
   blindDate).

Definition updateBlindDate (st : t) (id : Z) (updates : BlindDate.partial)
  : t * option BlindDate.t :=
  match Js.get (blindDates st) id with
  | None => (st, None)
  | Some blindDate =>
      let updatedBlindDate := BlindDate.merge blindDate updates in
      (mk (users st) (matches st) (swipes st) (messages st)
          (Js.set (blindDates st) id updatedBlindDate) (violations st)
          (currentMatchId st) (currentSwipeId st) (currentMessageId st)
          (currentBlindDateId st) (currentViolationId st),
       Some updatedBlindDate)
  end.

Definition day : Z := 24 * 60 * 60 * 1000.

Definition matchBlindDate (now : Z) (st : t) (blindDateId user2Id : Z)
  : t * option BlindDate.t :=
  updateBlindDate st blindDateId
    (BlindDate.mkPartial (Some (Some user2Id)) (Some "matched") (Some (Some (now + day)%Z))).

Definition createViolation (now : Z) (st : t) (insertViolation : Violation.insert)
  : t * Violation.t :=
  let violation := Violation.mk insertViolation (currentViolationId st) "pending" now in
  (mk (users st) (matches st) (swipes st) (messages st) (blindDates st)
      (Js.set (violations st) (Violation.id violation) violation)
      (currentMatchId st) (currentSwipeId st) (currentMessageId st)
      (currentBlindDateId st) (currentViolationId st + 1),
   violation).

End MemStorage.

(* ------------------------------------------------------------------ *)
(** * The route handlers of [registerRoutes]

    A handler takes the request body after its schema has parsed it and
    answers with [res.json(body)] or [res.status(n).json({ message })]. *)

Module Routes.

Import Regex.

Inductive Response (A : Type) : Type :=
| Json (body : A)
| Status (status : nat) (message : string).

Arguments Json {A} body.
Arguments Status {A} status message.

(** ** Content moderation for phone numbers *)

Definition digits3 : regex := times 3 (Class false [IRange "0" "9"]).
Definition digits4 : regex := times 4 (Class false [IRange "0" "9"]).

(** [/(\+?1?[-.\s]?)?\(?[0-9]{3}\)?[-.\s]?[0-9]{3}[-.\s]?[0-9]{4}|(\d{10})|(\d{3}[-.\s]?\d{3}[-.\s]?\d{4})|(\(\d{3}\)\s?\d{3}[-.\s]?\d{4})/g] *)
Definition phoneNumberRegex : regex :=
  alts [
    seqs [opt (seqs [opt (Char "+"); opt (Char "1"); opt sep]);
          opt (Char "("); digits3; opt (Char ")"); opt sep; digits3; opt sep; digits4];
    times 10 digit;
    seqs [times 3 digit; opt sep; times 3 digit; opt sep; times 4 digit];
    seqs [Char "("; times 3 digit; Char ")"; opt space; times 3 digit; opt sep;
          times 4 digit]
  ].

(** [/(zero|one|two|three|four|five|six|seven|eight|nine|oh)/gi] *)
Definition phoneWordRegex : regex :=
  alts (map lit ["zero"; "one"; "two"; "three"; "four"; "five"; "six"; "seven";
                 "eight"; "nine"; "oh"]).

(** The two patterns are module constants with the [g] flag, so each
    keeps its [lastIndex] from one call of [test] to the next. *)
Record RegexState : Type := mkRegexState {
  phoneNumberLastIndex : nat;
  phoneWordLastIndex : nat
}.

Definition containsPhoneNumber (rs : RegexState) (text : string) : bool * RegexState :=
  let (hit, li) := testGlobal false (Js.chars text) phoneNumberRegex (phoneNumberLastIndex rs) in
  if hit then (true, mkRegexState li (phoneWordLastIndex rs))
  else
    let (hitWord, liWord) :=
      testGlobal true (Js.chars text) phoneWordRegex (phoneWordLastIndex rs) in
    (hitWord, mkRegexState li liWord).

(** ** POST /api/swipe *)

Definition postSwipe (now : Z) (st : MemStorage.t) (swipeData : Swipe.insert)
  : MemStorage.t * Response (Swipe.t * option Match.t) :=
  match MemStorage.getSwipe st (Swipe.swiperId swipeData) (Swipe.swipedId swipeData) with
  | Some _ => (st, Status 400 "Already swiped")
  | None =>
      let (st1, swipe) := MemStorage.createSwipe now st swipeData in
      if String.eqb (Swipe.action swipeData) "like" then
        match MemStorage.getSwipe st1 (Swipe.swipedId swipeData) (Swipe.swiperId swipeData) with
        | Some reciprocalSwipe =>
            if String.eqb (Swipe.action (Swipe.data reciprocalSwipe)) "like" then
              let (st2, m) :=
                MemStorage.createMatch now st1
                  (Match.mkInsert (Swipe.swiperId swipeData) (Swipe.swipedId swipeData)) in
              (st2, Json (swipe, Some m))
            else (st1, Json (swipe, None))
        | None => (st1, Json (swipe, None))
        end
      else (st1, Json (swipe, None))
  end.

(** ** POST /api/messages *)

Definition suspensionMessage : string :=
  "Message contains phone number. Account suspended. $100 fine to restore account.".

Definition postMessage (now : Z) (st : MemStorage.t) (rs : RegexState)
    (messageData : Message.insert)
  : MemStorage.t * RegexState * Response Message.t :=
  let (hit, rs') := containsPhoneNumber rs (Message.content messageData) in
  if hit then
    let (st1, _) :=
      MemStorage.createViolation now st
        (Violation.mkInsert (Message.senderId messageData) None "phone_number"
           (Some (Message.content messageData)) (Some "100.00")) in
    let (st2, _) :=
      MemStorage.updateUser st1 (Message.senderId messageData)
        (User.mkPartial None None (Some (Some (now + MemStorage.day)%Z))) in
    (st2, rs', Status 403 suspensionMessage)
  else
    let (st1, message) := MemStorage.createMessage now st messageData in
    (st1, rs', Json message).

(** ** POST /api/blind-dates *)

Definition debit (user : User.t) (amount : float) : User.partial :=
  User.mkPartial None (Some (Js.printed (User.walletBalance user - amount)%float)) None.

(** The user as the merge of [debit] leaves it: only the balance
    differs. *)
Definition debited (user : User.t) (amount : float) : User.t :=
  User.merge user (debit user amount).

Definition postBlindDate (now : Z) (st : MemStorage.t) (blindDateData : BlindDate.insert)
  : MemStorage.t * Response BlindDate.t :=
  match MemStorage.getUser st (BlindDate.user1Id blindDateData) with
  | None => (st, Status 400 "Insufficient wallet balance")
  | Some user =>
      if PrimFloat.ltb (User.walletBalance user) (BlindDate.amount blindDateData)
      then (st, Status 400 "Insufficient wallet balance")
      else
        let (st1, blindDate) := MemStorage.createBlindDate now st blindDateData in
        let (st2, _) :=
          MemStorage.updateUser st1 (BlindDate.user1Id blindDateData)
            (debit user (BlindDate.amount blindDateData)) in
        (st2, Json blindDate)
  end.

(** ** POST /api/blind-dates/:id/join *)

Definition postJoinBlindDate (now : Z) (st : MemStorage.t) (blindDateId userId : Z)
  : MemStorage.t * Response (option BlindDate.t) :=
  match MemStorage.getUser st userId, MemStorage.getBlindDate st blindDateId with
  | Some user, Some blindDate =>
      if PrimFloat.ltb (User.walletBalance user) (BlindDate.amount (BlindDate.data blindDate))
      then (st, Status 400 "Insufficient wallet balance")
      else
        let (st1, matchedBlindDate) := MemStorage.matchBlindDate now st blindDateId userId in
        let (st2, _) :=
          MemStorage.updateUser st1 userId
            (debit user (BlindDate.amount (BlindDate.data blindDate))) in
        (st2, Json matchedBlindDate)
  | _, _ => (st, Status 404 "User or blind date not found")
  end.

(** ** GET /api/blind-dates/available: the filter over the blind dates *)

Definition available (userId : Z) (lat lng radius : float) (blindDate : BlindDate.t) : bool :=
  if negb (String.eqb (BlindDate.status blindDate) "pending")
     || Z.eqb (BlindDate.user1Id (BlindDate.data blindDate)) userId
  then false
  else
    PrimFloat.leb
      (MemStorage.distance lat lng
         (BlindDate.centerLat (BlindDate.data blindDate))
         (BlindDate.centerLng (BlindDate.data blindDate)))
      radius.

End Routes.

(* ------------------------------------------------------------------ *)
(** * [ContentModerator] *)

Module ContentModerator.

Import Regex.

Record ModerationResult : Type := mkResult {
  isViolation : bool;
  violationType : list string;
  confidence : float;
  flaggedContent : list string;
  suggestions : list string
}.

Inductive MatchType : Type := number | spelled | disguised.

Record PhoneNumberMatch : Type := mkMatch {
  text : string;
  type : MatchType;
  matchConfidence : float;
  position : nat * nat
}.

Record ModerationConfig : Type := mkConfig {
  strictMode : bool;
  checkPhoneNumbers : bool;
  checkInappropriateContent : bool;
  checkSpam : bool;
  customBlockedWords : list string
}.

(** The configuration of [new ContentModerator()]. *)
Definition defaultConfig : ModerationConfig := mkConfig false true true true [].

(** ** Patterns: a pattern with its [i] flag *)

Definition standard : list (bool * regex) := [
  (* /(\+?1?[-.\s]?)?\(?[0-9]{3}\)?[-.\s]?[0-9]{3}[-.\s]?[0-9]{4}/g *)
  (false, seqs [opt (seqs [opt (Char "+"); opt (Char "1"); opt sep]);
                opt (Char "("); Routes.digits3; opt (Char ")"); opt sep;
                Routes.digits3; opt sep; Routes.digits4]);
  (* /\b\d{10}\b/g *)
  (false, seqs [WordBoundary; times 10 digit; WordBoundary]);
  (* /\b\d{3}[-.\s]?\d{3}[-.\s]?\d{4}\b/g *)
  (false, seqs [WordBoundary; times 3 digit; opt sep; times 3 digit; opt sep;
                times 4 digit; WordBoundary]);
  (* /\(\d{3}\)\s?\d{3}[-.\s]?\d{4}/g *)
  (false, seqs [Char "("; times 3 digit; Char ")"; opt space; times 3 digit;
                opt sep; times 4 digit]);
  (* /\+1[-.\s]?\d{3}[-.\s]?\d{3}[-.\s]?\d{4}/g *)
  (false, seqs [Char "+"; Char "1"; opt sep; times 3 digit; opt sep; times 3 digit;
                opt sep; times 4 digit])
].

Definition international : list (bool * regex) := [
  (* /\+\d{1,3}[-.\s]?\d{4,14}/g *)
  (false, seqs [Char "+"; Rep digit 1 (Some 3); opt sep; Rep digit 4 (Some 14)]);
  (* /00\d{1,3}[-.\s]?\d{4,14}/g *)
  (false, seqs [Char "0"; Char "0"; Rep digit 1 (Some 3); opt sep; Rep digit 4 (Some 14)])
].

Definition spokenSeparator : regex := alts (map lit ["dot"; "dash"; "space"; "at"]).

Definition disguisedPatterns : list (bool * regex) := [
  (* /\b\d+[\s]*[-_.*#@!]+[\s]*\d+[\s]*[-_.*#@!]+[\s]*\d+/g *)
  (false, seqs [WordBoundary; plus digit; star space; plus symbol; star space;
                plus digit; star space; plus symbol; star space; plus digit]);
  (* /\b\d+\s*(dot|dash|space|at)\s*\d+\s*(dot|dash|space|at)\s*\d+/gi *)
  (true, seqs [WordBoundary; plus digit; star space; spokenSeparator; star space;
               plus digit; star space; spokenSeparator; star space; plus digit])
].

(** ** Word lists, in the order of [Object.entries] *)

Definition sexual : list string :=
  ["explicit"; "nude"; "naked"; "sex"; "sexual"; "porn"; "xxx"; "adult";
   "hookup"; "dtf"; "fwb"; "nsa"; "casual"; "bedroom"; "intimate"].

Definition offensive : list string :=
  ["hate"; "stupid"; "idiot"; "moron"; "loser"; "ugly"; "fat"].

Definition harassment : list string :=
  ["stalk"; "follow home"; "creep"; "obsessed"; "crazy"; "psycho";
   "bitch"; "slut"; "whore"; "kill yourself"; "die"].

Definition spam : list string :=
  ["buy now"; "click here"; "free money"; "get rich"; "work from home";
   "miracle cure"; "weight loss"; "viagra"; "bitcoin"; "investment"].

Definition personalInfo : list string :=
  ["address"; "home address"; "where do you live"; "phone number";
   "cell phone"; "mobile"; "whatsapp"; "telegram"; "snapchat";
   "instagram"; "facebook"; "social security"; "credit card"].

Definition inappropriateContent : list (string * list string) :=
  [("sexual", sexual); ("offensive", offensive); ("harassment", harassment);
   ("spam", spam); ("personalInfo", personalInfo)].

(** ** Phone numbers *)

Definition calculatePhoneConfidence (text : string) : float :=
  let confidence := 0.5%float in
  let digits := replaceAll false (Js.chars text) nondigit [] in
  let n := List.length digits in
  let confidence :=
    if n =? 10 then (confidence + 0.3)%float
    else if (n =? 11) && (match digits with c :: _ => Ascii.eqb c "1" | [] => false end)
         then (confidence + 0.3)%float
    else if (7 <=? n) && (n <=? 15) then (confidence + 0.1)%float
    else confidence in
  let confidence :=
    if test false (Js.chars text) (seqs [Char "("; times 3 digit; Char ")"])
    then (confidence + 0.2)%float else confidence in
  let confidence :=
    if test false (Js.chars text)
         (seqs [times 3 digit; sep; times 3 digit; sep; times 4 digit])
    then (confidence + 0.2)%float else confidence in
  let confidence :=
    if test false (Js.chars text) (seqs [LineStart; Char "+"])
    then (confidence + 0.1)%float else confidence in
  Js.min2 confidence 1.0%float.

Definition calculateDisguisedPhoneConfidence (text : string) : float :=
  let confidence := 0.3%float in
  let digitCount := List.length (matchAll false (Js.chars text) digit) in
  let confidence := if 7 <=? digitCount then (confidence + 0.3)%float else confidence in
  let confidence := if 10 <=? digitCount then (confidence + 0.2)%float else confidence in
  let confidence :=
    if test false (Js.chars text) symbol then (confidence + 0.2)%float else confidence in
  Js.min2 confidence 0.9%float.

(** The matches of one pattern by [text.matchAll(pattern)]. *)
Definition found (text : string) (p : bool * regex) : list (string * (nat * nat)) :=
  map (fun se => (Js.str (Js.slice (Js.chars text) (fst se) (snd se)), se))
      (matchAll (fst p) (Js.chars text) (snd p)).

Definition numberMatches (text : string) (patterns : list (bool * regex))
  : list PhoneNumberMatch :=
  flat_map
    (fun p => map (fun m => mkMatch (fst m) number (calculatePhoneConfidence (fst m)) (snd m))
                  (found text p))
    patterns.

Definition numberWords : list string :=
  ["zero"; "one"; "two"; "three"; "four"; "five"; "six"; "seven"; "eight"; "nine";
   "oh"; "o"].

(** The inner loop of [detectSpelledPhoneNumbers] from word [j] on:
    [window] iterations are left before [j] reaches [i + 15], and
    [words] are the words from [j] to the end.  The loop ends without
    a match when either runs out. *)
Fixpoint spelledRun (window : nat) (words : list string) (sequence : string)
    (consecutiveNumbers : nat) : option PhoneNumberMatch :=
  match window, words with
  | S window', w :: words' =>
      if Js.arrIncludes numberWords w
      then spelledRun window' words' (sequence ++ w ++ " ") (S consecutiveNumbers)
      else if 7 <=? consecutiveNumbers
      then Some (mkMatch (Js.trim sequence) spelled
                   (Js.min2 0.9 (Js.ofNat consecutiveNumbers / 10))%float (0, 0))
      else None
  | _, _ => None
  end.

Definition detectSpelledPhoneNumbers (text : string) : list PhoneNumberMatch :=
  let words := split false (Js.chars (Js.toLowerCase text)) (plus space) in
  flat_map
    (fun i => match spelledRun 15 (skipn i words) "" 0 with
              | Some m => [m]
              | None => []
              end)
    (seq 0 (List.length words - 6)).

Definition detectDisguisedPhoneNumbers (text : string) : list PhoneNumberMatch :=
  flat_map
    (fun p =>
       flat_map
         (fun m =>
            let confidence := calculateDisguisedPhoneConfidence (fst m) in
            if PrimFloat.ltb 0.4%float confidence
            then [mkMatch (fst m) disguised confidence (snd m)]
            else [])
         (found text p))
    disguisedPatterns.

Definition detectPhoneNumbers (config : ModerationConfig) (text : string)
  : list PhoneNumberMatch :=
  let matches :=
    numberMatches text standard ++ numberMatches text international
    ++ detectSpelledPhoneNumbers text ++ detectDisguisedPhoneNumbers text in
  let confidenceThreshold := if strictMode config then 0.3%float else 0.6%float in
  filter (fun m => PrimFloat.leb confidenceThreshold (matchConfidence m)) matches.

(** ** Inappropriate content *)

Record Inappropriate : Type := mkInappropriate {
  violations : list string;
  flagged : list string;
  maxConfidence : float
}.

Definition hits (lowerText : string) (words : list string) : list string :=
  filter (fun word => Js.includes lowerText (Js.toLowerCase word)) words.

Definition detectInappropriateContent (text : string) : Inappropriate :=
  let lowerText := Js.toLowerCase text in
  let found :=
    flat_map (fun entry => map (fun word => (fst entry, word)) (hits lowerText (snd entry)))
             inappropriateContent in
  mkInappropriate
    (Js.dedup (map fst found))
    (Js.dedup (map snd found))
    (fold_left (fun m _ => Js.max2 m 0.8%float) found 0%float).

(** ** Spam *)

(** A value of the object [wordCounts]: a count, or the string that
    [+ 1] makes of a value that is not a number. *)
Inductive Counted : Type :=
| Count (n : nat)
| Text.

(** [acc[key] = (acc[key] || 0) + 1] on the own properties [acc] of an
    object made by [{}].  Such an object inherits from
    [Object.prototype]: reading ["constructor"] before it is an own
    property gives the function [Object], and reading ["__proto__"]
    gives the prototype, both true values to which [+ 1] appends
    ["1"]; assigning a string to ["__proto__"] changes nothing.  Every
    key is in lower case, and no other inherited name is. *)
Fixpoint bump (acc : list (string * Counted)) (key : string) : list (string * Counted) :=
  match acc with
  | [] =>
      if String.eqb key "constructor" then [(key, Text)] else [(key, Count 1)]
  | (k, v) :: acc' =>
      if String.eqb k key
      then (k, match v with Count n => Count (S n) | Text => Text end) :: acc'
      else (k, v) :: bump acc' key
  end.

Definition countWord (acc : list (string * Counted)) (word : string)
  : list (string * Counted) :=
  let key := Js.toLowerCase word in
  if String.eqb key "__proto__" then acc else bump acc key.

(** [Number(v)] of a value of [wordCounts]. *)
Definition countedNumber (v : Counted) : float :=
  match v with
  | Count n => Js.ofNat n
  | Text => PrimFloat.nan
  end.

Record Spam : Type := mkSpam {
  isSpam : bool;
  spamFlagged : list string;
  spamConfidence : float
}.

Definition capsRatio (text : string) : float :=
  (Js.ofNat (List.length (matchAll false (Js.chars text) (Class false [IRange "A" "Z"])))
   / Js.ofNat (String.length text))%float.

Definition punctRatio (text : string) : nat :=
  List.length (matchAll false (Js.chars text) (Rep (oneOf "!?") 2 None)).

Definition maxRepeats (text : string) : float :=
  let words := split false (Js.chars text) (plus space) in
  let wordCounts := fold_left countWord words [] in
  Js.maxOf (map (fun kv => countedNumber (snd kv)) wordCounts).

Definition spamScore (text : string) : float :=
  let lowerText := Js.toLowerCase text in
  let spamScore := fold_left (fun score _ => (score + 0.2)%float) (hits lowerText spam) 0%float in
  let spamScore :=
    if PrimFloat.ltb 0.5%float (capsRatio text) then (spamScore + 0.3)%float else spamScore in
  let spamScore := if 0 <? punctRatio text then (spamScore + 0.2)%float else spamScore in
  if PrimFloat.ltb 3%float (maxRepeats text) then (spamScore + 0.2)%float else spamScore.

Definition detectSpam (text : string) : Spam :=
  mkSpam (PrimFloat.leb 0.6%float (spamScore text))
         (hits (Js.toLowerCase text) spam)
         (Js.min2 (spamScore text) 1.0%float).

(** The score as the spec words it, in tenths: 2 for each keyword hit,
    3 for the capitals, 2 for the punctuation run, 2 for the repeated
    word. *)
Definition specScoreTenths (keywords : nat) (caps punct repeats : bool) : nat :=
  2 * keywords + (if caps then 3 else 0) + (if punct then 2 else 0)
  + (if repeats then 2 else 0).

(** ** The main moderation function *)

Definition checkCustomBlockedWords (config : ModerationConfig) (text : string)
  : list string :=
  hits (Js.toLowerCase text) (customBlockedWords config).

Definition generateSuggestions (violations : list string) : list string :=
  (if Js.arrIncludes violations "phone_number"
   then ["Remove phone numbers and use our secure messaging system instead";
         "Try our video calling feature for direct communication"]
   else [])
  ++ (if Js.arrIncludes violations "sexual"
      then ["Keep conversations respectful and appropriate";
            "Focus on getting to know each other first"]
      else [])
  ++ (if Js.arrIncludes violations "harassment"
      then ["Be respectful and considerate in your messages";
            "Treat others as you would like to be treated"]
      else [])
  ++ (if Js.arrIncludes violations "spam"
      then ["Write personalized messages instead of generic content";
            "Avoid excessive capitalization and punctuation"]
      else []).

(** The three accumulators of [moderateContent]. *)
Definition Acc : Type := (list string * list string * float)%type.

Definition phoneStep (config : ModerationConfig) (text : string) (acc : Acc) : Acc :=
  let '(violations, flaggedContent, maxConfidence) := acc in
  if checkPhoneNumbers config then
    let phoneResult := detectPhoneNumbers config text in
    if 0 <? List.length phoneResult then
      (violations ++ ["phone_number"],
       flaggedContent ++ map ContentModerator.text phoneResult,
       Js.max2 maxConfidence (Js.maxOf (map matchConfidence phoneResult)))
    else acc
  else acc.

Definition inappropriateStep (config : ModerationConfig) (text : string) (acc : Acc) : Acc :=
  let '(violations, flaggedContent, maxConfidence) := acc in
  if checkInappropriateContent config then
    let inappropriateResult := detectInappropriateContent text in
    if 0 <? List.length (ContentModerator.violations inappropriateResult) then
      (violations ++ ContentModerator.violations inappropriateResult,
       flaggedContent ++ flagged inappropriateResult,
       Js.max2 maxConfidence (ContentModerator.maxConfidence inappropriateResult))
    else acc
  else acc.

Definition spamStep (config : ModerationConfig) (text : string) (acc : Acc) : Acc :=
  let '(violations, flaggedContent, maxConfidence) := acc in
  if checkSpam config then
    let spamResult := detectSpam text in
    if isSpam spamResult then
      (violations ++ ["spam"],
       flaggedContent ++ spamFlagged spamResult,
       Js.max2 maxConfidence (spamConfidence spamResult))
    else acc
  else acc.

Definition customStep (config : ModerationConfig) (text : string) (acc : Acc) : Acc :=
  let '(violations, flaggedContent, maxConfidence) := acc in
  let customResult := checkCustomBlockedWords config text in
  if 0 <? List.length customResult then
    (violations ++ ["custom_blocked"],
     flaggedContent ++ customResult,
     Js.max2 maxConfidence 0.9%float)
  else acc.

Definition moderateContent (config : ModerationConfig) (text : string) : ModerationResult :=
  let '(violations, flaggedContent, maxConfidence) :=
    customStep config text
      (spamStep config text
         (inappropriateStep config text
            (phoneStep config text ([], [], 0%float)))) in
  mkResult (0 <? List.length violations) violations maxConfidence
           (Js.dedup flaggedContent) (generateSuggestions violations).

(** ** Exported utility functions *)

Definition quickPhoneCheck (text : string) : bool :=
  0 <? List.length (detectPhoneNumbers (mkConfig false true true true []) text).

Definition quickModerationCheck (text : string) : bool :=
  isViolation (moderateContent defaultConfig text).

(** [sanitized.replace(new RegExp(escaped, 'gi'), '*'.repeat(flagged.length))]:
    the escaped text is the literal pattern of [flagged]. *)
Definition mask (sanitized flagged : string) : string :=
  Js.str (replaceAll true (Js.chars sanitized) (lit flagged)
            (Js.chars (Js.repeatStar (String.length flagged)))).

Definition sanitizeText (text : string) : string :=
  let result := moderateContent defaultConfig text in
  if negb (isViolation result) then text
  else fold_left mask (flaggedContent result) text.

End ContentModerator.

(* ------------------------------------------------------------------ *)
(** * The server as a state machine

    The state that the handlers share is the store ([storage]) and the
    [lastIndex] of the two module-level patterns; a history is a list of
    requests, each with the clock reading at which it is served.  The
    requests are those that write swipes, matches, messages, violations
    and blind dates; the other routes write users, profiles, stories and
    payments only. *)

Module App.

Record t : Type := mk {
  storage : MemStorage.t;
  regexState : Routes.RegexState
}.

Inductive Request : Type :=
| PostSwipe (swipeData : Swipe.insert)
| PostMessage (messageData : Message.insert)
| PostBlindDate (blindDateData : BlindDate.insert)
| PostJoinBlindDate (blindDateId userId : Z).

Definition handle (app : t) (timed : Z * Request) : t :=
  let (now, request) := timed in
  match request with
  | PostSwipe swipeData =>
      mk (fst (Routes.postSwipe now (storage app) swipeData)) (regexState app)
  | PostMessage messageData =>
      let '(st, rs, _) :=
        Routes.postMessage now (storage app) (regexState app) messageData in
      mk st rs
  | PostBlindDate blindDateData =>
      mk (fst (Routes.postBlindDate now (storage app) blindDateData)) (regexState app)
  | PostJoinBlindDate blindDateId userId =>
      mk (fst (Routes.postJoinBlindDate now (storage app) blindDateId userId))
         (regexState app)
  end.

Definition run (history : list (Z * Request)) (app : t) : t :=
  fold_left handle history app.

(** ** Observations on the store *)

(** The stored swipe of [a] on [b] is a like. *)
Definition liked (st : MemStorage.t) (a b : Z) : bool :=
  match MemStorage.getSwipe st a b with
  | Some swipe => String.eqb (Swipe.action (Swipe.data swipe)) "like"
  | None => false
  end.

Definition joins (a b : Z) (m : Match.t) : bool :=
  (Z.eqb (Match.user1Id (Match.data m)) a && Z.eqb (Match.user2Id (Match.data m)) b)
  || (Z.eqb (Match.user1Id (Match.data m)) b && Z.eqb (Match.user2Id (Match.data m)) a).

(** The matches of the unordered pair of [a] and [b]. *)
Definition pairMatches (st : MemStorage.t) (a b : Z) : list Match.t :=
  filter (joins a b) (Js.values (MemStorage.matches st)).

(** No stored swipe or match has the id that the next one will get:
    the counters are ahead of the keys. *)
Definition freshIds (st : MemStorage.t) : Prop :=
  Forall (fun kv => (fst kv < MemStorage.currentSwipeId st)%Z) (MemStorage.swipes st)
  /\ Forall (fun kv => (fst kv < MemStorage.currentMatchId st)%Z) (MemStorage.matches st).

(** Two stores with the same swipes and matches, and the same next ids
    for them. *)
Definition sameSwipes (st st' : MemStorage.t) : Prop :=
  MemStorage.swipes st' = MemStorage.swipes st
  /\ MemStorage.matches st' = MemStorage.matches st
  /\ MemStorage.currentSwipeId st' = MemStorage.currentSwipeId st
  /\ MemStorage.currentMatchId st' = MemStorage.currentMatchId st.

(** The pair of [a] and [b] has one match when each has a stored like
    on the other, and none otherwise. *)
Definition oneMatchPerMutualLike (st : MemStorage.t) : Prop :=
  forall a b,
    List.length (pairMatches st a b) = if liked st a b && liked st b a then 1 else 0.

(** A blind date is pending without a second user, or matched with
    one. *)
Definition pendingOrMatched (b : BlindDate.t) : Prop :=
  (BlindDate.status b = "pending" /\ BlindDate.user2Id b = None)
  \/ (BlindDate.status b = "matched" /\ BlindDate.user2Id b <> None).

(** A store in which nobody has swiped yet. *)
Definition unswiped (st : MemStorage.t) : Prop :=
  MemStorage.swipes st = [] /\ MemStorage.matches st = [].

End App.

(* ------------------------------------------------------------------ *)
(** * Sample data *)

Module Sample.

Definition user (id : Z) (name : string) (lat lng : option float) (balance : float)
  : User.t :=
  User.mk id name (name ++ "@example.com") false lat lng balance None.

Definition withUser (st : MemStorage.t) (u : User.t) : MemStorage.t :=
  MemStorage.withUsers st (Js.set (MemStorage.users st) (User.id u) u).

(** Three funded users: at the origin, 0.05 degrees and 1 degree north
    of it; a fourth without position. *)
Definition ann : User.t := user 1 "ann" (Some 0%float) (Some 0%float) 100%float.
Definition bob : User.t := user 2 "bob" (Some 0.05%float) (Some 0%float) 100%float.
Definition cat : User.t := user 3 "cat" (Some 1%float) (Some 0%float) 100%float.
Definition dan : User.t := user 4 "dan" None None 20%float.

Definition store : MemStorage.t :=
  fold_left withUser [ann; bob; cat; dan] MemStorage.empty.

Definition app : App.t := App.mk store (Routes.mkRegexState 0 0).

Definition like (a b : Z) : Swipe.insert := Swipe.mkInsert a b "like".
Definition superLike (a b : Z) : Swipe.insert := Swipe.mkInsert a b "super_like".

Definition dinner (who : Z) (amount : float) : BlindDate.insert :=
  BlindDate.mkInsert who 10 0%float 0%float amount.

Definition message (sender : Z) (content : string) : Message.insert :=
  Message.mkInsert 1 sender content "text".

(** The store after ann has opened a blind date of 50 and bob has
    joined it. *)
Definition matchedStore : MemStorage.t :=
  App.storage
    (App.run [(1000%Z, App.PostBlindDate (dinner 1 50%float));
              (2000%Z, App.PostJoinBlindDate 1 2)] app).

Definition spelledNumber : string :=
  "my number is five five five one two three four five six seven".

Definition buyNow : string := "BUY NOW!!! BUY NOW!!! BUY NOW!!! BUY NOW!!!".

End Sample.

(* ------------------------------------------------------------------ *)
(** * The remaining rows and tables of [MemStorage] *)

(** [InsertUser]: the columns of a user that the request carries. *)
Module InsertUser.
Record t : Type := mk {
  username : string;
  email : string;
  latitude : option float;
  longitude : option float
}.
End InsertUser.

Module Profile.
Record insert : Type := mkInsert {
  userId : Z;
  mediaType : string;
  mediaUrl : string;
  order : Z
}.

Record t : Type := mk {
  data : insert;
  id : Z;
  isApproved : bool
}.
End Profile.

Module ArStory.
Record insert : Type := mkInsert {
  userId : Z;
  videoUrl : string;
  latitude : float;
  longitude : float;
  radius : Z;
  expiresAt : Z
}.

Record t : Type := mk {
  data : insert;
  id : Z;
  views : Z;
  createdAt : Z
}.
End ArStory.

Module Payment.
Record insert : Type := mkInsert {
  userId : Z;
  amount : float;
  type : string;
  paymentMethod : option string
}.

Record t : Type := mk {
  data : insert;
  id : Z;
  status : string;
  transactionId : option string;
  createdAt : Z
}.

(** [Partial<Payment>], for the fields that the settlement sets. *)
Record partial : Type := mkPartial {
  setStatus : option string;
  setTransactionId : option (option string)
}.

Definition merge (p : t) (u : partial) : t :=
  mk (data p) (id p)
     (match setStatus u with Some s => s | None => status p end)
     (match setTransactionId u with Some x => x | None => transactionId p end)
     (createdAt p).
End Payment.

(** The body of [PUT /api/users/:id]: a [Partial<User>] that may carry
    any column of [User.t].  The handler hands it to [updateUser] as it
    comes. *)
Module UserBody.
Record t : Type := mk {
  id : option Z;
  username : option string;
  email : option string;
  isPremium : option bool;
  latitude : option (option float);
  longitude : option (option float);
  walletBalance : option float;
  suspendedUntil : option (option Z)
}.

Definition empty : t := mk None None None None None None None None.

(** [{ ...user, ...updates }] *)
Definition merge (u : User.t) (b : t) : User.t :=
  User.mk
    (match id b with Some x => x | None => User.id u end)
    (match username b with Some x => x | None => User.username u end)
    (match email b with Some x => x | None => User.email u end)
    (match isPremium b with Some x => x | None => User.isPremium u end)
    (match latitude b with Some x => x | None => User.latitude u end)
    (match longitude b with Some x => x | None => User.longitude u end)
    (match walletBalance b with Some x => x | None => User.walletBalance u end)
    (match suspendedUntil b with Some x => x | None => User.suspendedUntil u end).

(** The updates that the handlers make themselves, as a body. *)
Definition ofPartial (p : User.partial) : t :=
  mk None None None (User.setIsPremium p) None None
     (User.setWalletBalance p) (User.setSuspendedUntil p).
End UserBody.

(** The whole store: [MemStorage.t] with the tables and counters that
    it leaves out.  The methods that need only the tables of
    [MemStorage.t] take that part. *)
Module Storage.

Record t : Type := mk {
  core : MemStorage.t;
  profiles : Js.jsmap Profile.t;
  arStories : Js.jsmap ArStory.t;
  payments : Js.jsmap Payment.t;
  currentUserId : Z;
  currentProfileId : Z;
  currentArStoryId : Z;
  currentPaymentId : Z
}.

(** [new MemStorage()] *)
Definition empty : t := mk MemStorage.empty [] [] [] 1 1 1 1.

Definition withCore (st : t) (c : MemStorage.t) : t :=
  mk c (profiles st) (arStories st) (payments st)
     (currentUserId st) (currentProfileId st) (currentArStoryId st) (currentPaymentId st).

(** [m.delete(k)]: whether the key was there, and the map without it. *)
Definition mapDelete {V} (m : Js.jsmap V) (k : Z) : Js.jsmap V * bool :=
  (filter (fun kv => negb (Z.eqb (fst kv) k)) m,
   existsb (fun kv => Z.eqb (fst kv) k) m).

(** ** Users *)

Definition getUserByEmail (c : MemStorage.t) (email : string) : option User.t :=
  find (fun user => String.eqb (User.email user) email) (Js.values (MemStorage.users c)).

Definition getUserByUsername (c : MemStorage.t) (username : string) : option User.t :=
  find (fun user => String.eqb (User.username user) username)
       (Js.values (MemStorage.users c)).

Definition createUser (st : t) (insertUser : InsertUser.t) : t * User.t :=
  let user :=
    User.mk (currentUserId st) (InsertUser.username insertUser)
            (InsertUser.email insertUser) false
            (InsertUser.latitude insertUser) (InsertUser.longitude insertUser)
            0%float None in
  (mk (MemStorage.withUsers (core st)
         (Js.set (MemStorage.users (core st)) (User.id user) user))
      (profiles st) (arStories st) (payments st)
      (currentUserId st + 1) (currentProfileId st) (currentArStoryId st)
      (currentPaymentId st),
   user).

(** [updateUser] for any [Partial<User>]: [MemStorage.updateUser] is
    this method on the updates of the handlers. *)
Definition updateUser (c : MemStorage.t) (id : Z) (updates : UserBody.t)
  : MemStorage.t * option User.t :=
  match Js.get (MemStorage.users c) id with
  | None => (c, None)
  | Some user =>
      let updatedUser := UserBody.merge user updates in
      (MemStorage.withUsers c (Js.set (MemStorage.users c) id updatedUser),
       Some updatedUser)
  end.

(** ** Profiles *)

Definition getProfilesByUserId (st : t) (userId : Z) : list Profile.t :=
  filter (fun profile => Z.eqb (Profile.userId (Profile.data profile)) userId)
         (Js.values (profiles st)).

Definition createProfile (st : t) (insertProfile : Profile.insert) : t * Profile.t :=
  let profile := Profile.mk insertProfile (currentProfileId st) false in
  (mk (core st) (Js.set (profiles st) (Profile.id profile) profile)
      (arStories st) (payments st)
      (currentUserId st) (currentProfileId st + 1) (currentArStoryId st)
      (currentPaymentId st),
   profile).

Definition deleteProfile (st : t) (id : Z) : t * bool :=
  let (rest, found) := mapDelete (profiles st) id in
  (mk (core st) rest (arStories st) (payments st)
      (currentUserId st) (currentProfileId st) (currentArStoryId st)
      (currentPaymentId st),
   found).

(** ** Messages *)

Definition getMessagesByMatch (c : MemStorage.t) (matchId : Z) : list Message.t :=
  filter (fun message => Z.eqb (Message.matchId (Message.data message)) matchId)
         (Js.values (MemStorage.messages c)).

Definition withMessages (c : MemStorage.t) (ms : Js.jsmap Message.t) : MemStorage.t :=
  MemStorage.mk (MemStorage.users c) (MemStorage.matches c) (MemStorage.swipes c) ms
    (MemStorage.blindDates c) (MemStorage.violations c)
    (MemStorage.currentMatchId c) (MemStorage.currentSwipeId c)
    (MemStorage.currentMessageId c) (MemStorage.currentBlindDateId c)
    (MemStorage.currentViolationId c).

Definition markMessageAsRead (c : MemStorage.t) (id : Z) : MemStorage.t * bool :=
  match Js.get (MemStorage.messages c) id with
  | None => (c, false)
  | Some message =>
      let read :=
        Message.mk (Message.data message) (Message.id message) true
                   (Message.sentAt message) in
      (withMessages c (Js.set (MemStorage.messages c) id read), true)
  end.

(** ** Blind dates and violations *)

Definition getActiveBlindDates (c : MemStorage.t) (userId : Z) : list BlindDate.t :=
  filter (fun blindDate =>
            Z.eqb (BlindDate.user1Id (BlindDate.data blindDate)) userId
            && String.eqb (BlindDate.status blindDate) "pending")
         (Js.values (MemStorage.blindDates c)).

Definition getUserViolations (c : MemStorage.t) (userId : Z) : list Violation.t :=
  filter (fun violation => Z.eqb (Violation.userId (Violation.data violation)) userId)
         (Js.values (MemStorage.violations c)).

(** ** AR stories *)

(** The distance of [getArStoriesNearby], in meters. *)
Definition storyDistance (lat lng storyLat storyLng : float) : float :=
  (PrimFloat.sqrt ((lat - storyLat) * (lat - storyLat) + (lng - storyLng) * (lng - storyLng))
   * 111000)%float.

Definition storyNearby (now : Z) (lat lng radius : float) (story : ArStory.t) : bool :=
  if Z.ltb (ArStory.expiresAt (ArStory.data story)) now then false
  else
    PrimFloat.leb
      (storyDistance lat lng (ArStory.latitude (ArStory.data story))
         (ArStory.longitude (ArStory.data story)))
      radius.

Definition getArStoriesNearby (now : Z) (st : t) (lat lng radius : float)
  : list ArStory.t :=
  filter (storyNearby now lat lng radius) (Js.values (arStories st)).

Definition withArStories (st : t) (stories : Js.jsmap ArStory.t) (next : Z) : t :=
  mk (core st) (profiles st) stories (payments st)
     (currentUserId st) (currentProfileId st) next (currentPaymentId st).

Definition createArStory (now : Z) (st : t) (insertArStory : ArStory.insert)
  : t * ArStory.t :=
  let story := ArStory.mk insertArStory (currentArStoryId st) 0 now in
  (withArStories st (Js.set (arStories st) (ArStory.id story) story)
     (currentArStoryId st + 1),
   story).

Definition incrementStoryViews (st : t) (id : Z) : t * bool :=
  match Js.get (arStories st) id with
  | None => (st, false)
  | Some story =>
      let viewed :=
        ArStory.mk (ArStory.data story) (ArStory.id story) (ArStory.views story + 1)
                   (ArStory.createdAt story) in
      (withArStories st (Js.set (arStories st) id viewed) (currentArStoryId st), true)
  end.

(** ** Payments *)

Definition withPayments (st : t) (ps : Js.jsmap Payment.t) (next : Z) : t :=
  mk (core st) (profiles st) (arStories st) ps
     (currentUserId st) (currentProfileId st) (currentArStoryId st) next.

Definition createPayment (now : Z) (st : t) (insertPayment : Payment.insert)
  : t * Payment.t :=
  let payment := Payment.mk insertPayment (currentPaymentId st) "pending" None now in
  (withPayments st (Js.set (payments st) (Payment.id payment) payment)
     (currentPaymentId st + 1),
   payment).

Definition updatePayment (st : t) (id : Z) (updates : Payment.partial)
  : t * option Payment.t :=
  match Js.get (payments st) id with
  | None => (st, None)
  | Some payment =>
      let updatedPayment := Payment.merge payment updates in
      (withPayments st (Js.set (payments st) id updatedPayment) (currentPaymentId st),
       Some updatedPayment)
  end.

Definition getUserPayments (st : t) (userId : Z) : list Payment.t :=
  filter (fun payment => Z.eqb (Payment.userId (Payment.data payment)) userId)
         (Js.values (payments st)).

End Storage.

(* ------------------------------------------------------------------ *)
(** * The remaining route handlers

    The handlers of [Routes] work on the tables of [MemStorage.t]; the
    ones below need the whole store or only read.  Query parameters are
    taken after [parseInt] and [parseFloat]. *)

Module Api.

Import Routes.

(** ** POST /api/register *)

Definition register (st : Storage.t) (userData : InsertUser.t)
  : Storage.t * Response User.t :=
  match Storage.getUserByEmail (Storage.core st) (InsertUser.email userData) with
  | Some _ => (st, Status 400 "User already exists")
  | None =>
      let (st', user) := Storage.createUser st userData in
      (st', Json user)
  end.

(** ** GET /api/users/:id *)

Definition getUser (c : MemStorage.t) (id : Z) : Response User.t :=
  match MemStorage.getUser c id with
  | None => Status 404 "User not found"
  | Some user => Json user
  end.

(** ** PUT /api/users/:id *)

Definition putUser (c : MemStorage.t) (id : Z) (updates : UserBody.t)
  : MemStorage.t * Response User.t :=
  let (c', user) := Storage.updateUser c id updates in
  match user with
  | None => (c', Status 404 "User not found")
  | Some user => (c', Json user)
  end.

(** ** GET /api/discover: the ids that the nearby query excludes

    [[currentUser.id, ...swipedIds]], where the swiped ids are read off
    the swipes of the user on the ids 1 to 100. *)

Definition swipedIds (c : MemStorage.t) (userId : Z) : list Z :=
  flat_map
    (fun i =>
       match MemStorage.getSwipe c userId (Z.of_nat (i + 1)) with
       | Some swipe => [Swipe.swipedId (Swipe.data swipe)]
       | None => []
       end)
    (seq 0 100).

Definition discoverNearby (c : MemStorage.t) (currentUser : User.t) (lat lng radius : float)
  : list User.t :=
  MemStorage.getUsersNearby c lat lng radius
    (User.id currentUser :: swipedIds c (User.id currentUser)).

(** ** GET /api/blind-dates/available *)

Definition storedBlindDates (c : MemStorage.t) : list BlindDate.t :=
  flat_map
    (fun i =>
       match MemStorage.getBlindDate c (Z.of_nat (i + 1)) with
       | Some blindDate => [blindDate]
       | None => []
       end)
    (seq 0 100).

Definition getAvailableBlindDates (c : MemStorage.t) (userId : Z) (lat lng radius : float)
  : Response (list BlindDate.t) :=
  match MemStorage.getUser c userId with
  | None => Status 404 "User not found"
  | Some user =>
      Json (filter (available (User.id user) lat lng radius) (storedBlindDates c))
  end.

(** ** AR stories *)

Definition getArStories (now : Z) (st : Storage.t) (lat lng radius : float)
  : Response (list ArStory.t) :=
  Json (Storage.getArStoriesNearby now st lat lng radius).

Definition postArStory (now : Z) (st : Storage.t) (storyData : ArStory.insert)
  : Storage.t * Response ArStory.t :=
  let (st', story) := Storage.createArStory now st storyData in
  (st', Json story).

Definition postArStoryView (st : Storage.t) (id : Z) : Storage.t * Response bool :=
  let (st', success) := Storage.incrementStoryViews st id in
  if negb success then (st', Status 404 "Story not found") else (st', Json true).

(** ** POST /api/payments

    The handler stores the payment as pending and answers with it; the
    callback that it hands to [setTimeout] settles the payment two
    seconds later, at the clock reading [now]. *)

Definition postPayment (now : Z) (st : Storage.t) (paymentData : Payment.insert)
  : Storage.t * Response Payment.t :=
  let (st', payment) := Storage.createPayment now st paymentData in
  (st', Json payment).

(** [`txn_${Date.now()}`] *)
Definition transactionIdAt (now : Z) : string :=
  "txn_" ++ DecimalString.NilZero.string_of_int (Z.to_int now).

Definition credit (user : User.t) (amount : float) : User.partial :=
  User.mkPartial None (Some (Js.printed (User.walletBalance user + amount)%float)) None.

Definition settlePayment (now : Z) (st : Storage.t) (payment : Payment.t)
    (paymentData : Payment.insert) : Storage.t :=
  let (st1, _) :=
    Storage.updatePayment st (Payment.id payment)
      (Payment.mkPartial (Some "completed") (Some (Some (transactionIdAt now)))) in
  match MemStorage.getUser (Storage.core st1) (Payment.userId paymentData) with
  | None => st1
  | Some user =>
      let updates :=
        if String.eqb (Payment.type paymentData) "premium"
        then User.mkPartial (Some true) None None
        else if String.eqb (Payment.type paymentData) "fine"
        then User.mkPartial None None (Some None)
        else credit user (Payment.amount paymentData) in
      Storage.withCore st1
        (fst (MemStorage.updateUser (Storage.core st1) (Payment.userId paymentData) updates))
  end.

(** ** POST /api/violations *)

Definition postViolation (now : Z) (c : MemStorage.t) (violationData : Violation.insert)
  : MemStorage.t * Response Violation.t :=
  let (c', violation) := MemStorage.createViolation now c violationData in
  (c', Json violation).

End Api.

(** ** [ContentModerator]: the configuration methods *)

Module ModeratorConfig.

Import ContentModerator.

(** [Partial<ModerationConfig>] *)
Record partial : Type := mkPartial {
  setStrictMode : option bool;
  setCheckPhoneNumbers : option bool;
  setCheckInappropriateContent : option bool;
  setCheckSpam : option bool;
  setCustomBlockedWords : option (list string)
}.

Definition merge (config : ModerationConfig) (p : partial) : ModerationConfig :=
  mkConfig
    (match setStrictMode p with Some b => b | None => strictMode config end)
    (match setCheckPhoneNumbers p with Some b => b | None => checkPhoneNumbers config end)
    (match setCheckInappropriateContent p with
     | Some b => b | None => checkInappropriateContent config end)
    (match setCheckSpam p with Some b => b | None => checkSpam config end)
    (match setCustomBlockedWords p with Some ws => ws | None => customBlockedWords config end).

(** [new ContentModerator(config)] *)
Definition create (p : partial) : ModerationConfig := merge defaultConfig p.

Definition updateConfig (config : ModerationConfig) (newConfig : partial)
  : ModerationConfig :=
  merge config newConfig.

Definition withWords (config : ModerationConfig) (ws : list string) : ModerationConfig :=
  mkConfig (strictMode config) (checkPhoneNumbers config)
           (checkInappropriateContent config) (checkSpam config) ws.

Definition addBlockedWords (config : ModerationConfig) (words : list string)
  : ModerationConfig :=
  withWords config (customBlockedWords config ++ words).

Definition removeBlockedWords (config : ModerationConfig) (words : list string)
  : ModerationConfig :=
  withWords config
    (filter (fun word => negb (Js.arrIncludes words word)) (customBlockedWords config)).

End ModeratorConfig.

(** A confidence is a number from 0 to 1. *)
Definition isConfidence (x : float) : bool :=
  (PrimFloat.leb 0 x && PrimFloat.leb x 1)%float.

(* ------------------------------------------------------------------ *)
(** * The whole server as a state machine

    A request of the machine is a request to one of the routes that
    write to the store, or the callback that settles a payment.  The
    routes that only read ([POST /api/login] and the [GET] routes) leave
    the store as it is and are no requests of the machine. *)

Module Server.

Record t : Type := mk {
  store : Storage.t;
  regexState : Routes.RegexState
}.

Inductive Request : Type :=
| Handler (request : App.Request)
| Register (userData : InsertUser.t)
| PostPayment (paymentData : Payment.insert)
| Settle (payment : Payment.t) (paymentData : Payment.insert)
| PostArStory (storyData : ArStory.insert)
| PostArStoryView (id : Z)
| PostViolation (violationData : Violation.insert)
| PutUser (id : Z) (updates : UserBody.t).

Definition handle (srv : t) (timed : Z * Request) : t :=
  let (now, request) := timed in
  match request with
  | Handler r =>
      let app := App.handle (App.mk (Storage.core (store srv)) (regexState srv)) (now, r) in
      mk (Storage.withCore (store srv) (App.storage app)) (App.regexState app)
  | Register userData => mk (fst (Api.register (store srv) userData)) (regexState srv)
  | PostPayment paymentData =>
      mk (fst (Api.postPayment now (store srv) paymentData)) (regexState srv)
  | Settle payment paymentData =>
      mk (Api.settlePayment now (store srv) payment paymentData) (regexState srv)
  | PostArStory storyData =>
      mk (fst (Api.postArStory now (store srv) storyData)) (regexState srv)
  | PostArStoryView id => mk (fst (Api.postArStoryView (store srv) id)) (regexState srv)
  | PostViolation violationData =>
      mk (Storage.withCore (store srv)
            (fst (Api.postViolation now (Storage.core (store srv)) violationData)))
         (regexState srv)
  | PutUser id updates =>
      mk (Storage.withCore (store srv)
            (fst (Api.putUser (Storage.core (store srv)) id updates)))
         (regexState srv)
  end.

Definition run (history : list (Z * Request)) (srv : t) : t :=
  fold_left handle history srv.

(** [new MemStorage()] and the two patterns as the module loads them. *)
Definition start : t := mk Storage.empty (Routes.mkRegexState 0 0).

(** The writes of the handlers of [Routes] to the tables of
    [MemStorage.t]: each handler is a sequence of these. *)
Inductive write : MemStorage.t -> MemStorage.t -> Prop :=
| WriteSwipe now c d : write c (fst (MemStorage.createSwipe now c d))
| WriteMatch now c m : write c (fst (MemStorage.createMatch now c m))
| WriteMessage now c m : write c (fst (MemStorage.createMessage now c m))
| WriteBlindDate now c b : write c (fst (MemStorage.createBlindDate now c b))
| WriteViolation now c v : write c (fst (MemStorage.createViolation now c v))
| WriteUser c id updates : write c (fst (MemStorage.updateUser c id updates))
| WriteJoin now c id user2 : write c (fst (MemStorage.matchBlindDate now c id user2)).

Inductive writes : MemStorage.t -> MemStorage.t -> Prop :=
| WritesDone c : writes c c
| WritesStep c1 c2 c3 : write c1 c2 -> writes c2 c3 -> writes c1 c3.

(** All keys of a table are below the next id. *)
Definition ahead {V : Type} (next : Z) (m : Js.jsmap V) : Prop :=
  Forall (fun kv => (fst kv < next)%Z) m.

(** Every user is stored under its id, below [next], and no two stored
    users share an email. *)
Definition usersKeyed (next : Z) (c : MemStorage.t) : Prop :=
  Forall (fun kv => User.id (snd kv) = fst kv /\ (fst kv < next)%Z) (MemStorage.users c)
  /\ NoDup (map (fun kv => User.email (snd kv)) (MemStorage.users c)).

(** The tables of [MemStorage.t] as the handlers keep them: counters
    ahead of the keys, blind dates stored under their ids, one to a
    key, every match active. *)
Definition coreWellFormed (next : Z) (c : MemStorage.t) : Prop :=
  usersKeyed next c
  /\ ahead (MemStorage.currentSwipeId c) (MemStorage.swipes c)
  /\ ahead (MemStorage.currentMatchId c) (MemStorage.matches c)
  /\ ahead (MemStorage.currentMessageId c) (MemStorage.messages c)
  /\ ahead (MemStorage.currentBlindDateId c) (MemStorage.blindDates c)
  /\ ahead (MemStorage.currentViolationId c) (MemStorage.violations c)
  /\ Forall (fun kv => BlindDate.id (snd kv) = fst kv) (MemStorage.blindDates c)
  /\ Forall (fun kv => Match.isActive (snd kv) = true) (MemStorage.matches c)
  /\ NoDup (map fst (MemStorage.blindDates c)).

Definition wellFormed (st : Storage.t) : Prop :=
  coreWellFormed (Storage.currentUserId st) (Storage.core st)
  /\ ahead (Storage.currentArStoryId st) (Storage.arStories st)
  /\ ahead (Storage.currentPaymentId st) (Storage.payments st)
  /\ App.oneMatchPerMutualLike (Storage.core st).

(** The part of [coreWellFormed] that does not speak of the users. *)
Definition tables (c : MemStorage.t) : Prop :=
  ahead (MemStorage.currentSwipeId c) (MemStorage.swipes c)
  /\ ahead (MemStorage.currentMatchId c) (MemStorage.matches c)
  /\ ahead (MemStorage.currentMessageId c) (MemStorage.messages c)
  /\ ahead (MemStorage.currentBlindDateId c) (MemStorage.blindDates c)
  /\ ahead (MemStorage.currentViolationId c) (MemStorage.violations c)
  /\ Forall (fun kv => BlindDate.id (snd kv) = fst kv) (MemStorage.blindDates c)
  /\ Forall (fun kv => Match.isActive (snd kv) = true) (MemStorage.matches c)
  /\ NoDup (map fst (MemStorage.blindDates c)).

(** [wellFormed] without what it says of the users: this much every
    request keeps, also a [PUT /api/users/:id] with any body. *)
Definition consistent (st : Storage.t) : Prop :=
  tables (Storage.core st)
  /\ ahead (Storage.currentArStoryId st) (Storage.arStories st)
  /\ ahead (Storage.currentPaymentId st) (Storage.payments st)
  /\ App.oneMatchPerMutualLike (Storage.core st).

(** The requests that leave the id and the email of every user alone:
    all but a [PUT /api/users/:id] whose body carries one of the two. *)
Definition keepsIdentity (request : Request) : Prop :=
  match request with
  | PutUser _ updates => UserBody.id updates = None /\ UserBody.email updates = None
  | _ => True
  end.

End Server.

(* ------------------------------------------------------------------ *)
(** * Properties *)

(** ** Maps, lists and numbers *)

Section JsMapFacts.

Context {V : Type}.
Implicit Types (m : Js.jsmap V) (k : Z) (v : V).

Lemma get_set_same m k v : Js.get (Js.set m k v) k = Some v.
Proof.
  unfold Js.get.
  induction m as [|[k' v'] m IH]; simpl.
  - now rewrite Z.eqb_refl.
  - destruct (Z.eqb k' k) eqn:E; simpl.
    + now rewrite Z.eqb_refl.
    + now rewrite E.
Qed.

Lemma get_set_other m k k' v : k' <> k -> Js.get (Js.set m k v) k' = Js.get m k'.
Proof.
  intros Hne. unfold Js.get.
  induction m as [|[k0 v0] m IH]; simpl.
  - destruct (Z.eqb_spec k k'); [congruence | reflexivity].
  - destruct (Z.eqb_spec k0 k) as [->|Hk]; simpl.
    + destruct (Z.eqb_spec k k'); [congruence | reflexivity].
    + destruct (Z.eqb k0 k'); [reflexivity | exact IH].
Qed.

(** A key that is not in the map is appended. *)
Lemma set_fresh m k v :
  Forall (fun kv => fst kv <> k) m -> Js.set m k v = m ++ [(k, v)].
Proof.
  induction 1 as [|[k' v'] m Hk _ IH]; simpl; [reflexivity|].
  simpl in Hk. destruct (Z.eqb_spec k' k); [contradiction | now rewrite IH].
Qed.

Lemma values_app m m' : Js.values (m ++ m') = Js.values m ++ Js.values m'.
Proof. apply map_app. Qed.

End JsMapFacts.

Lemma find_snoc {A} (f : A -> bool) (l : list A) (x : A) :
  find f (l ++ [x]) =
  match find f l with
  | Some y => Some y
  | None => if f x then Some x else None
  end.
Proof.
  induction l as [|a l IH]; simpl; [reflexivity|].
  destruct (f a); [reflexivity | exact IH].
Qed.

Lemma SFcompare_swap (x y : spec_float) :
  SFcompare y x = option_map CompOpp (SFcompare x y).
Proof.
  destruct x as [s|s| |s m e], y as [s'|s'| |s' m' e']; simpl; try reflexivity;
    try (destruct s; reflexivity); try (destruct s'; reflexivity);
    try (destruct s, s'; reflexivity).
  destruct s, s'; try reflexivity; simpl;
    rewrite (Z.compare_antisym e e'); destruct (e ?= e')%Z; simpl; try reflexivity;
    rewrite (Pos.compare_cont_antisym m m' Eq); simpl; reflexivity.
Qed.

(** [b <= a] excludes [a < b], also for infinities; a NaN gives neither. *)
Lemma leb_not_ltb (a b : float) :
  PrimFloat.leb b a = true -> PrimFloat.ltb a b = false.
Proof.
  rewrite leb_spec, ltb_spec. unfold SFleb, SFltb.
  rewrite (SFcompare_swap (Prim2SF b) (Prim2SF a)).
  destruct (SFcompare (Prim2SF b) (Prim2SF a)) as [[| |]|]; simpl; congruence.
Qed.

(** ** The store after a debit *)

Lemma updateUser_found st id user updates :
  MemStorage.getUser st id = Some user ->
  MemStorage.updateUser st id updates =
  (MemStorage.withUsers st (Js.set (MemStorage.users st) id (User.merge user updates)),
   Some (User.merge user updates)).
Proof.
  unfold MemStorage.getUser, MemStorage.updateUser. now intros ->.
Qed.

Lemma updateUser_missing st id updates :
  MemStorage.getUser st id = None -> MemStorage.updateUser st id updates = (st, None).
Proof.
  unfold MemStorage.getUser, MemStorage.updateUser. now intros ->.
Qed.


(** ** Blind dates and the wallet *)

Lemma postBlindDate_accepts now st blindDateData user :
  MemStorage.getUser st (BlindDate.user1Id blindDateData) = Some user ->
  PrimFloat.ltb (User.walletBalance user) (BlindDate.amount blindDateData) = false ->
  exists st' blindDate,
    Routes.postBlindDate now st blindDateData = (st', Routes.Json blindDate)
    /\ MemStorage.getUser st' (BlindDate.user1Id blindDateData)
       = Some (Routes.debited user (BlindDate.amount blindDateData))
    /\ MemStorage.getBlindDate st' (BlindDate.id blindDate) = Some blindDate
    /\ BlindDate.data blindDate = blindDateData
    /\ BlindDate.status blindDate = "pending"
    /\ BlindDate.user2Id blindDate = None.
Proof.
  intros Huser Hlt. unfold Routes.postBlindDate. rewrite Huser, Hlt.
  destruct (MemStorage.createBlindDate now st blindDateData) as [st1 blindDate] eqn:Hc.
  unfold MemStorage.createBlindDate in Hc. injection Hc as <- <-.
  erewrite updateUser_found by exact Huser.
  eexists; eexists; split; [reflexivity|].
  cbn. unfold MemStorage.getUser, MemStorage.getBlindDate. cbn.
  rewrite !get_set_same. repeat split; reflexivity.
Qed.

Lemma postJoinBlindDate_accepts now st blindDateId userId user blindDate :
  MemStorage.getUser st userId = Some user ->
  MemStorage.getBlindDate st blindDateId = Some blindDate ->
  PrimFloat.ltb (User.walletBalance user) (BlindDate.amount (BlindDate.data blindDate)) = false ->
  exists st',
    Routes.postJoinBlindDate now st blindDateId userId
    = (st', Routes.Json
              (Some (BlindDate.mk (BlindDate.data blindDate) (BlindDate.id blindDate)
                       (Some userId) "matched" (Some (now + MemStorage.day)%Z)
                       (BlindDate.createdAt blindDate))))
    /\ MemStorage.getUser st' userId
       = Some (Routes.debited user (BlindDate.amount (BlindDate.data blindDate))).
Proof.
  intros Huser Hdate Hlt. unfold Routes.postJoinBlindDate. rewrite Huser, Hdate, Hlt.
  unfold MemStorage.matchBlindDate, MemStorage.updateBlindDate.
  unfold MemStorage.getBlindDate in Hdate. rewrite Hdate.
  erewrite updateUser_found by exact Huser.
  eexists; split; [reflexivity|].
  cbn. unfold MemStorage.getUser. cbn. apply get_set_same.
Qed.

(** C1.  What the two handlers do, and where that leaves the claim.
    A blind-date create or join request of a stored user (for a join,
    on a stored blind date): when the wallet balance is at least the
    amount, the request is answered with the blind date (the new one,
    pending; the joined one, matched) and the user is stored with the
    balance that [balance - amount] gives in the arithmetic of the
    language's numbers, every other field as before; when the balance
    is below the amount, the request is answered with status 400 and
    the store is the store before.  That difference is not the decimal
    one: a wallet topped up with 0.30 and debited 0.10 holds
    0.19999999999999998, and a request for 0.20 is then answered
    "Insufficient wallet balance". *)
Theorem blind_date_debit_misses_decimal_amounts :
  (forall now st blindDateData user,
      MemStorage.getUser st (BlindDate.user1Id blindDateData) = Some user ->
      let balance := User.walletBalance user in
      let amount := BlindDate.amount blindDateData in
      (PrimFloat.leb amount balance = true ->
       exists st' user',
         Routes.postBlindDate now st blindDateData
         = (st', Routes.Json
                   (BlindDate.mk blindDateData (MemStorage.currentBlindDateId st) None
                      "pending" None now))
         /\ MemStorage.getUser st' (BlindDate.user1Id blindDateData) = Some user'
         /\ user' = Routes.debited user amount
         /\ User.walletBalance user' = Js.printed (balance - amount)%float)
      /\ (PrimFloat.ltb balance amount = true ->
          Routes.postBlindDate now st blindDateData
          = (st, Routes.Status 400 "Insufficient wallet balance")))
  /\ (forall now st blindDateId userId user blindDate,
        MemStorage.getUser st userId = Some user ->
        MemStorage.getBlindDate st blindDateId = Some blindDate ->
        let balance := User.walletBalance user in
        let amount := BlindDate.amount (BlindDate.data blindDate) in
        (PrimFloat.leb amount balance = true ->
         exists st' user',
           Routes.postJoinBlindDate now st blindDateId userId
           = (st', Routes.Json
                     (Some (BlindDate.mk (BlindDate.data blindDate) (BlindDate.id blindDate)
                              (Some userId) "matched" (Some (now + MemStorage.day)%Z)
                              (BlindDate.createdAt blindDate))))
           /\ MemStorage.getUser st' userId = Some user'
           /\ user' = Routes.debited user amount
           /\ User.walletBalance user' = Js.printed (balance - amount)%float)
        /\ (PrimFloat.ltb balance amount = true ->
            Routes.postJoinBlindDate now st blindDateId userId
            = (st, Routes.Status 400 "Insufficient wallet balance")))
  /\ (let topUp := Payment.mkInsert 1 0.3 "blind_date" None in
      let funded :=
        Server.run
          [(1%Z, Server.Register (InsertUser.mk "ann" "ann@example.com" None None));
           (2%Z, Server.PostPayment topUp);
           (2002%Z, Server.Settle (Payment.mk topUp 1 "pending" None 2) topUp)]
          Server.start in
      let debited :=
        Server.run
          [(3000%Z, Server.Handler (App.PostBlindDate (BlindDate.mkInsert 1 10 0 0 0.1)))]
          funded in
      let wallet (srv : Server.t) :=
        option_map User.walletBalance
          (MemStorage.getUser (Storage.core (Server.store srv)) 1) in
      wallet funded = Some 0.3%float
      /\ Js.values (MemStorage.blindDates (Storage.core (Server.store debited)))
         = [BlindDate.mk (BlindDate.mkInsert 1 10 0 0 0.1) 1 None "pending" None 3000]
      /\ wallet debited = Some 0.19999999999999998%float
      /\ PrimFloat.ltb 0.19999999999999998 0.2 = true
      /\ Routes.postBlindDate 4000 (Storage.core (Server.store debited))
           (BlindDate.mkInsert 1 10 0 0 0.2)
         = (Storage.core (Server.store debited),
            Routes.Status 400 "Insufficient wallet balance")).
Proof.
  split; [|split].
  - intros now st blindDateData user Huser balance amount. split.
    + intros Hle. apply leb_not_ltb in Hle.
      unfold Routes.postBlindDate. rewrite Huser. fold balance amount. rewrite Hle.
      destruct (MemStorage.createBlindDate now st blindDateData) as [st1 blindDate] eqn:Hc.
      unfold MemStorage.createBlindDate in Hc. injection Hc as <- <-.
      erewrite updateUser_found by exact Huser.
      eexists _, (Routes.debited user amount). split; [reflexivity|].
      split; [|split; reflexivity].
      cbn. unfold MemStorage.getUser. cbn. apply get_set_same.
    + intros Hlt. unfold Routes.postBlindDate. subst balance amount.
      now rewrite Huser, Hlt.
  - intros now st blindDateId userId user blindDate Huser Hdate balance amount. split.
    + intros Hle. apply leb_not_ltb in Hle.
      destruct (postJoinBlindDate_accepts now st blindDateId userId user blindDate
                  Huser Hdate Hle) as (st' & Hpost & Hget).
      exists st', (Routes.debited user amount). auto.
    + intros Hlt. unfold Routes.postJoinBlindDate. subst balance amount.
      now rewrite Huser, Hdate, Hlt.
  - vm_compute. repeat split.
Qed.

(** ** Nearby users *)

Lemma nearby_spec lat lng radius excludeIds user :
  MemStorage.nearby lat lng radius excludeIds user = true <->
  ~ In (User.id user) excludeIds
  /\ exists userLat userLng,
       User.latitude user = Some userLat
       /\ User.longitude user = Some userLng
       /\ PrimFloat.leb
            (PrimFloat.sqrt ((lat - userLat) * (lat - userLat)
                             + (lng - userLng) * (lng - userLng)) * 111)%float
            radius = true.
Proof.
  unfold MemStorage.nearby, MemStorage.distance.
  destruct (existsb (Z.eqb (User.id user)) excludeIds) eqn:Hex.
  - split; [discriminate|]. intros [Hnot _]. exfalso. apply Hnot.
    apply existsb_exists in Hex. destruct Hex as (x & Hin & Heq).
    apply Z.eqb_eq in Heq. now subst.
  - assert (Hnot : ~ In (User.id user) excludeIds).
    { intros Hin. apply Bool.not_true_iff_false in Hex. apply Hex.
      apply existsb_exists. exists (User.id user). split; [exact Hin|apply Z.eqb_refl]. }
    destruct (User.latitude user) as [userLat|], (User.longitude user) as [userLng|].
    + split.
      * intros H. split; [exact Hnot|]. now exists userLat, userLng.
      * intros [_ (a & b & Ha & Hb & H)]. injection Ha as <-. injection Hb as <-. exact H.
    + split; [discriminate|]. intros [_ (a & b & _ & Hb & _)]. discriminate.
    + split; [discriminate|]. intros [_ (a & b & Ha & _)]. discriminate.
    + split; [discriminate|]. intros [_ (a & b & Ha & _)]. discriminate.
Qed.

(** C8.  [getUsersNearby] returns the stored users that are not
    excluded, have both coordinates, and for which
    [sqrt((lat - userLat)^2 + (lng - userLng)^2) * 111 <= radius] in the
    arithmetic of the language's numbers; for the query at (0, 0) with
    radius 10, a user at (0.05, 0) is returned and a user at (1, 0) is
    not. *)
Theorem getUsersNearby_planar_distance :
  (forall st lat lng radius excludeIds user,
      In user (MemStorage.getUsersNearby st lat lng radius excludeIds) <->
      In user (Js.values (MemStorage.users st))
      /\ ~ In (User.id user) excludeIds
      /\ exists userLat userLng,
           User.latitude user = Some userLat
           /\ User.longitude user = Some userLng
           /\ PrimFloat.leb
                (PrimFloat.sqrt ((lat - userLat) * (lat - userLat)
                                 + (lng - userLng) * (lng - userLng)) * 111)%float
                radius = true)
  /\ (forall st user,
        In user (Js.values (MemStorage.users st)) ->
        User.latitude user = Some 0.05%float ->
        User.longitude user = Some 0%float ->
        In user (MemStorage.getUsersNearby st 0 0 10 []))
  /\ (forall st user,
        User.latitude user = Some 1%float ->
        User.longitude user = Some 0%float ->
        ~ In user (MemStorage.getUsersNearby st 0 0 10 []))
  /\ MemStorage.getUsersNearby Sample.store 0 0 10 [] = [Sample.ann; Sample.bob].
Proof.
  assert (Hiff : forall st lat lng radius excludeIds user,
      In user (MemStorage.getUsersNearby st lat lng radius excludeIds) <->
      In user (Js.values (MemStorage.users st))
      /\ ~ In (User.id user) excludeIds
      /\ exists userLat userLng,
           User.latitude user = Some userLat
           /\ User.longitude user = Some userLng
           /\ PrimFloat.leb
                (PrimFloat.sqrt ((lat - userLat) * (lat - userLat)
                                 + (lng - userLng) * (lng - userLng)) * 111)%float
                radius = true).
  { intros. unfold MemStorage.getUsersNearby. rewrite filter_In, nearby_spec. tauto. }
  split; [exact Hiff|]. split; [|split].
  - intros st user Hin Hlat Hlng. apply Hiff. split; [exact Hin|]. split; [intros []|].
    exists 0.05%float, 0%float.
    split; [exact Hlat|]. split; [exact Hlng|]. vm_compute. reflexivity.
  - intros st user Hlat Hlng Hin. apply Hiff in Hin.
    destruct Hin as (_ & _ & a & b & Ha & Hb & Hle).
    rewrite Hlat in Ha. rewrite Hlng in Hb. injection Ha as <-. injection Hb as <-.
    vm_compute in Hle. discriminate.
  - vm_compute. reflexivity.
Qed.

(** C10.  Every user that [getUsersNearby] returns has a latitude and a
    longitude and an id outside [excludeIds]; a user without one of the
    coordinates, or with an excluded id, fails the filter whatever the
    centre and the radius are. *)
Theorem getUsersNearby_skips_unlocated_and_excluded :
  (forall st lat lng radius excludeIds,
      Forall (fun user =>
                User.latitude user <> None
                /\ User.longitude user <> None
                /\ ~ In (User.id user) excludeIds)
             (MemStorage.getUsersNearby st lat lng radius excludeIds))
  /\ (forall user excludeIds,
        User.latitude user = None \/ User.longitude user = None
        \/ In (User.id user) excludeIds ->
        forall st lat lng radius,
          MemStorage.nearby lat lng radius excludeIds user = false
          /\ ~ In user (MemStorage.getUsersNearby st lat lng radius excludeIds)).
Proof.
  split.
  - intros. apply Forall_forall. intros user Hin.
    apply filter_In in Hin. destruct Hin as [_ Hnear].
    apply nearby_spec in Hnear. destruct Hnear as (Hnot & a & b & Ha & Hb & _).
    rewrite Ha, Hb. repeat split; congruence.
  - intros user excludeIds Hbad st lat lng radius.
    assert (Hfalse : MemStorage.nearby lat lng radius excludeIds user = false).
    { destruct (MemStorage.nearby lat lng radius excludeIds user) eqn:Hnear; [|reflexivity].
      apply nearby_spec in Hnear. destruct Hnear as (Hnot & a & b & Ha & Hb & _).
      destruct Hbad as [H|[H|H]]; [congruence | congruence | contradiction]. }
    split; [exact Hfalse|].
    intros Hin. apply filter_In in Hin. destruct Hin as [_ Hnear]. congruence.
Qed.

Lemma getUsersNearby_skips_unlocated_and_excluded_witness :
  MemStorage.getUsersNearby Sample.store 0 0 PrimFloat.infinity [2%Z]
  = [Sample.ann; Sample.cat]
  /\ ~ In Sample.dan (MemStorage.getUsersNearby Sample.store 0 0 PrimFloat.infinity [2%Z])
  /\ ~ In Sample.bob (MemStorage.getUsersNearby Sample.store 0 0 PrimFloat.infinity [2%Z]).
Proof.
  destruct getUsersNearby_skips_unlocated_and_excluded as [_ Hskip].
  split; [vm_compute; reflexivity|]. split.
  - apply (Hskip Sample.dan [2%Z]). left. reflexivity.
  - apply (Hskip Sample.bob [2%Z]). right. right. left. reflexivity.
Defined.

(** ** Swipes and matches *)

Section SwipeFacts.

Implicit Types (st : MemStorage.t) (d : Swipe.insert) (a b now : Z).

Lemma fresh_keys {V : Type} (next : Z) (l : Js.jsmap V) :
  Forall (fun kv => (fst kv < next)%Z) l -> Forall (fun kv => fst kv <> next) l.
Proof.
  intros H. eapply Forall_impl; [|exact H]. cbn. intros kv Hlt. lia.
Qed.

(** With fresh ids the recorded swipe goes to the end of the table. *)
Lemma createSwipe_swipes now st d :
  App.freshIds st ->
  MemStorage.swipes (fst (MemStorage.createSwipe now st d))
  = MemStorage.swipes st
    ++ [(MemStorage.currentSwipeId st, Swipe.mk d (MemStorage.currentSwipeId st) now)].
Proof.
  intros [Hs _]. cbn. apply set_fresh. now apply fresh_keys.
Qed.

Lemma getSwipe_createSwipe now st d a b :
  App.freshIds st ->
  MemStorage.getSwipe (fst (MemStorage.createSwipe now st d)) a b
  = match MemStorage.getSwipe st a b with
    | Some swipe => Some swipe
    | None =>
        if Z.eqb (Swipe.swiperId d) a && Z.eqb (Swipe.swipedId d) b
        then Some (Swipe.mk d (MemStorage.currentSwipeId st) now)
        else None
    end.
Proof.
  intros Hfresh. unfold MemStorage.getSwipe.
  rewrite (createSwipe_swipes now st d Hfresh), values_app. cbn [Js.values map].
  rewrite find_snoc. reflexivity.
Qed.

Lemma liked_createSwipe now st d a b :
  App.freshIds st ->
  MemStorage.getSwipe st (Swipe.swiperId d) (Swipe.swipedId d) = None ->
  App.liked (fst (MemStorage.createSwipe now st d)) a b
  = App.liked st a b
    || (Z.eqb (Swipe.swiperId d) a && Z.eqb (Swipe.swipedId d) b
        && String.eqb (Swipe.action d) "like").
Proof.
  intros Hfresh Hnone. unfold App.liked.
  rewrite (getSwipe_createSwipe now st d a b Hfresh).
  destruct (Z.eqb_spec (Swipe.swiperId d) a) as [Ha|Ha];
    destruct (Z.eqb_spec (Swipe.swipedId d) b) as [Hb|Hb]; cbn [andb].
  - subst a b. rewrite Hnone. reflexivity.
  - destruct (MemStorage.getSwipe st a b); [now rewrite orb_false_r | reflexivity].
  - destruct (MemStorage.getSwipe st a b); [now rewrite orb_false_r | reflexivity].
  - destruct (MemStorage.getSwipe st a b); [now rewrite orb_false_r | reflexivity].
Qed.

(** The store after an accepted swipe, field by field. *)
Lemma postSwipe_accepted now st d :
  App.freshIds st ->
  MemStorage.getSwipe st (Swipe.swiperId d) (Swipe.swipedId d) = None ->
  let st1 := fst (MemStorage.createSwipe now st d) in
  let swipe := Swipe.mk d (MemStorage.currentSwipeId st) now in
  let m :=
    Match.mk (Match.mkInsert (Swipe.swiperId d) (Swipe.swipedId d))
             (MemStorage.currentMatchId st) true now in
  let both :=
    String.eqb (Swipe.action d) "like"
    && App.liked st1 (Swipe.swipedId d) (Swipe.swiperId d) in
  exists st',
    Routes.postSwipe now st d
    = (st', Routes.Json (swipe, if both then Some m else None))
    /\ MemStorage.swipes st' = MemStorage.swipes st1
    /\ MemStorage.currentSwipeId st' = (MemStorage.currentSwipeId st + 1)%Z
    /\ MemStorage.matches st'
       = (if both
          then MemStorage.matches st ++ [(MemStorage.currentMatchId st, m)]
          else MemStorage.matches st)
    /\ MemStorage.currentMatchId st'
       = (if both then MemStorage.currentMatchId st + 1 else MemStorage.currentMatchId st)%Z.
Proof.
  intros Hfresh Hnone st1 swipe m both.
  unfold Routes.postSwipe. rewrite Hnone.
  change (MemStorage.createSwipe now st d) with (st1, swipe).
  subst both. unfold App.liked.
  destruct (String.eqb (Swipe.action d) "like"); cbn [andb].
  - destruct (MemStorage.getSwipe st1 (Swipe.swipedId d) (Swipe.swiperId d)) as [r|].
    + destruct (String.eqb (Swipe.action (Swipe.data r)) "like").
      * eexists. split; [reflexivity|]. cbn.
        repeat split. apply set_fresh. apply fresh_keys, Hfresh.
      * eexists. split; [reflexivity|]. cbn. repeat split.
    + eexists. split; [reflexivity|]. cbn. repeat split.
  - eexists. split; [reflexivity|]. cbn. repeat split.
Qed.

Lemma postSwipe_rejected now st d :
  MemStorage.getSwipe st (Swipe.swiperId d) (Swipe.swipedId d) <> None ->
  Routes.postSwipe now st d = (st, Routes.Status 400 "Already swiped").
Proof.
  intros H. unfold Routes.postSwipe.
  destruct (MemStorage.getSwipe st (Swipe.swiperId d) (Swipe.swipedId d));
    [reflexivity | contradiction].
Qed.

Lemma getSwipe_swipes st st' a b :
  MemStorage.swipes st' = MemStorage.swipes st ->
  MemStorage.getSwipe st' a b = MemStorage.getSwipe st a b.
Proof. unfold MemStorage.getSwipe. now intros ->. Qed.

Lemma liked_swipes st st' a b :
  MemStorage.swipes st' = MemStorage.swipes st -> App.liked st' a b = App.liked st a b.
Proof. intros H. unfold App.liked. now rewrite (getSwipe_swipes st st' a b H). Qed.

Lemma pairMatches_matches st st' a b :
  MemStorage.matches st' = MemStorage.matches st ->
  App.pairMatches st' a b = App.pairMatches st a b.
Proof. unfold App.pairMatches. now intros ->. Qed.

Lemma sameSwipes_refl st : App.sameSwipes st st.
Proof. repeat split. Qed.

Lemma sameSwipes_updateUser st id updates :
  App.sameSwipes st (fst (MemStorage.updateUser st id updates)).
Proof.
  unfold MemStorage.updateUser. destruct (Js.get (MemStorage.users st) id); repeat split.
Qed.

Lemma sameSwipes_trans st1 st2 st3 :
  App.sameSwipes st1 st2 -> App.sameSwipes st2 st3 -> App.sameSwipes st1 st3.
Proof.
  intros (A1 & A2 & A3 & A4) (B1 & B2 & B3 & B4). repeat split; congruence.
Qed.

Lemma sameSwipes_postMessage now st rs messageData :
  App.sameSwipes st (fst (fst (Routes.postMessage now st rs messageData))).
Proof.
  unfold Routes.postMessage.
  destruct (Routes.containsPhoneNumber rs (Message.content messageData)) as [[|] rs'].
  - destruct (MemStorage.createViolation now st _) as [st1 v] eqn:Hv.
    destruct (MemStorage.updateUser st1 _ _) as [st2 u] eqn:Hu. cbn [fst].
    apply (sameSwipes_trans st st1 st2).
    + unfold MemStorage.createViolation in Hv. injection Hv as <- _. repeat split.
    + replace st2 with (fst (MemStorage.updateUser st1 (Message.senderId messageData)
                               (User.mkPartial None None (Some (Some (now + MemStorage.day)%Z)))))
        by now rewrite Hu.
      apply sameSwipes_updateUser.
  - cbn. repeat split.
Qed.

Lemma sameSwipes_postBlindDate now st blindDateData :
  App.sameSwipes st (fst (Routes.postBlindDate now st blindDateData)).
Proof.
  unfold Routes.postBlindDate.
  destruct (MemStorage.getUser st (BlindDate.user1Id blindDateData)) as [user|];
    [|apply sameSwipes_refl].
  destruct (PrimFloat.ltb _ _); [apply sameSwipes_refl|].
  destruct (MemStorage.createBlindDate now st blindDateData) as [st1 bd] eqn:Hc.
  destruct (MemStorage.updateUser st1 _ _) as [st2 u] eqn:Hu. cbn [fst].
  apply (sameSwipes_trans st st1 st2).
  - unfold MemStorage.createBlindDate in Hc. injection Hc as <- _. repeat split.
  - replace st2 with (fst (MemStorage.updateUser st1 (BlindDate.user1Id blindDateData)
                             (Routes.debit user (BlindDate.amount blindDateData))))
      by now rewrite Hu.
    apply sameSwipes_updateUser.
Qed.

Lemma sameSwipes_postJoinBlindDate now st blindDateId userId :
  App.sameSwipes st (fst (Routes.postJoinBlindDate now st blindDateId userId)).
Proof.
  unfold Routes.postJoinBlindDate.
  destruct (MemStorage.getUser st userId) as [user|]; [|apply sameSwipes_refl].
  destruct (MemStorage.getBlindDate st blindDateId) as [bd|] eqn:Hbd; [|apply sameSwipes_refl].
  destruct (PrimFloat.ltb _ _); [apply sameSwipes_refl|].
  destruct (MemStorage.matchBlindDate now st blindDateId userId) as [st1 joined] eqn:Hm.
  destruct (MemStorage.updateUser st1 _ _) as [st2 u] eqn:Hu. cbn [fst].
  apply (sameSwipes_trans st st1 st2).
  - unfold MemStorage.matchBlindDate, MemStorage.updateBlindDate in Hm.
    destruct (Js.get (MemStorage.blindDates st) blindDateId); injection Hm as <- _;
      repeat split.
  - replace st2 with (fst (MemStorage.updateUser st1 userId
                             (Routes.debit user (BlindDate.amount (BlindDate.data bd)))))
      by now rewrite Hu.
    apply sameSwipes_updateUser.
Qed.

Lemma sameSwipes_fresh st st' :
  App.sameSwipes st st' -> App.freshIds st -> App.freshIds st'.
Proof.
  intros (H1 & H2 & H3 & H4) [Hs Hm]. unfold App.freshIds.
  rewrite H1, H2, H3, H4. now split.
Qed.

Lemma sameSwipes_invariant st st' :
  App.sameSwipes st st' -> App.oneMatchPerMutualLike st -> App.oneMatchPerMutualLike st'.
Proof.
  intros (H1 & H2 & _) Hinv a b.
  rewrite (pairMatches_matches st st' a b H2), !(liked_swipes st st' _ _ H1). apply Hinv.
Qed.

Lemma Forall_snoc_lt {V : Type} (l : Js.jsmap V) (next : Z) (v : V) :
  Forall (fun kv => (fst kv < next)%Z) l ->
  Forall (fun kv => (fst kv < next + 1)%Z) (l ++ [(next, v)]).
Proof.
  intros H. apply Forall_app. split.
  - eapply Forall_impl; [|exact H]. cbn. intros kv Hlt. lia.
  - constructor; [cbn; lia | constructor].
Qed.

Lemma postSwipe_fresh now st d :
  App.freshIds st -> App.freshIds (fst (Routes.postSwipe now st d)).
Proof.
  intros Hfresh.
  destruct (MemStorage.getSwipe st (Swipe.swiperId d) (Swipe.swipedId d)) as [s|] eqn:Hs.
  - rewrite postSwipe_rejected by congruence. exact Hfresh.
  - destruct (postSwipe_accepted now st d Hfresh Hs) as (st' & -> & Hsw & Hsid & Hm & Hmid).
    cbn [fst]. destruct Hfresh as [Fs Fm]. unfold App.freshIds.
    rewrite Hsw, Hsid, Hm, Hmid, (createSwipe_swipes now st d (conj Fs Fm)).
    split; [now apply Forall_snoc_lt|].
    destruct (_ && _); [now apply Forall_snoc_lt | exact Fm].
Qed.

(** The count of the pair's matches after a swipe of [x] on [y], in
    terms of the likes [L] stored before it. *)
Lemma pair_count_step (L : Z -> Z -> bool) (x y a b : Z) (like : bool) :
  L x y = false ->
  (if L a b && L b a then 1 else 0)
  + (if (like && (L y x || (Z.eqb x y && Z.eqb y x && like)))
        && ((Z.eqb x a && Z.eqb y b) || (Z.eqb x b && Z.eqb y a))
     then 1 else 0)
  = if (L a b || (Z.eqb x a && Z.eqb y b && like))
       && (L b a || (Z.eqb x b && Z.eqb y a && like))
    then 1 else 0.
Proof.
  intros Hxy.
  destruct (Z.eqb_spec x a); destruct (Z.eqb_spec y b);
    destruct (Z.eqb_spec x b); destruct (Z.eqb_spec y a);
    destruct (Z.eqb_spec x y); destruct (Z.eqb_spec y x);
    subst; try congruence; destruct like; cbn;
    repeat match goal with
           | |- context [L ?u ?v] => destruct (L u v) eqn:?
           end;
    cbn; congruence.
Qed.

Lemma postSwipe_invariant now st d :
  App.freshIds st ->
  App.oneMatchPerMutualLike st ->
  App.oneMatchPerMutualLike (fst (Routes.postSwipe now st d)).
Proof.
  intros Hfresh Hinv.
  destruct (MemStorage.getSwipe st (Swipe.swiperId d) (Swipe.swipedId d)) as [s|] eqn:Hs.
  - rewrite postSwipe_rejected by congruence. exact Hinv.
  - destruct (postSwipe_accepted now st d Hfresh Hs) as (st' & -> & Hsw & _ & Hm & _).
    cbn [fst]. intros a b.
    assert (Hxy : App.liked st (Swipe.swiperId d) (Swipe.swipedId d) = false)
      by (unfold App.liked; now rewrite Hs).
    rewrite !(liked_swipes _ st' _ _ Hsw).
    rewrite !(liked_createSwipe now st d _ _ Hfresh Hs) in *.
    rewrite <- (pair_count_step (App.liked st) _ _ a b _ Hxy), <- (Hinv a b).
    unfold App.pairMatches. rewrite Hm.
    destruct (String.eqb (Swipe.action d) "like"
              && (App.liked st (Swipe.swipedId d) (Swipe.swiperId d)
                  || (Z.eqb (Swipe.swiperId d) (Swipe.swipedId d)
                      && Z.eqb (Swipe.swipedId d) (Swipe.swiperId d)
                      && String.eqb (Swipe.action d) "like"))).
    + rewrite values_app, filter_app, length_app. cbn [andb]. f_equal.
      cbn. unfold App.joins. cbn.
      destruct ((_ && _) || (_ && _)); reflexivity.
    + cbn [andb]. now rewrite Nat.add_0_r.
Qed.

End SwipeFacts.

(** ** Histories *)

Lemma handle_sameSwipes_or_swipe app now request :
  (exists d, request = App.PostSwipe d)
  \/ App.sameSwipes (App.storage app) (App.storage (App.handle app (now, request))).
Proof.
  destruct request as [d|messageData|blindDateData|blindDateId userId].
  - left. now exists d.
  - right. cbn.
    pose proof (sameSwipes_postMessage now (App.storage app) (App.regexState app) messageData)
      as H.
    destruct (Routes.postMessage now (App.storage app) (App.regexState app) messageData)
      as [[st rs] r]. exact H.
  - right. apply sameSwipes_postBlindDate.
  - right. apply sameSwipes_postJoinBlindDate.
Qed.

Lemma handle_invariants app timed :
  App.freshIds (App.storage app) ->
  App.oneMatchPerMutualLike (App.storage app) ->
  App.freshIds (App.storage (App.handle app timed))
  /\ App.oneMatchPerMutualLike (App.storage (App.handle app timed)).
Proof.
  intros Hfresh Hinv. destruct timed as [now request].
  destruct (handle_sameSwipes_or_swipe app now request) as [[d ->]|Hsame].
  - cbn. split; [now apply postSwipe_fresh | now apply postSwipe_invariant].
  - split; [now apply (sameSwipes_fresh _ _ Hsame) | now apply (sameSwipes_invariant _ _ Hsame)].
Qed.

Lemma run_invariants history app :
  App.freshIds (App.storage app) ->
  App.oneMatchPerMutualLike (App.storage app) ->
  App.freshIds (App.storage (App.run history app))
  /\ App.oneMatchPerMutualLike (App.storage (App.run history app)).
Proof.
  revert app. induction history as [|timed history IH]; intros app Hfresh Hinv.
  - now split.
  - cbn. destruct (handle_invariants app timed Hfresh Hinv) as [Hf Hi].
    now apply IH.
Qed.

Lemma unswiped_invariants st :
  App.unswiped st -> App.freshIds st /\ App.oneMatchPerMutualLike st.
Proof.
  intros [Hs Hm]. split.
  - unfold App.freshIds. rewrite Hs, Hm. split; constructor.
  - intros a b. unfold App.pairMatches, App.liked, MemStorage.getSwipe.
    rewrite Hs, Hm. reflexivity.
Qed.

(** A stored like stays: no handler removes or replaces a swipe. *)
Lemma handle_keeps_like app timed a b :
  App.freshIds (App.storage app) ->
  App.liked (App.storage app) a b = true ->
  App.liked (App.storage (App.handle app timed)) a b = true.
Proof.
  intros Hfresh Hlike. destruct timed as [now request].
  destruct (handle_sameSwipes_or_swipe app now request) as [[d ->]|Hsame].
  - cbn.
    destruct (MemStorage.getSwipe (App.storage app) (Swipe.swiperId d) (Swipe.swipedId d))
      as [s|] eqn:Hs.
    + rewrite postSwipe_rejected by congruence. exact Hlike.
    + destruct (postSwipe_accepted now (App.storage app) d Hfresh Hs)
        as (st' & -> & Hsw & _).
      cbn [fst]. rewrite (liked_swipes _ st' _ _ Hsw).
      rewrite (liked_createSwipe now _ d _ _ Hfresh Hs), Hlike. reflexivity.
  - destruct Hsame as [Hsw _]. now rewrite (liked_swipes _ _ _ _ Hsw).
Qed.

Lemma run_keeps_like history app a b :
  App.freshIds (App.storage app) ->
  App.oneMatchPerMutualLike (App.storage app) ->
  App.liked (App.storage app) a b = true ->
  App.liked (App.storage (App.run history app)) a b = true.
Proof.
  revert app. induction history as [|timed history IH]; intros app Hfresh Hinv Hlike.
  - exact Hlike.
  - cbn. destruct (handle_invariants app timed Hfresh Hinv) as [Hf Hi].
    apply IH; [exact Hf | exact Hi | now apply handle_keeps_like].
Qed.

(** An accepted like is stored. *)
Lemma accepted_like_is_stored app now d :
  App.freshIds (App.storage app) ->
  MemStorage.getSwipe (App.storage app) (Swipe.swiperId d) (Swipe.swipedId d) = None ->
  Swipe.action d = "like" ->
  App.liked (App.storage (App.handle app (now, App.PostSwipe d)))
            (Swipe.swiperId d) (Swipe.swipedId d) = true.
Proof.
  intros Hfresh Hs Hlike. cbn.
  destruct (postSwipe_accepted now (App.storage app) d Hfresh Hs) as (st' & -> & Hsw & _).
  cbn [fst]. rewrite (liked_swipes _ st' _ _ Hsw).
  rewrite (liked_createSwipe now _ d _ _ Hfresh Hs), Hlike, !Z.eqb_refl.
  now rewrite orb_true_r.
Qed.

Lemma run_app h1 h2 app : App.run (h1 ++ h2) app = App.run h2 (App.run h1 app).
Proof. apply fold_left_app. Qed.

(** C3.  From a store in which nobody has swiped, along any history of
    requests: (1) when a like of [a] on [b] is accepted at some point
    and a like of [b] on [a] is accepted at a later point, the final
    store holds exactly one match of the pair, whatever [a] and [b] are
    and whichever of the two comes first; (2) at every point the pair
    has one match when both likes are stored and none otherwise; (3) a
    swipe on an ordered pair that already has a stored swipe is answered
    with "Already swiped" and leaves the store as it is, so it creates
    no swipe and no match. *)
Theorem mutual_like_creates_one_match :
  forall app, App.unswiped (App.storage app) ->
  (forall h1 t1 h2 t2 h3 a b,
      let first := App.run h1 app in
      let second := App.run (h1 ++ (t1, App.PostSwipe (Swipe.mkInsert a b "like")) :: h2) app in
      let final :=
        App.run (h1 ++ (t1, App.PostSwipe (Swipe.mkInsert a b "like")) :: h2
                    ++ (t2, App.PostSwipe (Swipe.mkInsert b a "like")) :: h3) app in
      MemStorage.getSwipe (App.storage first) a b = None ->
      MemStorage.getSwipe (App.storage second) b a = None ->
      List.length (App.pairMatches (App.storage final) a b) = 1
      /\ List.length (App.pairMatches (App.storage final) b a) = 1)
  /\ (forall history a b,
        let st := App.storage (App.run history app) in
        List.length (App.pairMatches st a b)
        = if App.liked st a b && App.liked st b a then 1 else 0)
  /\ (forall history now d,
        let st := App.storage (App.run history app) in
        MemStorage.getSwipe st (Swipe.swiperId d) (Swipe.swipedId d) <> None ->
        Routes.postSwipe now st d = (st, Routes.Status 400 "Already swiped")).
Proof.
  intros app Hun. destruct (unswiped_invariants _ Hun) as [Hfresh Hinv].
  split; [|split].
  - intros h1 t1 h2 t2 h3 a b first second final Hab Hba.
    set (likeAB := (t1, App.PostSwipe (Swipe.mkInsert a b "like"))) in *.
    set (likeBA := (t2, App.PostSwipe (Swipe.mkInsert b a "like"))) in *.
    destruct (run_invariants h1 app Hfresh Hinv) as [Hf1 Hi1]. fold first in Hf1, Hi1.
    assert (Hsecond : second = App.run h2 (App.handle first likeAB)).
    { subst second first. now rewrite run_app. }
    assert (Hfinal : final = App.run h3 (App.handle second likeBA)).
    { subst final second.
      change (h1 ++ likeAB :: h2 ++ likeBA :: h3)
        with (h1 ++ (likeAB :: h2) ++ likeBA :: h3).
      now rewrite app_assoc, (run_app (h1 ++ likeAB :: h2) (likeBA :: h3)). }
    destruct (handle_invariants first likeAB Hf1 Hi1) as [Hf1' Hi1'].
    destruct (run_invariants h2 _ Hf1' Hi1') as [Hf2 Hi2]. rewrite <- Hsecond in Hf2, Hi2.
    destruct (handle_invariants second likeBA Hf2 Hi2) as [Hf2' Hi2'].
    destruct (run_invariants h3 _ Hf2' Hi2') as [Hf3 Hi3]. rewrite <- Hfinal in Hf3, Hi3.
    assert (Lab : App.liked (App.storage final) a b = true).
    { rewrite Hfinal. apply run_keeps_like; [exact Hf2' | exact Hi2' |].
      apply handle_keeps_like; [exact Hf2|].
      rewrite Hsecond. apply run_keeps_like; [exact Hf1' | exact Hi1' |].
      now apply (accepted_like_is_stored first t1 (Swipe.mkInsert a b "like")). }
    assert (Lba : App.liked (App.storage final) b a = true).
    { rewrite Hfinal. apply run_keeps_like; [exact Hf2' | exact Hi2' |].
      now apply (accepted_like_is_stored second t2 (Swipe.mkInsert b a "like")). }
    rewrite (Hi3 a b), (Hi3 b a), Lab, Lba. split; reflexivity.
  - intros history a b st. now apply (run_invariants history app Hfresh Hinv).
  - intros history now d st Hdup. now apply postSwipe_rejected.
Qed.

Lemma mutual_like_creates_one_match_witness :
  let likes := [(10%Z, App.PostSwipe (Sample.like 1 2));
                (20%Z, App.PostMessage (Sample.message 1 "hi"));
                (30%Z, App.PostSwipe (Sample.like 2 1))] in
  List.length (App.pairMatches (App.storage (App.run likes Sample.app)) 1 2) = 1
  /\ List.length
       (App.pairMatches
          (App.storage (App.run (likes ++ [(40%Z, App.PostSwipe (Sample.like 1 3))]) Sample.app))
          1 3) = 0
  /\ Routes.postSwipe 50 (App.storage (App.run likes Sample.app)) (Sample.superLike 2 1)
     = (App.storage (App.run likes Sample.app), Routes.Status 400 "Already swiped").
Proof.
  destruct (mutual_like_creates_one_match Sample.app (conj eq_refl eq_refl))
    as (Hone & Hcount & Hdup).
  split; [|split].
  - exact (proj1 (Hone [] 10%Z [(20%Z, App.PostMessage (Sample.message 1 "hi"))] 30%Z []
                    1%Z 2%Z eq_refl eq_refl)).
  - rewrite Hcount. vm_compute. reflexivity.
  - apply Hdup. vm_compute. discriminate.
Defined.

(** ** Which swipes make a match *)

(** C4, as the code has it.  A swipe on a pair without a stored swipe is
    recorded and answered.  A match is created exactly when the action
    is "like" and the store with the new swipe holds a like in the
    reverse direction: then the answer carries the match of the pair
    with the next match id and the table of matches has it under that
    id, and otherwise the answer carries no match and the table of
    matches is the one of before.  For any other action ("super_like",
    "pass") no reverse swipe is looked at. *)
Theorem match_only_for_like_on_like :
  forall now st d,
    MemStorage.getSwipe st (Swipe.swiperId d) (Swipe.swipedId d) = None ->
    let swipe := Swipe.mk d (MemStorage.currentSwipeId st) now in
    let m :=
      Match.mk (Match.mkInsert (Swipe.swiperId d) (Swipe.swipedId d))
               (MemStorage.currentMatchId st) true now in
    let both :=
      String.eqb (Swipe.action d) "like"
      && App.liked (fst (MemStorage.createSwipe now st d))
                   (Swipe.swipedId d) (Swipe.swiperId d) in
    exists st' created,
      Routes.postSwipe now st d = (st', Routes.Json (swipe, created))
      /\ (created <> None <->
          Swipe.action d = "like"
          /\ App.liked (fst (MemStorage.createSwipe now st d))
                       (Swipe.swipedId d) (Swipe.swiperId d) = true)
      /\ (Swipe.action d <> "like" ->
          created = None /\ MemStorage.matches st' = MemStorage.matches st)
      /\ created = (if both then Some m else None)
      /\ MemStorage.matches st'
         = (if both then Js.set (MemStorage.matches st) (MemStorage.currentMatchId st) m
            else MemStorage.matches st)
      /\ MemStorage.swipes st'
         = Js.set (MemStorage.swipes st) (MemStorage.currentSwipeId st) swipe.
Proof.
  intros now st d Hs swipe m both. subst both.
  set (st1 := fst (MemStorage.createSwipe now st d)).
  unfold Routes.postSwipe. rewrite Hs.
  change (MemStorage.createSwipe now st d) with (st1, swipe).
  unfold App.liked.
  destruct (String.eqb_spec (Swipe.action d) "like") as [Hlike|Hlike]; cbn [andb].
  - destruct (MemStorage.getSwipe st1 (Swipe.swipedId d) (Swipe.swiperId d)) as [r|].
    + destruct (String.eqb (Swipe.action (Swipe.data r)) "like").
      * eexists _, (Some _). split; [reflexivity|]. split; [|split; [contradiction|]].
        -- split; [intros _; split; [exact Hlike | reflexivity] | discriminate].
        -- split; [reflexivity|]. split; reflexivity.
      * eexists _, None. split; [reflexivity|]. split; [|split; [contradiction|]].
        -- split; [congruence | intros [_ H]; discriminate].
        -- split; [reflexivity|]. split; reflexivity.
    + eexists _, None. split; [reflexivity|]. split; [|split; [contradiction|]].
      * split; [congruence | intros [_ H]; discriminate].
      * split; [reflexivity|]. split; reflexivity.
  - eexists _, None. split; [reflexivity|]. split; [|split].
    + split; [congruence | intros [H _]; contradiction].
    + intros _. split; reflexivity.
    + split; [reflexivity|]. split; reflexivity.
Qed.

Lemma match_only_for_like_on_like_witness :
  let st := App.storage (App.run [(10%Z, App.PostSwipe (Sample.like 1 2))] Sample.app) in
  (exists st' m, Routes.postSwipe 20 st (Sample.like 2 1)
                 = (st', Routes.Json (Swipe.mk (Sample.like 2 1) 2 20, Some m))
                 /\ Js.values (MemStorage.matches st') = [m])
  /\ (exists st', Routes.postSwipe 20 st (Swipe.mkInsert 2 1 "pass")
                  = (st', Routes.Json (Swipe.mk (Swipe.mkInsert 2 1 "pass") 2 20, None))
                  /\ MemStorage.matches st' = []).
Proof.
  cbv zeta. split.
  - destruct (match_only_for_like_on_like 20%Z
                (App.storage (App.run [(10%Z, App.PostSwipe (Sample.like 1 2))] Sample.app))
                (Sample.like 2 1) eq_refl)
      as (st' & created & Hpost & _ & _ & Hcreated & Hmatches & _).
    exists st', (Match.mk (Match.mkInsert 2 1) 1 true 20).
    rewrite Hpost, Hcreated, Hmatches. split; reflexivity.
  - destruct (match_only_for_like_on_like 20%Z
                (App.storage (App.run [(10%Z, App.PostSwipe (Sample.like 1 2))] Sample.app))
                (Swipe.mkInsert 2 1 "pass") eq_refl)
      as (st' & created & Hpost & _ & Hother & _).
    destruct Hother as [-> Hm]; [discriminate|].
    exists st'. split; [exact Hpost | exact Hm].
Defined.

(** C4, as the claim states it, fails: ann has a like on bob, bob then
    swipes "super_like" on ann, and no match is created. *)
Lemma super_like_on_a_like_creates_no_match :
  let st := App.storage (App.run [(10%Z, App.PostSwipe (Sample.like 1 2))] Sample.app) in
  App.liked st 1 2 = true
  /\ snd (Routes.postSwipe 20 st (Sample.superLike 2 1))
     = Routes.Json (Swipe.mk (Sample.superLike 2 1) 2 20, None)
  /\ MemStorage.matches (fst (Routes.postSwipe 20 st (Sample.superLike 2 1))) = [].
Proof. vm_compute. repeat split. Qed.

(** ** Joining a blind date *)

(** C2 at two inputs.  Blind date 1 of ann is matched with bob; cat
    joins it all the same: the join is answered with the blind date,
    now with cat as second user, and cat is debited.  And ann joins her
    own pending blind date. *)
Theorem join_checks_neither_status_nor_requester :
  (option_map BlindDate.status (MemStorage.getBlindDate Sample.matchedStore 1)
   = Some "matched"
   /\ option_map BlindDate.user2Id (MemStorage.getBlindDate Sample.matchedStore 1)
      = Some (Some 2%Z)
   /\ snd (Routes.postJoinBlindDate 3000 Sample.matchedStore 1 3)
      = Routes.Json
          (Some (BlindDate.mk (Sample.dinner 1 50%float) 1 (Some 3%Z) "matched"
                   (Some 86403000%Z) 1000))
   /\ option_map User.walletBalance
        (MemStorage.getUser (fst (Routes.postJoinBlindDate 3000 Sample.matchedStore 1 3)) 3)
      = Some 50%float)
  /\ (let pending :=
        fst (Routes.postBlindDate 1000 Sample.store (Sample.dinner 1 30%float)) in
      snd (Routes.postJoinBlindDate 2000 pending 1 1)
      = Routes.Json
          (Some (BlindDate.mk (Sample.dinner 1 30%float) 1 (Some 1%Z) "matched"
                   (Some 86402000%Z) 1000))
      /\ option_map User.walletBalance
           (MemStorage.getUser (fst (Routes.postJoinBlindDate 2000 pending 1 1)) 1)
         = Some 40%float).
Proof. vm_compute. repeat split. Qed.

(** ** Sending a message *)

(** C5.  When [containsPhoneNumber] detects a violation in the content,
    the request is answered with status 403, the messages are those of
    before, a violation of the sender with fine "100.00" is stored, and
    the sender (when stored) gets [suspendedUntil] 24 hours after the
    clock reading; when it detects none, the message is stored and
    answered, and the violations and the users are those of before. *)
Theorem message_violation_fines_and_suspends :
  forall now st rs messageData,
    let sender := Message.senderId messageData in
    let content := Message.content messageData in
    (fst (Routes.containsPhoneNumber rs content) = true ->
     exists st' rs',
       Routes.postMessage now st rs messageData
       = (st', rs', Routes.Status 403 Routes.suspensionMessage)
       /\ MemStorage.messages st' = MemStorage.messages st
       /\ Js.get (MemStorage.violations st') (MemStorage.currentViolationId st)
          = Some (Violation.mk
                    (Violation.mkInsert sender None "phone_number" (Some content)
                       (Some "100.00"))
                    (MemStorage.currentViolationId st) "pending" now)
       /\ (forall user,
              MemStorage.getUser st sender = Some user ->
              exists user',
                MemStorage.getUser st' sender = Some user'
                /\ User.suspendedUntil user' = Some (now + 24 * 60 * 60 * 1000)%Z
                /\ User.walletBalance user' = User.walletBalance user))
    /\ (fst (Routes.containsPhoneNumber rs content) = false ->
        exists st' rs' message,
          Routes.postMessage now st rs messageData = (st', rs', Routes.Json message)
          /\ Message.data message = messageData
          /\ Js.get (MemStorage.messages st') (Message.id message) = Some message
          /\ MemStorage.violations st' = MemStorage.violations st
          /\ MemStorage.users st' = MemStorage.users st).
Proof.
  intros now st rs messageData sender content. unfold Routes.postMessage.
  fold content. destruct (Routes.containsPhoneNumber rs content) as [hit rs'].
  cbn [fst]. split; intros ->.
  - destruct (MemStorage.createViolation now st _) as [st1 v] eqn:Hv.
    unfold MemStorage.createViolation in Hv. injection Hv as <- <-.
    fold sender.
    match goal with
    | |- context [MemStorage.updateUser ?s sender ?u] =>
        set (st1 := s); set (updates := u)
    end.
    destruct (MemStorage.getUser st1 sender) as [user|] eqn:Hu.
    + rewrite (updateUser_found st1 sender user updates Hu).
      eexists _, rs'. split; [reflexivity|]. cbn.
      split; [reflexivity|]. split; [apply get_set_same|].
      intros user0 H0. change (MemStorage.getUser st1 sender) with (MemStorage.getUser st sender) in Hu.
      rewrite H0 in Hu. injection Hu as ->.
      exists (User.merge user updates). unfold MemStorage.getUser. cbn.
      rewrite get_set_same. repeat split.
    + rewrite (updateUser_missing st1 sender updates Hu).
      eexists _, rs'. split; [reflexivity|]. cbn.
      split; [reflexivity|]. split; [apply get_set_same|].
      intros user0 H0. change (MemStorage.getUser st1 sender) with (MemStorage.getUser st sender) in Hu.
      congruence.
  - eexists _, rs', _. split; [reflexivity|]. cbn.
    split; [reflexivity|]. split; [apply get_set_same|]. split; reflexivity.
Qed.

Lemma message_violation_fines_and_suspends_witness :
  (exists st' rs',
      Routes.postMessage 5000 Sample.store (Routes.mkRegexState 0 0)
        (Sample.message 2 "call me at 555-123-4567")
      = (st', rs', Routes.Status 403 Routes.suspensionMessage)
      /\ MemStorage.messages st' = []
      /\ option_map User.suspendedUntil (MemStorage.getUser st' 2) = Some (Some 86405000%Z))
  /\ (exists st' rs' message,
         Routes.postMessage 5000 Sample.store (Routes.mkRegexState 0 0)
           (Sample.message 2 "see you at 7")
         = (st', rs', Routes.Json message)
         /\ MemStorage.violations st' = []).
Proof.
  split.
  - destruct (message_violation_fines_and_suspends 5000%Z Sample.store
                (Routes.mkRegexState 0 0) (Sample.message 2 "call me at 555-123-4567"))
      as [Hhit _].
    destruct (Hhit eq_refl) as (st' & rs' & Hpost & Hmsg & _ & Huser).
    destruct (Huser Sample.bob eq_refl) as (user' & Hget & Hsusp & _).
    exists st', rs'. split; [exact Hpost|]. split; [exact Hmsg|].
    cbn [Message.senderId Sample.message] in Hget. rewrite Hget. cbn. now rewrite Hsusp.
  - destruct (message_violation_fines_and_suspends 5000%Z Sample.store
                (Routes.mkRegexState 0 0) (Sample.message 2 "see you at 7"))
      as [_ Hmiss].
    destruct (Hmiss eq_refl) as (st' & rs' & message & Hpost & _ & _ & Hv & _).
    exists st', rs', message. split; [exact Hpost | exact Hv].
Defined.

(** ** The content moderator *)

(** C9.  [sanitizeText] returns the text itself when [moderateContent]
    reports no violation on it. *)
Theorem sanitizeText_keeps_clean_text :
  forall text,
    ContentModerator.isViolation
      (ContentModerator.moderateContent ContentModerator.defaultConfig text) = false ->
    ContentModerator.sanitizeText text = text.
Proof.
  intros text Hclean. unfold ContentModerator.sanitizeText. now rewrite Hclean.
Qed.

Lemma sanitizeText_keeps_clean_text_witness :
  ContentModerator.sanitizeText "See you at the park, 7 pm?" = "See you at the park, 7 pm?"
  /\ ContentModerator.sanitizeText "you IDIOT, call 555-123-4567"
     = "you *****, call*************".
Proof.
  split.
  - apply sanitizeText_keeps_clean_text. vm_compute. reflexivity.
  - vm_compute. reflexivity.
Defined.

(** The inner loop of [detectSpelledPhoneNumbers] reports a run only
    at the word that ends it: over number words alone it reports
    nothing, however long the run is. *)
Lemma spelledRun_needs_a_closing_word window words sequence consecutiveNumbers :
  Forall (fun w => Js.arrIncludes ContentModerator.numberWords w = true) words ->
  ContentModerator.spelledRun window words sequence consecutiveNumbers = None.
Proof.
  intros Hall. revert window sequence consecutiveNumbers.
  induction Hall as [|w words Hw _ IH]; intros window sequence consecutiveNumbers.
  - destruct window; reflexivity.
  - destruct window; [reflexivity|]. cbn [ContentModerator.spelledRun].
    rewrite Hw. apply IH.
Qed.

(** When a word that is no number word closes a run of [n] number
    words inside the window, the run is reported when [n >= 7], with
    confidence [min(0.9, n / 10)]. *)
Lemma spelledRun_closed_run run closing rest window sequence consecutiveNumbers :
  Forall (fun w => Js.arrIncludes ContentModerator.numberWords w = true) run ->
  Js.arrIncludes ContentModerator.numberWords closing = false ->
  List.length run < window ->
  7 <= consecutiveNumbers + List.length run ->
  exists text,
    ContentModerator.spelledRun window (run ++ closing :: rest) sequence consecutiveNumbers
    = Some (ContentModerator.mkMatch text ContentModerator.spelled
              (Js.min2 0.9 (Js.ofNat (consecutiveNumbers + List.length run) / 10))%float
              (0, 0)).
Proof.
  intros Hrun Hclosing. revert window sequence consecutiveNumbers.
  induction Hrun as [|w run Hw _ IH]; intros window sequence consecutiveNumbers Hlen Hseven.
  - destruct window as [|window]; [inversion Hlen|].
    cbn [app ContentModerator.spelledRun]. rewrite Hclosing.
    cbn [List.length] in Hseven. rewrite Nat.add_0_r in Hseven.
    apply Nat.leb_le in Hseven. rewrite Hseven.
    cbn [List.length]. rewrite Nat.add_0_r. eexists. reflexivity.
  - destruct window as [|window]; [inversion Hlen|].
    cbn [app ContentModerator.spelledRun]. rewrite Hw.
    cbn [List.length] in *.
    destruct (IH window (sequence ++ w ++ " ")%string (S consecutiveNumbers)) as [text Htext];
      [lia | lia |].
    replace (S consecutiveNumbers + List.length run)
      with (consecutiveNumbers + S (List.length run)) in Htext by lia.
    exists text. exact Htext.
Qed.

(** C6.  The inner loop reports nothing over number words alone, and
    reports a run of 7 to 14 number words from the start of its window
    when a word that is no number word follows it, with confidence
    [min(0.9, run-length / 10)].  At the input of the spec the claim
    fails: the ten number words of
    "my number is five five five one two three four five six seven"
    run to the end of the text, so no spelled match is reported, no
    other pattern matches, and the text is no violation; with one more
    word after the run the same text is reported with confidence 0.9. *)
Theorem spelled_run_at_end_of_text_is_missed :
  (forall window run sequence consecutiveNumbers,
      Forall (fun w => Js.arrIncludes ContentModerator.numberWords w = true) run ->
      ContentModerator.spelledRun window run sequence consecutiveNumbers = None)
  /\ (forall run closing rest,
        Forall (fun w => Js.arrIncludes ContentModerator.numberWords w = true) run ->
        Js.arrIncludes ContentModerator.numberWords closing = false ->
        7 <= List.length run < 15 ->
        exists text,
          ContentModerator.spelledRun 15 (run ++ closing :: rest) "" 0
          = Some (ContentModerator.mkMatch text ContentModerator.spelled
                    (Js.min2 0.9 (Js.ofNat (List.length run) / 10))%float (0, 0)))
  /\ ContentModerator.detectSpelledPhoneNumbers Sample.spelledNumber = []
  /\ ContentModerator.detectPhoneNumbers ContentModerator.defaultConfig Sample.spelledNumber
     = []
  /\ ContentModerator.isViolation
       (ContentModerator.moderateContent ContentModerator.defaultConfig Sample.spelledNumber)
     = false
  /\ map (fun m => (ContentModerator.type m, ContentModerator.matchConfidence m))
         (ContentModerator.detectPhoneNumbers ContentModerator.defaultConfig
            (Sample.spelledNumber ++ " ok"))
     = [(ContentModerator.spelled, 0.9%float); (ContentModerator.spelled, 0.9%float);
        (ContentModerator.spelled, 0.8%float); (ContentModerator.spelled, 0.7%float)]
  /\ ContentModerator.violationType
       (ContentModerator.moderateContent ContentModerator.defaultConfig
          (Sample.spelledNumber ++ " ok"))
     = ["phone_number"].
Proof.
  split; [intros; now apply spelledRun_needs_a_closing_word|].
  split.
  - intros run closing rest Hrun Hclosing [Hlo Hhi].
    exact (spelledRun_closed_run run closing rest 15 "" 0 Hrun Hclosing Hhi Hlo).
  - vm_compute. repeat split.
Qed.

(** The additions of [spamScore], for [keywords] hits and the three
    tests. *)
Lemma spamScore_sum text :
  ContentModerator.spamScore text
  = (let s :=
       Nat.iter (List.length (ContentModerator.hits (Js.toLowerCase text) ContentModerator.spam))
                (fun s => s + 0.2) 0 in
     let s := if PrimFloat.ltb 0.5 (ContentModerator.capsRatio text) then s + 0.3 else s in
     let s := if (0 <? ContentModerator.punctRatio text)%nat then s + 0.2 else s in
     if PrimFloat.ltb 3 (ContentModerator.maxRepeats text) then s + 0.2 else s)%float.
Proof.
  unfold ContentModerator.spamScore. cbv zeta.
  assert (Hfold : forall (l : list string) (s0 : float),
             fold_left (fun score _ => (score + 0.2)%float) l s0
             = Nat.iter (List.length l) (fun s => (s + 0.2)%float) s0).
  { induction l as [|w l IH]; intros s0; [reflexivity|].
    cbn [fold_left List.length]. rewrite IH. symmetry.
    exact (Nat.iter_succ_r (List.length l) float (fun s => (s + 0.2)%float) s0). }
  now rewrite Hfold.
Qed.

(** The rounding of the additions never crosses the threshold: the
    computed score is at least 0.6 exactly when the decimal sum is. *)
Lemma threshold_in_tenths (keywords : nat) (caps punct repeats : bool) :
  keywords <= 10 ->
  PrimFloat.leb 0.6
    (let s := Nat.iter keywords (fun s => s + 0.2) 0 in
     let s := if caps then s + 0.3 else s in
     let s := if punct then s + 0.2 else s in
     if repeats then s + 0.2 else s)%float
  = (6 <=? ContentModerator.specScoreTenths keywords caps punct repeats).
Proof.
  intros Hk.
  do 11 (destruct keywords as [|keywords];
         [destruct caps, punct, repeats; vm_compute; reflexivity|]).
  lia.
Qed.

Lemma hits_length lowerText words :
  List.length (ContentModerator.hits lowerText words) <= List.length words.
Proof. apply filter_length_le. Qed.

(** C7.  For every text the verdict is the threshold 0.6 on the sum, in
    decimals, of 0.2 for each keyword hit, 0.3 for the capitals, 0.2 for
    the punctuation run and 0.2 when [maxRepeats > 3].  The last test is
    where the code leaves the claim.  The sample "BUY NOW!!! ..." is
    spam, and so is a text with one keyword, a run of "!" and a word
    four times.  When
    that word is "constructor", or when "constructor" occurs at all,
    [maxRepeats] is not a number and the repeated word adds nothing;
    "__proto__" is never counted.  The score then stays at 0.2 + 0.2 and
    the text is not spam. *)
Theorem repeated_word_rule_misses_inherited_names :
  (forall text,
      ContentModerator.isSpam (ContentModerator.detectSpam text)
      = (6 <=? ContentModerator.specScoreTenths
                 (List.length
                    (ContentModerator.hits (Js.toLowerCase text) ContentModerator.spam))
                 (PrimFloat.ltb 0.5 (ContentModerator.capsRatio text))
                 (0 <? ContentModerator.punctRatio text)
                 (PrimFloat.ltb 3 (ContentModerator.maxRepeats text))))
  /\ ContentModerator.maxRepeats "free free free free" = 4%float
  /\ PrimFloat.ltb 3 (ContentModerator.maxRepeats "constructor constructor constructor constructor")
     = false
  /\ ContentModerator.isSpam (ContentModerator.detectSpam Sample.buyNow) = true
  /\ ContentModerator.spamScore Sample.buyNow = (0.2 + 0.3 + 0.2 + 0.2)%float
  /\ ContentModerator.isSpam (ContentModerator.detectSpam "bitcoin!! free free free free")
     = true
  /\ ContentModerator.spamScore "bitcoin!! constructor constructor constructor constructor"
     = (0.2 + 0.2)%float
  /\ ContentModerator.isSpam
       (ContentModerator.detectSpam
          "bitcoin!! constructor constructor constructor constructor") = false
  /\ ContentModerator.isSpam
       (ContentModerator.detectSpam "bitcoin!! free free free free constructor") = false
  /\ ContentModerator.isSpam
       (ContentModerator.detectSpam "bitcoin!! __proto__ __proto__ __proto__ __proto__")
     = false.
Proof.
  split.
  - intros text. unfold ContentModerator.detectSpam. cbn [ContentModerator.isSpam].
    rewrite spamScore_sum. apply threshold_in_tenths.
    apply (hits_length (Js.toLowerCase text) ContentModerator.spam).
  - vm_compute. repeat split.
Qed.

(** ** Further properties of the handlers *)

(** X1.  When at most one of the two directions holds a stored like,
    the pair has no match, along any history from a store without
    swipes. *)
Theorem one_sided_like_has_no_match :
  forall app history a b,
    App.unswiped (App.storage app) ->
    let st := App.storage (App.run history app) in
    App.liked st a b = false \/ App.liked st b a = false ->
    App.pairMatches st a b = [].
Proof.
  intros app history a b Hun st Hone.
  destruct (unswiped_invariants _ Hun) as [Hfresh Hinv].
  destruct (run_invariants history app Hfresh Hinv) as [_ Hi].
  specialize (Hi a b). fold st in Hi.
  apply length_zero_iff_nil. rewrite Hi.
  destruct Hone as [-> | ->]; [reflexivity | now rewrite andb_false_r].
Qed.

Lemma one_sided_like_has_no_match_witness :
  App.pairMatches
    (App.storage
       (App.run [(10%Z, App.PostSwipe (Sample.like 1 2));
                 (20%Z, App.PostSwipe (Sample.superLike 2 1))] Sample.app))
    1 2 = [].
Proof.
  apply (one_sided_like_has_no_match Sample.app
           [(10%Z, App.PostSwipe (Sample.like 1 2));
            (20%Z, App.PostSwipe (Sample.superLike 2 1))] 1%Z 2%Z (conj eq_refl eq_refl)).
  right. vm_compute. reflexivity.
Defined.

(** X2.  An accepted join stores the blind date as matched, with the
    joining user as second user and the date 24 hours after the clock
    reading, and answers with it; its id, its creation time and the
    columns of its creation are as before, and so is every other blind
    date. *)
Theorem join_matches_and_schedules :
  forall now st blindDateId userId user blindDate,
    MemStorage.getUser st userId = Some user ->
    MemStorage.getBlindDate st blindDateId = Some blindDate ->
    PrimFloat.ltb (User.walletBalance user) (BlindDate.amount (BlindDate.data blindDate))
    = false ->
    exists st' joined,
      Routes.postJoinBlindDate now st blindDateId userId = (st', Routes.Json (Some joined))
      /\ MemStorage.getBlindDate st' blindDateId = Some joined
      /\ BlindDate.status joined = "matched"
      /\ BlindDate.user2Id joined = Some userId
      /\ BlindDate.scheduledFor joined = Some (now + 24 * 60 * 60 * 1000)%Z
      /\ BlindDate.data joined = BlindDate.data blindDate
      /\ joined
         = BlindDate.mk (BlindDate.data blindDate) (BlindDate.id blindDate) (Some userId)
             "matched" (Some (now + 24 * 60 * 60 * 1000)%Z) (BlindDate.createdAt blindDate)
      /\ (forall other, other <> blindDateId ->
            MemStorage.getBlindDate st' other = MemStorage.getBlindDate st other).
Proof.
  intros now st blindDateId userId user blindDate Huser Hdate Hlt.
  unfold Routes.postJoinBlindDate. rewrite Huser, Hdate, Hlt.
  unfold MemStorage.matchBlindDate, MemStorage.updateBlindDate.
  unfold MemStorage.getBlindDate in Hdate. rewrite Hdate.
  erewrite updateUser_found by exact Huser.
  eexists _, _. split; [reflexivity|].
  unfold MemStorage.getBlindDate. cbn. rewrite get_set_same.
  do 6 (split; [reflexivity|]).
  intros other Hne. now apply get_set_other.
Qed.

Lemma join_matches_and_schedules_witness :
  exists st' joined,
    Routes.postJoinBlindDate 2000
      (fst (Routes.postBlindDate 1000 Sample.store (Sample.dinner 1 50%float))) 1 2
    = (st', Routes.Json (Some joined))
    /\ joined
       = BlindDate.mk (Sample.dinner 1 50%float) 1 (Some 2%Z) "matched" (Some 86402000%Z) 1000.
Proof.
  destruct (join_matches_and_schedules 2000%Z
              (fst (Routes.postBlindDate 1000 Sample.store (Sample.dinner 1 50%float)))
              1%Z 2%Z Sample.bob
              (BlindDate.mk (Sample.dinner 1 50%float) 1 None "pending" None 1000)
              eq_refl eq_refl eq_refl)
    as (st' & joined & Hpost & _ & _ & _ & _ & _ & Hjoined & _).
  exists st', joined. split; [exact Hpost | exact Hjoined].
Defined.

(** X4.  The two patterns of [containsPhoneNumber] carry their
    [lastIndex] from one request to the next: of two sends of the same
    text with a phone number, the first is answered 403 and the second
    is stored. *)
Theorem second_send_of_a_phone_number_is_stored :
  let send := (5000%Z, App.PostMessage (Sample.message 2 "call me at 555-123-4567")) in
  fst (Routes.containsPhoneNumber (Routes.mkRegexState 0 0) "call me at 555-123-4567")
  = true
  /\ fst (Routes.containsPhoneNumber (App.regexState (App.run [send] Sample.app))
            "call me at 555-123-4567") = false
  /\ MemStorage.messages (App.storage (App.run [send] Sample.app)) = []
  /\ Js.values (MemStorage.messages (App.storage (App.run [send; send] Sample.app)))
     = [Message.mk (Sample.message 2 "call me at 555-123-4567") 1 false 5000].
Proof. vm_compute. repeat split. Qed.

Lemma Forall_set {V : Type} (P : V -> Prop) (m : Js.jsmap V) (k : Z) (v : V) :
  Forall (fun kv => P (snd kv)) m -> P v -> Forall (fun kv => P (snd kv)) (Js.set m k v).
Proof.
  intros Hm Hv. induction Hm as [|[k' v'] m Hk' Hm' IH]; cbn.
  - constructor; [exact Hv | constructor].
  - destruct (Z.eqb k' k); constructor; assumption.
Qed.

Lemma blindDates_updateUser st id updates :
  MemStorage.blindDates (fst (MemStorage.updateUser st id updates))
  = MemStorage.blindDates st.
Proof.
  unfold MemStorage.updateUser. now destruct (Js.get (MemStorage.users st) id).
Qed.

Lemma blindDates_postSwipe now st d :
  MemStorage.blindDates (fst (Routes.postSwipe now st d)) = MemStorage.blindDates st.
Proof.
  unfold Routes.postSwipe.
  destruct (MemStorage.getSwipe st _ _); [reflexivity|].
  destruct (MemStorage.createSwipe now st d) as [st1 swipe] eqn:Hc.
  unfold MemStorage.createSwipe in Hc. injection Hc as <- _.
  destruct (String.eqb _ _); [|reflexivity].
  destruct (MemStorage.getSwipe _ _ _) as [r|]; [|reflexivity].
  destruct (String.eqb _ _); reflexivity.
Qed.

Lemma blindDates_postMessage now st rs messageData :
  MemStorage.blindDates (fst (fst (Routes.postMessage now st rs messageData)))
  = MemStorage.blindDates st.
Proof.
  unfold Routes.postMessage.
  destruct (Routes.containsPhoneNumber rs (Message.content messageData)) as [[|] rs'].
  - destruct (MemStorage.createViolation now st _) as [st1 v] eqn:Hv.
    unfold MemStorage.createViolation in Hv. injection Hv as <- _.
    match goal with
    | |- context [MemStorage.updateUser ?s ?i ?u] =>
        pose proof (blindDates_updateUser s i u) as H;
        destruct (MemStorage.updateUser s i u) as [st2 r]
    end.
    exact H.
  - reflexivity.
Qed.

(** X3.  Every blind date that the handlers store is pending without a
    second user or matched with one, along any history from a store
    without blind dates. *)
Theorem blind_dates_are_pending_or_matched :
  forall app history,
    MemStorage.blindDates (App.storage app) = [] ->
    forall id blindDate,
      MemStorage.getBlindDate (App.storage (App.run history app)) id = Some blindDate ->
      App.pendingOrMatched blindDate.
Proof.
  intros app history Hempty.
  assert (Hall : Forall (fun kv => App.pendingOrMatched (snd kv))
                        (MemStorage.blindDates (App.storage (App.run history app)))).
  { assert (H0 : Forall (fun kv => App.pendingOrMatched (snd kv))
                        (MemStorage.blindDates (App.storage app)))
      by (rewrite Hempty; constructor).
    clear Hempty. revert app H0.
    induction history as [|[now request] history IH]; intros app H0; [exact H0|].
    cbn [App.run fold_left]. apply IH.
    destruct request as [d|messageData|blindDateData|blindDateId userId]; cbn.
    - now rewrite blindDates_postSwipe.
    - pose proof (blindDates_postMessage now (App.storage app) (App.regexState app)
                    messageData) as H.
      destruct (Routes.postMessage now (App.storage app) (App.regexState app) messageData)
        as [[st rs] r]. cbn in *. now rewrite H.
    - unfold Routes.postBlindDate.
      destruct (MemStorage.getUser _ _) as [user|]; [|exact H0].
      destruct (PrimFloat.ltb _ _); [exact H0|].
      destruct (MemStorage.createBlindDate now (App.storage app) blindDateData)
        as [st1 bd] eqn:Hc.
      unfold MemStorage.createBlindDate in Hc. injection Hc as <- <-.
      match goal with
      | |- context [MemStorage.updateUser ?s ?i ?u] =>
          pose proof (blindDates_updateUser s i u) as H;
          destruct (MemStorage.updateUser s i u) as [st2 r]
      end.
      cbn [fst] in *. rewrite H. cbn. apply Forall_set; [exact H0|].
      left. split; reflexivity.
    - unfold Routes.postJoinBlindDate.
      destruct (MemStorage.getUser _ _) as [user|]; [|exact H0].
      destruct (MemStorage.getBlindDate _ _) as [bd|] eqn:Hbd; [|exact H0].
      destruct (PrimFloat.ltb _ _); [exact H0|].
      unfold MemStorage.matchBlindDate, MemStorage.updateBlindDate.
      unfold MemStorage.getBlindDate in Hbd. rewrite Hbd.
      match goal with
      | |- context [MemStorage.updateUser ?s ?i ?u] =>
          pose proof (blindDates_updateUser s i u) as H;
          destruct (MemStorage.updateUser s i u) as [st2 r]
      end.
      cbn [fst] in *. rewrite H. cbn. apply Forall_set; [exact H0|].
      right. split; [reflexivity | discriminate]. }
  intros id blindDate Hget. unfold MemStorage.getBlindDate, Js.get in Hget.
  destruct (find _ _) as [[k v]|] eqn:Hfind; [|discriminate].
  injection Hget as <-. apply find_some in Hfind. destruct Hfind as [Hin _].
  rewrite Forall_forall in Hall. exact (Hall _ Hin).
Qed.

Lemma blind_dates_are_pending_or_matched_witness :
  App.pendingOrMatched
    (BlindDate.mk (Sample.dinner 1 50%float) 1 (Some 2%Z) "matched" (Some 86402000%Z) 1000).
Proof.
  apply (blind_dates_are_pending_or_matched Sample.app
           [(1000%Z, App.PostBlindDate (Sample.dinner 1 50%float));
            (2000%Z, App.PostJoinBlindDate 1 2)] eq_refl 1%Z).
  vm_compute. reflexivity.
Defined.

(* ------------------------------------------------------------------ *)
(** * The whole store: what every history keeps *)

Section MapUpdates.

Context {V : Type}.
Implicit Types (m : Js.jsmap V) (k : Z) (v : V).

Lemma get_In m k v : Js.get m k = Some v -> In (k, v) m.
Proof.
  unfold Js.get. destruct (find _ m) as [[k' v']|] eqn:Hf; [|discriminate].
  cbn. intros [= <-]. apply find_some in Hf. destruct Hf as [Hin Heq].
  cbn in Heq. apply Z.eqb_eq in Heq. now subst.
Qed.

Lemma get_None_keys m k : Js.get m k = None -> Forall (fun kv => fst kv <> k) m.
Proof.
  unfold Js.get. intros H. apply Forall_forall. intros [k' v'] Hin Heq.
  cbn in Heq. subst k'.
  destruct (find _ m) eqn:Hf; [discriminate|].
  pose proof (find_none _ _ Hf _ Hin) as Hne. cbn in Hne. now rewrite Z.eqb_refl in Hne.
Qed.

Lemma Forall_set_kv (P : Z * V -> Prop) m k v :
  Forall P m -> P (k, v) -> Forall P (Js.set m k v).
Proof.
  intros Hm Hv. induction Hm as [|[k' v'] m Hk' Hm' IH]; cbn.
  - constructor; [exact Hv | constructor].
  - destruct (Z.eqb k' k); constructor; assumption.
Qed.

(** Replacing the value of a stored key keeps every reading of the
    table that does not tell the two values apart. *)
Lemma map_set_existing {B : Type} (g : Z * V -> B) m k u v :
  Js.get m k = Some u -> g (k, v) = g (k, u) -> map g (Js.set m k v) = map g m.
Proof.
  unfold Js.get. intros Hget Hg. induction m as [|[k' v'] m IH]; [discriminate|].
  cbn in *. destruct (Z.eqb_spec k' k) as [->|Hne].
  - cbn in Hget. injection Hget as ->. cbn. now rewrite Hg.
  - cbn. f_equal. now apply IH.
Qed.

Lemma ahead_next m (next : Z) v :
  Server.ahead next m -> Server.ahead (next + 1) (Js.set m next v).
Proof.
  intros H. apply Forall_set_kv.
  - eapply Forall_impl; [|exact H]. cbn. intros kv Hlt. lia.
  - cbn. lia.
Qed.

Lemma ahead_existing m (next : Z) k u v :
  Server.ahead next m -> Js.get m k = Some u -> Server.ahead next (Js.set m k v).
Proof.
  intros H Hget. apply Forall_set_kv; [exact H|].
  apply get_In in Hget. unfold Server.ahead in H. rewrite Forall_forall in H.
  exact (H _ Hget).
Qed.

Lemma set_set_same m k v : Js.set (Js.set m k v) k v = Js.set m k v.
Proof.
  induction m as [|[k' v'] m IH]; cbn.
  - now rewrite Z.eqb_refl.
  - destruct (Z.eqb k' k) eqn:E; cbn.
    + now rewrite Z.eqb_refl.
    + now rewrite E, IH.
Qed.

End MapUpdates.

Lemma NoDup_snoc {A : Type} (l : list A) (x : A) :
  NoDup l -> ~ In x l -> NoDup (l ++ [x]).
Proof.
  intros Hl Hx. induction Hl as [|a l Ha Hl IH]; cbn.
  - constructor; [intros [] | constructor].
  - constructor.
    + rewrite in_app_iff. intros [H|[H|[]]]; [contradiction|]. apply Hx. now left.
    + apply IH. intros H. apply Hx. now right.
Qed.

Lemma NoDup_keys_set {V : Type} (m : Js.jsmap V) (k : Z) (v : V) :
  NoDup (map fst m) -> NoDup (map fst (Js.set m k v)).
Proof.
  intros Hnd. destruct (Js.get m k) as [u|] eqn:Hget.
  - now rewrite (map_set_existing fst m k u v Hget eq_refl).
  - pose proof (get_None_keys m k Hget) as Hkeys.
    rewrite (set_fresh m k v Hkeys), map_app. cbn. apply NoDup_snoc; [exact Hnd|].
    intros Hin. apply in_map_iff in Hin. destruct Hin as (kv & Heq & Hin).
    rewrite Forall_forall in Hkeys. exact (Hkeys kv Hin Heq).
Qed.

Lemma write_wellFormed next c c' :
  Server.coreWellFormed next c -> Server.write c c' -> Server.coreWellFormed next c'.
Proof.
  intros (Hu & Hs & Hm & Hg & Hb & Hv & Hk & Ha & Hn) Hw.
  destruct Hw as [now c d|now c m|now c m|now c b|now c v|c id updates|now c id user2].
  - repeat split; try assumption; try apply Hu. cbn. now apply ahead_next.
  - repeat split; try assumption; try apply Hu; cbn.
    + now apply ahead_next.
    + apply Forall_set_kv; [exact Ha | reflexivity].
  - repeat split; try assumption; try apply Hu. cbn. now apply ahead_next.
  - repeat split; try assumption; try apply Hu; cbn.
    + now apply ahead_next.
    + apply Forall_set_kv; [exact Hk | reflexivity].
    + now apply NoDup_keys_set.
  - repeat split; try assumption; try apply Hu. cbn. now apply ahead_next.
  - unfold MemStorage.updateUser.
    destruct (Js.get (MemStorage.users c) id) as [user|] eqn:Hget;
      [|repeat split; try assumption; apply Hu].
    cbn [fst]. destruct Hu as [Hkeys Hemails].
    pose proof (get_In _ _ _ Hget) as Hin.
    rewrite Forall_forall in Hkeys. pose proof (Hkeys _ Hin) as [Hid Hlt]. cbn in Hid, Hlt.
    repeat split; try assumption; cbn.
    + apply Forall_set_kv; [now apply Forall_forall|]. cbn. now split.
    + now rewrite (map_set_existing (fun kv => User.email (snd kv)) _ id user).
  - unfold MemStorage.matchBlindDate, MemStorage.updateBlindDate.
    destruct (Js.get (MemStorage.blindDates c) id) as [blindDate|] eqn:Hget;
      [|repeat split; try assumption; apply Hu].
    cbn [fst]. pose proof (get_In _ _ _ Hget) as Hin.
    rewrite Forall_forall in Hk. pose proof (Hk _ Hin) as Hid. cbn in Hid.
    repeat split; try assumption; try apply Hu; cbn.
    + now apply (ahead_existing _ _ id blindDate).
    + apply Forall_set_kv; [now apply Forall_forall|]. cbn. exact Hid.
    + now apply NoDup_keys_set.
Qed.

Lemma writes_wellFormed next c c' :
  Server.coreWellFormed next c -> Server.writes c c' -> Server.coreWellFormed next c'.
Proof.
  intros H Hw. induction Hw as [c|c1 c2 c3 Hstep _ IH]; [exact H|].
  apply IH. now apply (write_wellFormed next c1).
Qed.

Lemma write_tables c c' : Server.tables c -> Server.write c c' -> Server.tables c'.
Proof.
  intros (Hs & Hm & Hg & Hb & Hv & Hk & Ha & Hn) Hw.
  destruct Hw as [now c d|now c m|now c m|now c b|now c v|c id updates|now c id user2].
  - repeat split; try assumption. cbn. now apply ahead_next.
  - repeat split; try assumption; cbn.
    + now apply ahead_next.
    + apply Forall_set_kv; [exact Ha | reflexivity].
  - repeat split; try assumption. cbn. now apply ahead_next.
  - repeat split; try assumption; cbn.
    + now apply ahead_next.
    + apply Forall_set_kv; [exact Hk | reflexivity].
    + now apply NoDup_keys_set.
  - repeat split; try assumption. cbn. now apply ahead_next.
  - unfold MemStorage.updateUser.
    destruct (Js.get (MemStorage.users c) id) as [user|];
      repeat split; assumption.
  - unfold MemStorage.matchBlindDate, MemStorage.updateBlindDate.
    destruct (Js.get (MemStorage.blindDates c) id) as [blindDate|] eqn:Hget;
      [|repeat split; assumption].
    cbn [fst]. pose proof (get_In _ _ _ Hget) as Hin.
    rewrite Forall_forall in Hk. pose proof (Hk _ Hin) as Hid. cbn in Hid.
    repeat split; try assumption; cbn.
    + now apply (ahead_existing _ _ id blindDate).
    + apply Forall_set_kv; [now apply Forall_forall|]. cbn. exact Hid.
    + now apply NoDup_keys_set.
Qed.

Lemma writes_tables c c' : Server.tables c -> Server.writes c c' -> Server.tables c'.
Proof.
  intros H Hw. induction Hw as [c|c1 c2 c3 Hstep _ IH]; [exact H|].
  apply IH. now apply (write_tables c1).
Qed.

Lemma writes_one c c' : Server.write c c' -> Server.writes c c'.
Proof. intros H. eapply Server.WritesStep; [exact H | apply Server.WritesDone]. Qed.

Lemma writes_two c1 c2 c3 :
  Server.write c1 c2 -> Server.write c2 c3 -> Server.writes c1 c3.
Proof. intros H1 H2. eapply Server.WritesStep; [exact H1 | now apply writes_one]. Qed.

Lemma postSwipe_writes now c d : Server.writes c (fst (Routes.postSwipe now c d)).
Proof.
  unfold Routes.postSwipe.
  destruct (MemStorage.getSwipe c _ _); [apply Server.WritesDone|].
  pose proof (Server.WriteSwipe now c d) as H1.
  destruct (MemStorage.createSwipe now c d) as [c1 swipe]. cbn [fst] in H1.
  destruct (String.eqb _ _); [|now apply writes_one].
  destruct (MemStorage.getSwipe c1 _ _) as [r|]; [|now apply writes_one].
  destruct (String.eqb _ _); [|now apply writes_one].
  match goal with
  | |- context [MemStorage.createMatch now c1 ?m] =>
      pose proof (Server.WriteMatch now c1 m) as H2;
      destruct (MemStorage.createMatch now c1 m) as [c2 mt]
  end.
  cbn [fst] in *. now apply (writes_two c c1 c2).
Qed.

Lemma postMessage_writes now c rs messageData :
  Server.writes c (fst (fst (Routes.postMessage now c rs messageData))).
Proof.
  unfold Routes.postMessage.
  destruct (Routes.containsPhoneNumber rs (Message.content messageData)) as [[|] rs'].
  - match goal with
    | |- context [MemStorage.createViolation now c ?v] =>
        pose proof (Server.WriteViolation now c v) as H1;
        destruct (MemStorage.createViolation now c v) as [c1 vi]
    end.
    match goal with
    | |- context [MemStorage.updateUser c1 ?i ?u] =>
        pose proof (Server.WriteUser c1 i u) as H2;
        destruct (MemStorage.updateUser c1 i u) as [c2 r]
    end.
    cbn [fst] in *. now apply (writes_two c c1 c2).
  - pose proof (Server.WriteMessage now c messageData) as H1.
    destruct (MemStorage.createMessage now c messageData) as [c1 msg].
    cbn [fst] in *. now apply writes_one.
Qed.

Lemma postBlindDate_writes now c blindDateData :
  Server.writes c (fst (Routes.postBlindDate now c blindDateData)).
Proof.
  unfold Routes.postBlindDate.
  destruct (MemStorage.getUser c _) as [user|]; [|apply Server.WritesDone].
  destruct (PrimFloat.ltb _ _); [apply Server.WritesDone|].
  pose proof (Server.WriteBlindDate now c blindDateData) as H1.
  destruct (MemStorage.createBlindDate now c blindDateData) as [c1 bd].
  match goal with
  | |- context [MemStorage.updateUser c1 ?i ?u] =>
      pose proof (Server.WriteUser c1 i u) as H2;
      destruct (MemStorage.updateUser c1 i u) as [c2 r]
  end.
  cbn [fst] in *. now apply (writes_two c c1 c2).
Qed.

Lemma postJoinBlindDate_writes now c blindDateId userId :
  Server.writes c (fst (Routes.postJoinBlindDate now c blindDateId userId)).
Proof.
  unfold Routes.postJoinBlindDate.
  destruct (MemStorage.getUser c _) as [user|]; [|apply Server.WritesDone].
  destruct (MemStorage.getBlindDate c _) as [bd|]; [|apply Server.WritesDone].
  destruct (PrimFloat.ltb _ _); [apply Server.WritesDone|].
  pose proof (Server.WriteJoin now c blindDateId userId) as H1.
  destruct (MemStorage.matchBlindDate now c blindDateId userId) as [c1 joined].
  match goal with
  | |- context [MemStorage.updateUser c1 ?i ?u] =>
      pose proof (Server.WriteUser c1 i u) as H2;
      destruct (MemStorage.updateUser c1 i u) as [c2 r]
  end.
  cbn [fst] in *. now apply (writes_two c c1 c2).
Qed.

Lemma handle_writes app timed :
  Server.writes (App.storage app) (App.storage (App.handle app timed)).
Proof.
  destruct timed as [now [d|messageData|blindDateData|blindDateId userId]]; cbn.
  - apply postSwipe_writes.
  - pose proof (postMessage_writes now (App.storage app) (App.regexState app) messageData)
      as H.
    destruct (Routes.postMessage now (App.storage app) (App.regexState app) messageData)
      as [[c rs] r]. exact H.
  - apply postBlindDate_writes.
  - apply postJoinBlindDate_writes.
Qed.

Lemma coreWellFormed_fresh next c : Server.coreWellFormed next c -> App.freshIds c.
Proof. intros (_ & Hs & Hm & _). now split. Qed.

Lemma getUserByEmail_None c email :
  Storage.getUserByEmail c email = None ->
  ~ In email (map (fun kv => User.email (snd kv)) (MemStorage.users c)).
Proof.
  unfold Storage.getUserByEmail, Js.values. intros Hnone Hin.
  apply in_map_iff in Hin. destruct Hin as ([k u] & Heq & Hin). cbn in Heq.
  assert (Hu : In u (map snd (MemStorage.users c))) by (apply in_map_iff; now exists (k, u)).
  pose proof (find_none _ _ Hnone _ Hu) as Hne. cbn in Hne.
  rewrite Heq, String.eqb_refl in Hne. discriminate.
Qed.

Lemma register_wellFormed st userData :
  Server.wellFormed st -> Server.wellFormed (fst (Api.register st userData)).
Proof.
  intros Hwf. unfold Api.register.
  destruct (Storage.getUserByEmail (Storage.core st) (InsertUser.email userData)) eqn:He;
    [exact Hwf|].
  destruct Hwf as (((Hkeys & Hemails) & Hrest) & Hstories & Hpayments & Hinv).
  cbn. repeat split; try apply Hrest; try assumption.
  - apply Forall_set_kv.
    + eapply Forall_impl; [|exact Hkeys]. cbn. intros kv [Hid Hlt]. split; [exact Hid | lia].
    + cbn. split; [reflexivity | lia].
  - rewrite set_fresh.
    + cbn [Storage.core MemStorage.users MemStorage.withUsers].
      rewrite map_app. cbn. apply NoDup_snoc; [exact Hemails|].
      now apply getUserByEmail_None.
    + eapply Forall_impl; [|exact Hkeys]. cbn. intros kv [_ Hlt]. lia.
Qed.

Lemma settlePayment_wellFormed now st payment paymentData :
  Server.wellFormed st ->
  Server.wellFormed (Api.settlePayment now st payment paymentData).
Proof.
  intros (Hcore & Hstories & Hpayments & Hinv). unfold Api.settlePayment.
  assert (H1 : Server.wellFormed
                 (fst (Storage.updatePayment st (Payment.id payment)
                         (Payment.mkPartial (Some "completed")
                            (Some (Some (Api.transactionIdAt now))))))
               /\ Storage.core
                    (fst (Storage.updatePayment st (Payment.id payment)
                            (Payment.mkPartial (Some "completed")
                               (Some (Some (Api.transactionIdAt now))))))
                  = Storage.core st).
  { unfold Storage.updatePayment.
    destruct (Js.get (Storage.payments st) (Payment.id payment)) as [p|] eqn:Hget; cbn.
    - split; [|reflexivity]. repeat split; try assumption; try apply Hcore.
      cbn. now apply (ahead_existing _ _ _ p).
    - split; [|reflexivity]. repeat split; try assumption; apply Hcore. }
  destruct (Storage.updatePayment st (Payment.id payment) _) as [st1 r]. cbn [fst] in H1.
  destruct H1 as [(Hcore1 & Hstories1 & Hpayments1 & Hinv1) Hsame].
  destruct (MemStorage.getUser (Storage.core st1) (Payment.userId paymentData)) as [user|];
    [|exact (conj Hcore1 (conj Hstories1 (conj Hpayments1 Hinv1)))].
  match goal with
  | |- context [MemStorage.updateUser ?c ?i ?u] =>
      pose proof (Server.WriteUser c i u) as Hw;
      pose proof (sameSwipes_updateUser c i u) as Hs
  end.
  split; [|split; [|split]]; cbn.
  - exact (write_wellFormed _ _ _ Hcore1 Hw).
  - exact Hstories1.
  - exact Hpayments1.
  - exact (sameSwipes_invariant _ _ Hs Hinv1).
Qed.

(** The users stay keyed by their ids, with distinct emails, under
    every request that leaves id and email alone. *)
Lemma handle_wellFormed srv timed :
  Server.keepsIdentity (snd timed) ->
  Server.wellFormed (Server.store srv) ->
  Server.wellFormed (Server.store (Server.handle srv timed)).
Proof.
  intros Hkeep Hwf. destruct timed as [now request].
  destruct request as [r|userData|paymentData|payment paymentData|storyData|id|violationData
                      |id updates];
    cbn [Server.handle Server.store].
  - destruct Hwf as (Hcore & Hstories & Hpayments & Hinv).
    split; [|split; [|split]]; cbn.
    + eapply writes_wellFormed; [exact Hcore|].
      apply (handle_writes (App.mk (Storage.core (Server.store srv)) (Server.regexState srv))
               (now, r)).
    + exact Hstories.
    + exact Hpayments.
    + apply (handle_invariants
               (App.mk (Storage.core (Server.store srv)) (Server.regexState srv)) (now, r));
        [exact (coreWellFormed_fresh _ _ Hcore) | exact Hinv].
  - now apply register_wellFormed.
  - destruct Hwf as (Hcore & Hstories & Hpayments & Hinv).
    repeat split; try assumption; try apply Hcore. cbn. now apply ahead_next.
  - now apply settlePayment_wellFormed.
  - destruct Hwf as (Hcore & Hstories & Hpayments & Hinv).
    repeat split; try assumption; try apply Hcore. cbn. now apply ahead_next.
  - destruct Hwf as (Hcore & Hstories & Hpayments & Hinv).
    unfold Api.postArStoryView, Storage.incrementStoryViews.
    destruct (Js.get (Storage.arStories (Server.store srv)) id) as [story|] eqn:Hget; cbn.
    + repeat split; try assumption; try apply Hcore. cbn.
      now apply (ahead_existing _ _ _ story).
    + repeat split; try assumption; apply Hcore.
  - destruct Hwf as (Hcore & Hstories & Hpayments & Hinv).
    pose proof (Server.WriteViolation now (Storage.core (Server.store srv)) violationData)
      as Hw.
    split; [|split; [|split]]; cbn.
    + exact (write_wellFormed _ _ _ Hcore Hw).
    + exact Hstories.
    + exact Hpayments.
    + intros a b. apply Hinv.
  - destruct Hkeep as [Hid Hemail].
    destruct Hwf as (((Hkeys & Hemails) & Hrest) & Hstories & Hpayments & Hinv).
    unfold Api.putUser, Storage.updateUser.
    destruct (Js.get (MemStorage.users (Storage.core (Server.store srv))) id)
      as [user|] eqn:Hget; cbn [fst];
      [|exact (conj (conj (conj Hkeys Hemails) Hrest) (conj Hstories (conj Hpayments Hinv)))].
    pose proof (get_In _ _ _ Hget) as Hin.
    pose proof Hkeys as Hall. rewrite Forall_forall in Hall.
    pose proof (Hall _ Hin) as [Huid Hlt]. cbn in Huid, Hlt.
    refine (conj (conj (conj _ _) Hrest) (conj Hstories (conj Hpayments Hinv))).
    + cbn. apply Forall_set_kv; [exact Hkeys|]. cbn. rewrite Hid. now split.
    + cbn. rewrite (map_set_existing (fun kv => User.email (snd kv)) _ id user);
        [exact Hemails | exact Hget | cbn; now rewrite Hemail].
Qed.

Lemma run_wellFormed history srv :
  Forall (fun timed => Server.keepsIdentity (snd timed)) history ->
  Server.wellFormed (Server.store srv) ->
  Server.wellFormed (Server.store (Server.run history srv)).
Proof.
  intros Hkeep. revert srv.
  induction Hkeep as [|timed history Hk _ IH]; intros srv Hwf; [exact Hwf|].
  cbn. apply IH. now apply handle_wellFormed.
Qed.

Lemma wellFormed_consistent st : Server.wellFormed st -> Server.consistent st.
Proof.
  intros ((_ & Htables) & Hstories & Hpayments & Hinv).
  exact (conj Htables (conj Hstories (conj Hpayments Hinv))).
Qed.

Lemma tables_fresh c : Server.tables c -> App.freshIds c.
Proof. intros (Hs & Hm & _). now split. Qed.

(** What every request keeps, also a [PUT /api/users/:id] with any
    body. *)
Lemma handle_consistent srv timed :
  Server.consistent (Server.store srv) ->
  Server.consistent (Server.store (Server.handle srv timed)).
Proof.
  intros (Htables & Hstories & Hpayments & Hinv). destruct timed as [now request].
  destruct request as [r|userData|paymentData|payment paymentData|storyData|id|violationData
                      |id updates];
    cbn [Server.handle Server.store].
  - split; [|split; [|split]]; cbn.
    + eapply writes_tables; [exact Htables|].
      apply (handle_writes (App.mk (Storage.core (Server.store srv)) (Server.regexState srv))
               (now, r)).
    + exact Hstories.
    + exact Hpayments.
    + apply (handle_invariants
               (App.mk (Storage.core (Server.store srv)) (Server.regexState srv)) (now, r));
        [exact (tables_fresh _ Htables) | exact Hinv].
  - unfold Api.register.
    destruct (Storage.getUserByEmail _ _);
      exact (conj Htables (conj Hstories (conj Hpayments Hinv))).
  - refine (conj Htables (conj Hstories (conj _ Hinv))). cbn. now apply ahead_next.
  - unfold Api.settlePayment.
    assert (H1 : Server.consistent
                   (fst (Storage.updatePayment (Server.store srv) (Payment.id payment)
                           (Payment.mkPartial (Some "completed")
                              (Some (Some (Api.transactionIdAt now))))))).
    { unfold Storage.updatePayment.
      destruct (Js.get (Storage.payments (Server.store srv)) (Payment.id payment))
        as [p|] eqn:Hget; cbn [fst].
      - refine (conj Htables (conj Hstories (conj _ Hinv))). cbn.
        now apply (ahead_existing _ _ _ p).
      - exact (conj Htables (conj Hstories (conj Hpayments Hinv))). }
    destruct (Storage.updatePayment (Server.store srv) (Payment.id payment) _) as [st1 r].
    cbn [fst] in H1. destruct H1 as (Htables1 & Hstories1 & Hpayments1 & Hinv1).
    destruct (MemStorage.getUser (Storage.core st1) (Payment.userId paymentData)) as [user|];
      [|exact (conj Htables1 (conj Hstories1 (conj Hpayments1 Hinv1)))].
    match goal with
    | |- context [MemStorage.updateUser ?c ?i ?u] =>
        pose proof (Server.WriteUser c i u) as Hw;
        pose proof (sameSwipes_updateUser c i u) as Hs
    end.
    split; [|split; [|split]]; cbn.
    + exact (write_tables _ _ Htables1 Hw).
    + exact Hstories1.
    + exact Hpayments1.
    + exact (sameSwipes_invariant _ _ Hs Hinv1).
  - refine (conj Htables (conj _ (conj Hpayments Hinv))). cbn. now apply ahead_next.
  - unfold Api.postArStoryView, Storage.incrementStoryViews.
    destruct (Js.get (Storage.arStories (Server.store srv)) id) as [story|] eqn:Hget; cbn.
    + refine (conj Htables (conj _ (conj Hpayments Hinv))).
      now apply (ahead_existing _ _ _ story).
    + exact (conj Htables (conj Hstories (conj Hpayments Hinv))).
  - pose proof (Server.WriteViolation now (Storage.core (Server.store srv)) violationData)
      as Hw.
    split; [|split; [|split]]; cbn.
    + exact (write_tables _ _ Htables Hw).
    + exact Hstories.
    + exact Hpayments.
    + intros a b. apply Hinv.
  - unfold Api.putUser, Storage.updateUser.
    destruct (Js.get (MemStorage.users (Storage.core (Server.store srv))) id);
      exact (conj Htables (conj Hstories (conj Hpayments Hinv))).
Qed.

Lemma run_consistent history srv :
  Server.consistent (Server.store srv) ->
  Server.consistent (Server.store (Server.run history srv)).
Proof.
  revert srv. induction history as [|timed history IH]; intros srv H; [exact H|].
  cbn. apply IH. now apply handle_consistent.
Qed.

Lemma start_wellFormed : Server.wellFormed (Server.store Server.start).
Proof.
  cbn. unfold Server.wellFormed, Server.coreWellFormed, Server.usersKeyed, Server.ahead. cbn.
  repeat split; try constructor.
Qed.

Lemma start_consistent : Server.consistent (Server.store Server.start).
Proof. exact (wellFormed_consistent _ start_wellFormed). Qed.

(** [MemStorage.updateUser] is [updateUser] on the updates of the
    handlers. *)
Lemma updateUser_ofPartial c id updates :
  Storage.updateUser c id (UserBody.ofPartial updates) = MemStorage.updateUser c id updates.
Proof. reflexivity. Qed.

(* ------------------------------------------------------------------ *)
(** * Users *)

Lemma find_set_new {V : Type} (f : V -> bool) (m : Js.jsmap V) (k : Z) (v : V) :
  find f (Js.values m) = None -> f v = true ->
  find f (Js.values (Js.set m k v)) = Some v.
Proof.
  intros Hnone Hv. induction m as [|[k' v'] m IH]; cbn in *.
  - now rewrite Hv.
  - destruct (f v') eqn:Hv'; [discriminate|].
    destruct (Z.eqb k' k); cbn; [now rewrite Hv | rewrite Hv'; now apply IH].
Qed.

Lemma NoDup_map_inj {A B : Type} (f : A -> B) (l : list A) (x y : A) :
  NoDup (map f l) -> In x l -> In y l -> f x = f y -> x = y.
Proof.
  induction l as [|a l IH]; cbn; [intros _ []|].
  intros Hnd Hx Hy Heq. inversion Hnd as [|? ? Hnotin Hnd']; subst.
  destruct Hx as [->|Hx], Hy as [->|Hy].
  - reflexivity.
  - exfalso. apply Hnotin. rewrite Heq. now apply in_map.
  - exfalso. apply Hnotin. rewrite <- Heq. now apply in_map.
  - now apply IH.
Qed.

(** X5.  [POST /api/register] looks at the email only: a stored email
    is answered with status 400 and the store as it was; any other
    request stores a user under the next id, with an empty wallet, no
    premium and no suspension, whom [getUser] finds by that id and
    [getUserByEmail] by the email.  The username is not looked at. *)
Theorem register_checks_email_only :
  forall st userData,
    (forall known,
        Storage.getUserByEmail (Storage.core st) (InsertUser.email userData) = Some known ->
        Api.register st userData = (st, Routes.Status 400 "User already exists"))
    /\ (Storage.getUserByEmail (Storage.core st) (InsertUser.email userData) = None ->
        let user :=
          User.mk (Storage.currentUserId st) (InsertUser.username userData)
                  (InsertUser.email userData) false
                  (InsertUser.latitude userData) (InsertUser.longitude userData)
                  0%float None in
        exists st',
          Api.register st userData = (st', Routes.Json user)
          /\ MemStorage.getUser (Storage.core st') (Storage.currentUserId st) = Some user
          /\ Storage.getUserByEmail (Storage.core st') (InsertUser.email userData)
             = Some user
          /\ Storage.currentUserId st' = (Storage.currentUserId st + 1)%Z).
Proof.
  intros st userData. unfold Api.register. split.
  - intros known ->. reflexivity.
  - intros Hnone. rewrite Hnone. eexists. split; [reflexivity|].
    cbn. unfold MemStorage.getUser. cbn. split; [apply get_set_same|].
    split; [|reflexivity].
    unfold Storage.getUserByEmail in *. cbn.
    apply find_set_new; [exact Hnone|]. cbn. apply String.eqb_refl.
Qed.

(** X6.  Along every history from the empty store in which no
    [PUT /api/users/:id] carries an id or an email in its body, a user
    found under an id carries that id and is the user that
    [getUserByEmail] finds for its email, and no two stored users share
    an email.  The body of a [PUT /api/users/:id] is not checked: with
    the id and the email of another stored user in it, the request
    leaves that user as it is and stores a second user with the same id
    and email under the key of the path. *)
Theorem stored_users_keep_id_and_email :
  (forall history,
      Forall (fun timed => Server.keepsIdentity (snd timed)) history ->
      let c := Storage.core (Server.store (Server.run history Server.start)) in
      (forall id user,
          MemStorage.getUser c id = Some user ->
          User.id user = id /\ Storage.getUserByEmail c (User.email user) = Some user)
      /\ (forall k1 u1 k2 u2,
            In (k1, u1) (MemStorage.users c) -> In (k2, u2) (MemStorage.users c) ->
            User.email u1 = User.email u2 -> k1 = k2 /\ u1 = u2))
  /\ (forall srv now ka kb a b,
        ka <> kb ->
        MemStorage.getUser (Storage.core (Server.store srv)) ka = Some a ->
        MemStorage.getUser (Storage.core (Server.store srv)) kb = Some b ->
        let updates :=
          UserBody.mk (Some (User.id a)) None (Some (User.email a)) None None None None None in
        let c' :=
          Storage.core (Server.store (Server.handle srv (now, Server.PutUser kb updates))) in
        snd (Api.putUser (Storage.core (Server.store srv)) kb updates)
        = Routes.Json (UserBody.merge b updates)
        /\ MemStorage.getUser c' ka = Some a
        /\ MemStorage.getUser c' kb = Some (UserBody.merge b updates)
        /\ User.id (UserBody.merge b updates) = User.id a
        /\ User.email (UserBody.merge b updates) = User.email a).
Proof.
  split.
  - intros history Hkeep c.
    destruct (run_wellFormed history Server.start Hkeep start_wellFormed)
      as (((Hkeys & Hemails) & _) & _).
    fold c in Hkeys, Hemails.
    assert (Hinj : forall k1 u1 k2 u2,
               In (k1, u1) (MemStorage.users c) -> In (k2, u2) (MemStorage.users c) ->
               User.email u1 = User.email u2 -> k1 = k2 /\ u1 = u2).
    { intros k1 u1 k2 u2 H1 H2 Heq.
      assert (E : (k1, u1) = (k2, u2))
        by exact (NoDup_map_inj (fun kv => User.email (snd kv)) _ _ _ Hemails H1 H2 Heq).
      now injection E as -> ->. }
    split; [|exact Hinj].
    intros id user Hget. unfold MemStorage.getUser in Hget.
    pose proof (get_In _ _ _ Hget) as Hin.
    rewrite Forall_forall in Hkeys. destruct (Hkeys _ Hin) as [Hid _]. cbn in Hid.
    split; [exact Hid|].
    unfold Storage.getUserByEmail.
    destruct (find _ (Js.values (MemStorage.users c))) as [found|] eqn:Hf.
    + apply find_some in Hf. destruct Hf as [Hfin Hfeq].
      apply String.eqb_eq in Hfeq. unfold Js.values in Hfin.
      apply in_map_iff in Hfin. destruct Hfin as ([k u] & Hsnd & Hkin). cbn in Hsnd. subst u.
      now destruct (Hinj _ _ _ _ Hkin Hin Hfeq) as [_ ->].
    + exfalso. assert (Hv : In user (Js.values (MemStorage.users c)))
        by (unfold Js.values; apply in_map_iff; now exists (id, user)).
      pose proof (find_none _ _ Hf _ Hv) as Hne. cbn in Hne.
      now rewrite String.eqb_refl in Hne.
  - intros srv now ka kb a b Hne Ha Hb updates c'. subst c'.
    cbn [Server.handle Server.store Storage.withCore Storage.core].
    unfold Api.putUser, Storage.updateUser.
    unfold MemStorage.getUser in Ha, Hb. rewrite Hb. cbn [fst snd].
    unfold MemStorage.getUser. cbn [MemStorage.users MemStorage.withUsers].
    rewrite get_set_other by exact Hne. rewrite get_set_same.
    repeat split; assumption.
Qed.

Lemma stored_users_keep_id_and_email_witness :
  let history :=
    [(1%Z, Server.Register (InsertUser.mk "ann" "ann@example.com" None None));
     (2%Z, Server.Register (InsertUser.mk "bob" "bob@example.com" None None));
     (3%Z, Server.PutUser 2
             (UserBody.mk None (Some "ann") None None None None (Some 25%float) None))] in
  let c := Storage.core (Server.store (Server.run history Server.start)) in
  let renamed := User.mk 2 "ann" "bob@example.com" false None None 25 None in
  MemStorage.getUser c 2 = Some renamed
  /\ Storage.getUserByEmail c "bob@example.com" = Some renamed.
Proof.
  cbv zeta. split; [reflexivity|].
  apply (proj1 (proj1 stored_users_keep_id_and_email
                  [(1%Z, Server.Register (InsertUser.mk "ann" "ann@example.com" None None));
                   (2%Z, Server.Register (InsertUser.mk "bob" "bob@example.com" None None));
                   (3%Z, Server.PutUser 2
                           (UserBody.mk None (Some "ann") None None None None
                              (Some 25%float) None))]
                  ltac:(repeat constructor))
           2%Z (User.mk 2 "ann" "bob@example.com" false None None 25 None) eq_refl).
Defined.

(** X7.  [updateUser] on an id that is not stored returns nothing and
    the store as it was; on a stored id it stores the merged user under
    that id, keeps the keys and their order, and leaves every other
    user and every other table as it was. *)
Theorem updateUser_touches_one_user :
  forall c id updates,
    (MemStorage.getUser c id = None -> MemStorage.updateUser c id updates = (c, None))
    /\ (forall user,
          MemStorage.getUser c id = Some user ->
          exists c',
            MemStorage.updateUser c id updates = (c', Some (User.merge user updates))
            /\ MemStorage.getUser c' id = Some (User.merge user updates)
            /\ (forall other, other <> id ->
                  MemStorage.getUser c' other = MemStorage.getUser c other)
            /\ map fst (MemStorage.users c') = map fst (MemStorage.users c)
            /\ c' = MemStorage.withUsers c (MemStorage.users c')).
Proof.
  intros c id updates. split; [apply updateUser_missing|].
  intros user Hget. rewrite (updateUser_found c id user updates Hget).
  eexists. split; [reflexivity|]. unfold MemStorage.getUser. cbn.
  split; [apply get_set_same|]. split; [|split; [|reflexivity]].
  - intros other Hne. now apply get_set_other.
  - now apply (map_set_existing fst _ id user).
Qed.

Lemma updateUser_touches_one_user_witness :
  option_map User.isPremium
    (MemStorage.getUser
       (fst (MemStorage.updateUser Sample.store 2 (User.mkPartial (Some true) None None))) 2)
  = Some true
  /\ MemStorage.getUser
       (fst (MemStorage.updateUser Sample.store 2 (User.mkPartial (Some true) None None))) 3
     = Some Sample.cat
  /\ MemStorage.updateUser Sample.store 9 (User.mkPartial (Some true) None None)
     = (Sample.store, None).
Proof.
  destruct (updateUser_touches_one_user Sample.store 2%Z (User.mkPartial (Some true) None None))
    as [_ Hfound].
  destruct (Hfound Sample.bob eq_refl) as (c' & Hupd & Hget & Hother & _).
  rewrite Hupd. cbn [fst]. split; [now rewrite Hget|]. split.
  - rewrite Hother by discriminate. reflexivity.
  - now apply (updateUser_touches_one_user Sample.store 9%Z).
Defined.

Lemma register_checks_email_only_witness :
  let ann := InsertUser.mk "ann" "ann@example.com" None None in
  let twin := InsertUser.mk "ann" "other@example.com" None None in
  let st1 := fst (Api.register Storage.empty ann) in
  Api.register st1 ann = (st1, Routes.Status 400 "User already exists")
  /\ exists st2,
       Api.register st1 twin
       = (st2, Routes.Json (User.mk 2 "ann" "other@example.com" false None None 0 None)).
Proof.
  cbv zeta. split.
  - apply (proj1 (register_checks_email_only
                    (fst (Api.register Storage.empty
                            (InsertUser.mk "ann" "ann@example.com" None None)))
                    (InsertUser.mk "ann" "ann@example.com" None None))
             (User.mk 1 "ann" "ann@example.com" false None None 0 None)).
    reflexivity.
  - destruct (proj2 (register_checks_email_only
                       (fst (Api.register Storage.empty
                               (InsertUser.mk "ann" "ann@example.com" None None)))
                       (InsertUser.mk "ann" "other@example.com" None None)) eq_refl)
      as (st2 & Hreg & _).
    exists st2. exact Hreg.
Defined.

(* ------------------------------------------------------------------ *)
(** * Payments *)

(** The settlement writes the payment and then at most one user. *)
Lemma settlePayment_user now st payment paymentData user :
  MemStorage.getUser (Storage.core st) (Payment.userId paymentData) = Some user ->
  MemStorage.getUser
    (Storage.core (Api.settlePayment now st payment paymentData))
    (Payment.userId paymentData)
  = Some (User.merge user
            (if String.eqb (Payment.type paymentData) "premium"
             then User.mkPartial (Some true) None None
             else if String.eqb (Payment.type paymentData) "fine"
             then User.mkPartial None None (Some None)
             else Api.credit user (Payment.amount paymentData))).
Proof.
  intros Huser. unfold Api.settlePayment.
  assert (Hcore : Storage.core
                    (fst (Storage.updatePayment st (Payment.id payment)
                            (Payment.mkPartial (Some "completed")
                               (Some (Some (Api.transactionIdAt now))))))
                  = Storage.core st).
  { unfold Storage.updatePayment.
    now destruct (Js.get (Storage.payments st) (Payment.id payment)). }
  destruct (Storage.updatePayment st (Payment.id payment) _) as [st1 r]. cbn [fst] in Hcore.
  rewrite Hcore, Huser. cbn [Storage.core Storage.withCore].
  erewrite updateUser_found by exact Huser. cbn [fst].
  unfold MemStorage.getUser. cbn. apply get_set_same.
Qed.

(** X8.  A settled payment of type "fine" clears the suspension of its
    user whatever its amount is: after a message with a detected phone
    number has suspended the sender, the settlement of any fine of that
    sender stores the sender as before the message, without suspension. *)
Theorem fine_of_any_amount_lifts_suspension :
  forall now st rs messageData user later payment amount method,
    fst (Routes.containsPhoneNumber rs (Message.content messageData)) = true ->
    MemStorage.getUser (Storage.core st) (Message.senderId messageData) = Some user ->
    let suspended :=
      Storage.withCore st
        (fst (fst (Routes.postMessage now (Storage.core st) rs messageData))) in
    let paid :=
      Api.settlePayment later suspended payment
        (Payment.mkInsert (Message.senderId messageData) amount "fine" method) in
    MemStorage.getUser (Storage.core suspended) (Message.senderId messageData)
    = Some (User.merge user
              (User.mkPartial None None (Some (Some (now + 24 * 60 * 60 * 1000)%Z))))
    /\ MemStorage.getUser (Storage.core paid) (Message.senderId messageData)
       = Some (User.merge user (User.mkPartial None None (Some None))).
Proof.
  intros now st rs messageData user later payment amount method Hhit Huser suspended paid.
  assert (Hs : MemStorage.getUser (Storage.core suspended) (Message.senderId messageData)
               = Some (User.merge user
                         (User.mkPartial None None
                            (Some (Some (now + 24 * 60 * 60 * 1000)%Z))))).
  { subst suspended. cbn [Storage.core Storage.withCore]. unfold Routes.postMessage.
    destruct (Routes.containsPhoneNumber rs (Message.content messageData)) as [hit rs'].
    cbn in Hhit. subst hit.
    destruct (MemStorage.createViolation now (Storage.core st) _) as [c1 v] eqn:Hv.
    unfold MemStorage.createViolation in Hv. injection Hv as <- _.
    erewrite updateUser_found by exact Huser. cbn [fst].
    unfold MemStorage.getUser. cbn. apply get_set_same. }
  split; [exact Hs|].
  subst paid.
  exact (settlePayment_user later suspended payment
           (Payment.mkInsert (Message.senderId messageData) amount "fine" method) _ Hs).
Qed.

Lemma fine_of_any_amount_lifts_suspension_witness :
  let st := Storage.withCore Storage.empty Sample.store in
  let suspended :=
    Storage.withCore st
      (fst (fst (Routes.postMessage 5000 Sample.store (Routes.mkRegexState 0 0)
                   (Sample.message 2 "call me at 555-123-4567")))) in
  let fine := Payment.mkInsert 2 0%float "fine" None in
  option_map User.suspendedUntil (MemStorage.getUser (Storage.core suspended) 2)
  = Some (Some 86405000%Z)
  /\ MemStorage.getUser
       (Storage.core
          (Api.settlePayment 9000 suspended (Payment.mk fine 1 "pending" None 7000) fine)) 2
     = Some Sample.bob.
Proof.
  cbv zeta.
  destruct (fine_of_any_amount_lifts_suspension 5000%Z
              (Storage.withCore Storage.empty Sample.store) (Routes.mkRegexState 0 0)
              (Sample.message 2 "call me at 555-123-4567") Sample.bob 9000%Z
              (Payment.mk (Payment.mkInsert 2 0%float "fine" None) 1 "pending" None 7000)
              0%float None eq_refl eq_refl) as [Hs Hp].
  split.
  - cbn [Storage.core Storage.withCore] in Hs |- *.
    cbn [Message.senderId Sample.message] in Hs. now rewrite Hs.
  - exact Hp.
Defined.

(** X9.  A settled payment whose type is neither "premium" nor "fine"
    (a top-up, also a payment of type "blind_date") adds its amount to
    the wallet of its user, and nothing marks it as settled for the
    next time: settled twice, it is added twice. *)
Theorem settled_payment_credits_each_time :
  forall now later st payment paymentData user,
    Payment.type paymentData <> "premium" ->
    Payment.type paymentData <> "fine" ->
    MemStorage.getUser (Storage.core st) (Payment.userId paymentData) = Some user ->
    let once := Api.settlePayment now st payment paymentData in
    let twice := Api.settlePayment later once payment paymentData in
    let balance := User.walletBalance user in
    let amount := Payment.amount paymentData in
    option_map User.walletBalance
      (MemStorage.getUser (Storage.core once) (Payment.userId paymentData))
    = Some (Js.printed (balance + amount)%float)
    /\ option_map User.walletBalance
         (MemStorage.getUser (Storage.core twice) (Payment.userId paymentData))
       = Some (Js.printed (Js.printed (balance + amount) + amount)%float).
Proof.
  intros now later st payment paymentData user Hp Hf Huser once twice balance amount.
  apply String.eqb_neq in Hp. apply String.eqb_neq in Hf.
  pose proof (settlePayment_user now st payment paymentData user Huser) as H1.
  rewrite Hp, Hf in H1. fold once in H1.
  pose proof (settlePayment_user later once payment paymentData _ H1) as H2.
  rewrite Hp, Hf in H2. fold twice in H2.
  rewrite H1, H2. split; reflexivity.
Qed.

Lemma settled_payment_credits_each_time_witness :
  let st := Storage.withCore Storage.empty Sample.store in
  let topup := Payment.mkInsert 4 30%float "wallet_topup" None in
  let posted := Api.postPayment 1000 st topup in
  let once := Api.settlePayment 3000 (fst posted) (Payment.mk topup 1 "pending" None 1000) topup in
  let twice := Api.settlePayment 3001 once (Payment.mk topup 1 "pending" None 1000) topup in
  snd posted = Routes.Json (Payment.mk topup 1 "pending" None 1000)
  /\ option_map User.walletBalance (MemStorage.getUser (Storage.core once) 4) = Some 50%float
  /\ option_map User.walletBalance (MemStorage.getUser (Storage.core twice) 4) = Some 80%float
  /\ Js.get (Storage.payments once) 1
     = Some (Payment.mk topup 1 "completed" (Some "txn_3000") 1000).
Proof.
  cbv zeta.
  destruct (settled_payment_credits_each_time 3000%Z 3001%Z
              (fst (Api.postPayment 1000 (Storage.withCore Storage.empty Sample.store)
                      (Payment.mkInsert 4 30%float "wallet_topup" None)))
              (Payment.mk (Payment.mkInsert 4 30%float "wallet_topup" None) 1 "pending" None 1000)
              (Payment.mkInsert 4 30%float "wallet_topup" None) Sample.dan)
    as [H1 H2]; [discriminate | discriminate | reflexivity |].
  split; [reflexivity|]. split; [exact H1|]. split; [exact H2|].
  vm_compute. reflexivity.
Defined.

(* ------------------------------------------------------------------ *)
(** * Messages *)

(** X10.  [markMessageAsRead] on an id that is not stored returns false
    and the store as it was; on a stored id it returns true and stores
    the message as read, under the same key and with every other
    message as it was; marking it again changes nothing. *)
Theorem markMessageAsRead_marks_one_message :
  forall c id,
    (Js.get (MemStorage.messages c) id = None ->
     Storage.markMessageAsRead c id = (c, false))
    /\ (forall message,
          Js.get (MemStorage.messages c) id = Some message ->
          let read :=
            Message.mk (Message.data message) (Message.id message) true
                       (Message.sentAt message) in
          exists c',
            Storage.markMessageAsRead c id = (c', true)
            /\ Js.get (MemStorage.messages c') id = Some read
            /\ (forall other, other <> id ->
                  Js.get (MemStorage.messages c') other = Js.get (MemStorage.messages c) other)
            /\ map fst (MemStorage.messages c') = map fst (MemStorage.messages c)
            /\ Storage.markMessageAsRead c' id = (c', true)).
Proof.
  intros c id. unfold Storage.markMessageAsRead. split; [now intros ->|].
  intros message Hget. rewrite Hget. eexists. split; [reflexivity|]. cbn.
  split; [apply get_set_same|]. split; [|split].
  - intros other Hne. now apply get_set_other.
  - now apply (map_set_existing fst _ id message).
  - rewrite get_set_same. cbn. unfold Storage.withMessages. cbn.
    now rewrite set_set_same.
Qed.

Lemma markMessageAsRead_marks_one_message_witness :
  let c := fst (MemStorage.createMessage 100 Sample.store (Sample.message 1 "hi")) in
  Js.values (MemStorage.messages (fst (Storage.markMessageAsRead c 1)))
  = [Message.mk (Sample.message 1 "hi") 1 true 100]
  /\ Storage.markMessageAsRead c 2 = (c, false).
Proof.
  cbv zeta.
  destruct (markMessageAsRead_marks_one_message
              (fst (MemStorage.createMessage 100 Sample.store (Sample.message 1 "hi"))) 1%Z)
    as [_ Hfound].
  destruct (Hfound (Message.mk (Sample.message 1 "hi") 1 false 100) eq_refl)
    as (c' & Hmark & _).
  split.
  - rewrite Hmark. cbn [fst]. injection Hmark as <-. reflexivity.
  - now apply (markMessageAsRead_marks_one_message
                 (fst (MemStorage.createMessage 100 Sample.store (Sample.message 1 "hi")))
                 2%Z).
Defined.

(** X11.  Along every history from the empty store, [POST /api/messages]
    adds exactly one row at the end of one list: a message without a
    detected phone number becomes the last message of its match, and
    every other match and the violations are as before; a message with
    one becomes the last violation of its sender, and the messages are
    as before. *)
Theorem postMessage_appends_one_row :
  forall history now messageData,
    let srv := Server.run history Server.start in
    let c := Storage.core (Server.store srv) in
    let result := Routes.postMessage now c (Server.regexState srv) messageData in
    let c' := fst (fst result) in
    if fst (Routes.containsPhoneNumber (Server.regexState srv) (Message.content messageData))
    then
      Storage.getUserViolations c' (Message.senderId messageData)
      = Storage.getUserViolations c (Message.senderId messageData)
        ++ [Violation.mk
              (Violation.mkInsert (Message.senderId messageData) None "phone_number"
                 (Some (Message.content messageData)) (Some "100.00"))
              (MemStorage.currentViolationId c) "pending" now]
      /\ MemStorage.messages c' = MemStorage.messages c
    else
      Storage.getMessagesByMatch c' (Message.matchId messageData)
      = Storage.getMessagesByMatch c (Message.matchId messageData)
        ++ [Message.mk messageData (MemStorage.currentMessageId c) false now]
      /\ (forall other, other <> Message.matchId messageData ->
            Storage.getMessagesByMatch c' other = Storage.getMessagesByMatch c other)
      /\ MemStorage.violations c' = MemStorage.violations c.
Proof.
  intros history now messageData srv c result c'.
  destruct (run_consistent history Server.start start_consistent)
    as ((_ & _ & Hmsg & _ & Hvio & _) & _).
  fold srv in Hmsg, Hvio. fold c in Hmsg, Hvio.
  subst c' result. unfold Routes.postMessage.
  destruct (Routes.containsPhoneNumber (Server.regexState srv) (Message.content messageData))
    as [[|] rs']; cbn [fst].
  - destruct (MemStorage.createViolation now c _) as [c1 v] eqn:Hv.
    unfold MemStorage.createViolation in Hv. injection Hv as <- _.
    match goal with
    | |- context [MemStorage.updateUser ?s ?i ?u] =>
        assert (Hsame : MemStorage.violations (fst (MemStorage.updateUser s i u))
                        = MemStorage.violations s
                        /\ MemStorage.messages (fst (MemStorage.updateUser s i u))
                           = MemStorage.messages s)
          by (unfold MemStorage.updateUser;
              destruct (Js.get (MemStorage.users s) i); split; reflexivity);
        destruct (MemStorage.updateUser s i u) as [c2 r]
    end.
    cbn [fst] in *. destruct Hsame as [Hv2 Hm2].
    unfold Storage.getUserViolations. rewrite Hv2, Hm2. cbn.
    rewrite set_fresh by (eapply Forall_impl; [|exact Hvio]; cbn; intros kv Hlt; lia).
    unfold Js.values. rewrite map_app, filter_app. cbn. rewrite Z.eqb_refl.
    split; reflexivity.
  - unfold Storage.getMessagesByMatch. cbn.
    rewrite set_fresh by (eapply Forall_impl; [|exact Hmsg]; cbn; intros kv Hlt; lia).
    unfold Js.values. rewrite map_app. split; [|split; [|reflexivity]].
    + rewrite filter_app. cbn. now rewrite Z.eqb_refl.
    + intros other Hne. rewrite filter_app. cbn.
      destruct (Z.eqb_spec (Message.matchId messageData) other); [congruence|].
      now rewrite app_nil_r.
Qed.

(* ------------------------------------------------------------------ *)
(** * Matches and blind dates in the lists that the users see *)

(** X12.  Along every history from the empty store, when each of two
    users has a stored like on the other, their one match is in the
    list of matches of both. *)
Theorem mutual_match_is_listed_for_both :
  forall history a b,
    let c := Storage.core (Server.store (Server.run history Server.start)) in
    App.liked c a b = true ->
    App.liked c b a = true ->
    exists m,
      App.pairMatches c a b = [m]
      /\ In m (MemStorage.getMatches c a)
      /\ In m (MemStorage.getMatches c b).
Proof.
  intros history a b c Hab Hba.
  destruct (run_consistent history Server.start start_consistent)
    as ((_ & _ & _ & _ & _ & _ & Hactive & _) & _ & _ & Hinv).
  fold c in Hactive, Hinv.
  specialize (Hinv a b). rewrite Hab, Hba in Hinv. cbn in Hinv.
  destruct (App.pairMatches c a b) as [|m [|m' rest]] eqn:Hpair; try discriminate.
  exists m. split; [reflexivity|].
  assert (Hin : In m (App.pairMatches c a b)) by (rewrite Hpair; now left).
  unfold App.pairMatches in Hin. apply filter_In in Hin. destruct Hin as [Hval Hjoins].
  assert (Hact : Match.isActive m = true).
  { unfold Js.values in Hval. apply in_map_iff in Hval.
    destruct Hval as ([k m0] & Heq & Hkin). cbn in Heq. subst m0.
    rewrite Forall_forall in Hactive. exact (Hactive _ Hkin). }
  unfold App.joins in Hjoins. unfold MemStorage.getMatches.
  split; apply filter_In; (split; [exact Hval|]); rewrite Hact, andb_true_r;
    destruct (Z.eqb (Match.user1Id (Match.data m)) a),
             (Z.eqb (Match.user2Id (Match.data m)) b),
             (Z.eqb (Match.user1Id (Match.data m)) b),
             (Z.eqb (Match.user2Id (Match.data m)) a);
    cbn in *; congruence.
Qed.

Lemma mutual_match_is_listed_for_both_witness :
  let history :=
    [(10%Z, Server.Handler (App.PostSwipe (Sample.like 7 200)));
     (20%Z, Server.Handler (App.PostSwipe (Sample.like 200 7)))] in
  let c := Storage.core (Server.store (Server.run history Server.start)) in
  exists m, In m (MemStorage.getMatches c 7) /\ In m (MemStorage.getMatches c 200).
Proof.
  cbv zeta.
  destruct (mutual_match_is_listed_for_both
              [(10%Z, Server.Handler (App.PostSwipe (Sample.like 7 200)));
               (20%Z, Server.Handler (App.PostSwipe (Sample.like 200 7)))] 7%Z 200%Z
              eq_refl eq_refl) as (m & _ & H7 & H200).
  exists m. now split.
Defined.

Lemma storedBlindDates_In c blindDate :
  In blindDate (Api.storedBlindDates c) <->
  exists id, (1 <= id <= 100)%Z /\ MemStorage.getBlindDate c id = Some blindDate.
Proof.
  unfold Api.storedBlindDates. rewrite in_flat_map. split.
  - intros (i & Hi & Hin). apply in_seq in Hi.
    exists (Z.of_nat (i + 1)). split; [lia|].
    destruct (MemStorage.getBlindDate c (Z.of_nat (i + 1))) as [b|]; [|contradiction].
    destruct Hin as [->|[]]. reflexivity.
  - intros (id & Hid & Hget). exists (Z.to_nat id - 1). split.
    + apply in_seq. lia.
    + replace (Z.of_nat (Z.to_nat id - 1 + 1)) with id by lia. rewrite Hget. now left.
Qed.

(** X13.  [GET /api/blind-dates/available] answers 404 for a user that
    is not stored; otherwise it lists exactly the blind dates stored
    under the ids 1 to 100 that are pending, are not the user's own and
    lie within the radius by the planar distance.  A blind date with an
    id above 100 is never listed. *)
Theorem available_blind_dates_are_the_first_hundred :
  forall c userId lat lng radius,
    (MemStorage.getUser c userId = None ->
     Api.getAvailableBlindDates c userId lat lng radius
     = Routes.Status 404 "User not found")
    /\ (forall user,
          MemStorage.getUser c userId = Some user ->
          exists listed,
            Api.getAvailableBlindDates c userId lat lng radius = Routes.Json listed
            /\ forall blindDate,
                 In blindDate listed <->
                 (exists id, (1 <= id <= 100)%Z
                             /\ MemStorage.getBlindDate c id = Some blindDate)
                 /\ BlindDate.status blindDate = "pending"
                 /\ BlindDate.user1Id (BlindDate.data blindDate) <> User.id user
                 /\ PrimFloat.leb
                      (MemStorage.distance lat lng
                         (BlindDate.centerLat (BlindDate.data blindDate))
                         (BlindDate.centerLng (BlindDate.data blindDate)))
                      radius = true).
Proof.
  intros c userId lat lng radius. unfold Api.getAvailableBlindDates. split; [now intros ->|].
  intros user ->. eexists. split; [reflexivity|].
  intros blindDate. rewrite filter_In, storedBlindDates_In. unfold Routes.available.
  destruct (String.eqb_spec (BlindDate.status blindDate) "pending") as [Hs|Hs];
    destruct (Z.eqb_spec (BlindDate.user1Id (BlindDate.data blindDate)) (User.id user))
      as [Hu|Hu]; cbn; split; intros H; try tauto;
    try (destruct H as [_ H]; discriminate);
    try (destruct H as (_ & H1 & H2 & _); congruence).
Qed.

Lemma available_blind_dates_are_the_first_hundred_witness :
  let pending := fst (Routes.postBlindDate 1000 Sample.store (Sample.dinner 1 50%float)) in
  Api.getAvailableBlindDates pending 2 0 0 25
  = Routes.Json [BlindDate.mk (Sample.dinner 1 50%float) 1 None "pending" None 1000]
  /\ Api.getAvailableBlindDates pending 1 0 0 25 = Routes.Json []
  /\ Api.getAvailableBlindDates pending 9 0 0 25 = Routes.Status 404 "User not found".
Proof.
  cbv zeta. split; [vm_compute; reflexivity|]. split; [vm_compute; reflexivity|].
  apply (available_blind_dates_are_the_first_hundred
           (fst (Routes.postBlindDate 1000 Sample.store (Sample.dinner 1 50%float)))
           9%Z 0%float 0%float 25%float).
  reflexivity.
Defined.

Lemma postJoinBlindDate_stores_matched now c blindDateId userId user blindDate :
  MemStorage.getUser c userId = Some user ->
  MemStorage.getBlindDate c blindDateId = Some blindDate ->
  PrimFloat.ltb (User.walletBalance user) (BlindDate.amount (BlindDate.data blindDate))
  = false ->
  exists joined,
    MemStorage.getBlindDate (fst (Routes.postJoinBlindDate now c blindDateId userId))
      blindDateId = Some joined
    /\ BlindDate.status joined = "matched".
Proof.
  intros Huser Hdate Hlt.
  unfold Routes.postJoinBlindDate. rewrite Huser, Hdate, Hlt.
  unfold MemStorage.matchBlindDate, MemStorage.updateBlindDate.
  unfold MemStorage.getBlindDate in Hdate. rewrite Hdate.
  erewrite updateUser_found by exact Huser.
  eexists. unfold MemStorage.getBlindDate. cbn. rewrite get_set_same. now split.
Qed.

Lemma keyed_values_get (c : MemStorage.t) blindDate :
  Forall (fun kv => BlindDate.id (snd kv) = fst kv) (MemStorage.blindDates c) ->
  NoDup (map fst (MemStorage.blindDates c)) ->
  In blindDate (Js.values (MemStorage.blindDates c)) ->
  MemStorage.getBlindDate c (BlindDate.id blindDate) = Some blindDate.
Proof.
  intros Hkeyed Hnd Hin. unfold Js.values in Hin. apply in_map_iff in Hin.
  destruct Hin as ([k b] & Heq & Hkin). cbn in Heq. subst b.
  rewrite Forall_forall in Hkeyed. pose proof (Hkeyed _ Hkin) as Hid. cbn in Hid.
  rewrite Hid. unfold MemStorage.getBlindDate.
  destruct (Js.get (MemStorage.blindDates c) k) as [b'|] eqn:Hget.
  - apply get_In in Hget.
    assert (E : (k, b') = (k, blindDate))
      by exact (NoDup_map_inj fst _ _ _ Hnd Hget Hkin eq_refl).
    now injection E as ->.
  - exfalso. pose proof (get_None_keys _ _ Hget) as Hkeys.
    rewrite Forall_forall in Hkeys. exact (Hkeys _ Hkin eq_refl).
Qed.

(** X14.  Along every history from the empty store: an accepted create
    request puts the new blind date at the end of its creator's active
    list; after an accepted join of a blind date, no active list and no
    list of available blind dates holds a blind date with its id. *)
Theorem blind_date_enters_and_leaves_the_lists :
  forall history,
    let c := Storage.core (Server.store (Server.run history Server.start)) in
    (forall now blindDateData user,
        MemStorage.getUser c (BlindDate.user1Id blindDateData) = Some user ->
        PrimFloat.ltb (User.walletBalance user) (BlindDate.amount blindDateData) = false ->
        let c' := fst (Routes.postBlindDate now c blindDateData) in
        Storage.getActiveBlindDates c' (BlindDate.user1Id blindDateData)
        = Storage.getActiveBlindDates c (BlindDate.user1Id blindDateData)
          ++ [BlindDate.mk blindDateData (MemStorage.currentBlindDateId c) None "pending"
                None now])
    /\ (forall now blindDateId userId user blindDate,
          MemStorage.getUser c userId = Some user ->
          MemStorage.getBlindDate c blindDateId = Some blindDate ->
          PrimFloat.ltb (User.walletBalance user)
                        (BlindDate.amount (BlindDate.data blindDate)) = false ->
          let c' := fst (Routes.postJoinBlindDate now c blindDateId userId) in
          (forall anyone listed,
              In listed (Storage.getActiveBlindDates c' anyone) ->
              BlindDate.id listed <> blindDateId)
          /\ (forall anyone lat lng radius listed,
                Api.getAvailableBlindDates c' anyone lat lng radius = Routes.Json listed ->
                forall b, In b listed -> BlindDate.id b <> blindDateId)).
Proof.
  intros history c.
  destruct (run_consistent history Server.start start_consistent) as (Hcore & _).
  fold c in Hcore. split.
  - intros now blindDateData user Huser Hlt c'. subst c'.
    destruct Hcore as (_ & _ & _ & Hahead & _).
    unfold Routes.postBlindDate. rewrite Huser, Hlt.
    destruct (MemStorage.createBlindDate now c blindDateData) as [c1 bd] eqn:Hc.
    unfold MemStorage.createBlindDate in Hc. injection Hc as <- <-.
    match goal with
    | |- context [MemStorage.updateUser ?s ?i ?u] =>
        pose proof (blindDates_updateUser s i u) as H;
        destruct (MemStorage.updateUser s i u) as [c2 r]
    end.
    cbn [fst] in *. unfold Storage.getActiveBlindDates. rewrite H. cbn.
    rewrite set_fresh by (eapply Forall_impl; [|exact Hahead]; cbn; intros kv Hk; lia).
    unfold Js.values. rewrite map_app, filter_app. cbn. now rewrite Z.eqb_refl.
  - intros now blindDateId userId user blindDate Huser Hdate Hlt c'.
    assert (Hwf' : Server.tables c').
    { eapply writes_tables; [exact Hcore|]. apply postJoinBlindDate_writes. }
    destruct Hwf' as (_ & _ & _ & _ & _ & Hkeyed & _ & Hnd).
    assert (Hjoined : exists joined,
               MemStorage.getBlindDate c' blindDateId = Some joined
               /\ BlindDate.status joined = "matched").
    { exact (postJoinBlindDate_stores_matched now c blindDateId userId user blindDate
               Huser Hdate Hlt). }
    destruct Hjoined as (joined & Hget & Hstatus).
    assert (Hpending : forall b,
               In b (Js.values (MemStorage.blindDates c')) ->
               BlindDate.status b = "pending" -> BlindDate.id b <> blindDateId).
    { intros b Hin Hp Hid.
      pose proof (keyed_values_get c' b Hkeyed Hnd Hin) as Hb. rewrite Hid, Hget in Hb.
      injection Hb as ->. rewrite Hstatus in Hp. discriminate. }
    split.
    + intros anyone listed Hin. unfold Storage.getActiveBlindDates in Hin.
      apply filter_In in Hin. destruct Hin as [Hval Hf].
      apply andb_true_iff in Hf. destruct Hf as [_ Hp]. apply String.eqb_eq in Hp.
      now apply Hpending.
    + intros anyone lat lng radius listed Hresp b Hin.
      unfold Api.getAvailableBlindDates in Hresp.
      destruct (MemStorage.getUser c' anyone) as [u|]; [|discriminate].
      injection Hresp as <-. apply filter_In in Hin. destruct Hin as [Hstored Hav].
      apply storedBlindDates_In in Hstored. destruct Hstored as (id & _ & Hgetb).
      unfold Routes.available in Hav.
      destruct (String.eqb_spec (BlindDate.status b) "pending") as [Hp|Hp];
        [|discriminate].
      apply Hpending; [|exact Hp].
      unfold MemStorage.getBlindDate in Hgetb. apply get_In in Hgetb.
      unfold Js.values. apply in_map_iff. now exists (id, b).
Qed.

Lemma blind_date_enters_and_leaves_the_lists_witness :
  let history :=
    [(1%Z, Server.Register (InsertUser.mk "ann" "ann@example.com" None None));
     (2%Z, Server.Register (InsertUser.mk "bob" "bob@example.com" None None))] in
  let c := Storage.core (Server.store (Server.run history Server.start)) in
  let opened := fst (Routes.postBlindDate 10 c (Sample.dinner 1 0%float)) in
  Storage.getActiveBlindDates opened 1
  = [BlindDate.mk (Sample.dinner 1 0%float) 1 None "pending" None 10].
Proof.
  cbv zeta.
  exact (proj1 (blind_date_enters_and_leaves_the_lists
                  [(1%Z, Server.Register (InsertUser.mk "ann" "ann@example.com" None None));
                   (2%Z, Server.Register (InsertUser.mk "bob" "bob@example.com" None None))])
           10%Z (Sample.dinner 1 0%float)
           (User.mk 1 "ann" "ann@example.com" false None None 0 None) eq_refl eq_refl).
Defined.

(* ------------------------------------------------------------------ *)
(** * AR stories *)

(** X15.  [getArStoriesNearby] returns the stored stories that have not
    expired before the clock reading and lie within the radius, in
    meters, by the planar distance; the radius that a story carries is
    not looked at.  A story that is not returned at one time for a query
    is not returned for it at any later time. *)
Theorem expired_stories_are_never_returned :
  forall st lat lng radius story,
    (forall now,
        In story (Storage.getArStoriesNearby now st lat lng radius) <->
        In story (Js.values (Storage.arStories st))
        /\ (now <= ArStory.expiresAt (ArStory.data story))%Z
        /\ PrimFloat.leb
             (PrimFloat.sqrt
                ((lat - ArStory.latitude (ArStory.data story))
                 * (lat - ArStory.latitude (ArStory.data story))
                 + (lng - ArStory.longitude (ArStory.data story))
                   * (lng - ArStory.longitude (ArStory.data story))) * 111000)%float
             radius = true)
    /\ (forall now later,
          (now <= later)%Z ->
          In story (Storage.getArStoriesNearby later st lat lng radius) ->
          In story (Storage.getArStoriesNearby now st lat lng radius)).
Proof.
  intros st lat lng radius story.
  assert (Hiff : forall now,
             In story (Storage.getArStoriesNearby now st lat lng radius) <->
             In story (Js.values (Storage.arStories st))
             /\ (now <= ArStory.expiresAt (ArStory.data story))%Z
             /\ PrimFloat.leb
                  (PrimFloat.sqrt
                     ((lat - ArStory.latitude (ArStory.data story))
                      * (lat - ArStory.latitude (ArStory.data story))
                      + (lng - ArStory.longitude (ArStory.data story))
                        * (lng - ArStory.longitude (ArStory.data story))) * 111000)%float
                  radius = true).
  { intros now. unfold Storage.getArStoriesNearby. rewrite filter_In.
    unfold Storage.storyNearby, Storage.storyDistance.
    destruct (Z.ltb_spec (ArStory.expiresAt (ArStory.data story)) now) as [Hlt|Hge].
    - split; [intros [_ H]; discriminate | intros (_ & H & _); lia].
    - tauto. }
  split; [exact Hiff|].
  intros now later Hle Hin. apply Hiff. apply Hiff in Hin.
  destruct Hin as (H1 & H2 & H3). repeat split; [exact H1 | lia | exact H3].
Qed.

(** X16.  A view of a story that is not stored is answered 404 and
    changes nothing; [n] views of a stored story are all answered with
    success and raise its view count by [n], whatever its expiry is. *)
Theorem story_views_count_the_requests :
  forall st id,
    (Js.get (Storage.arStories st) id = None ->
     Api.postArStoryView st id = (st, Routes.Status 404 "Story not found"))
    /\ (forall story n,
          Js.get (Storage.arStories st) id = Some story ->
          let st' := Nat.iter n (fun s => fst (Api.postArStoryView s id)) st in
          Js.get (Storage.arStories st') id
          = Some (ArStory.mk (ArStory.data story) (ArStory.id story)
                    (ArStory.views story + Z.of_nat n) (ArStory.createdAt story))
          /\ snd (Api.postArStoryView st' id) = Routes.Json true).
Proof.
  intros st id. split.
  - intros Hnone. unfold Api.postArStoryView, Storage.incrementStoryViews.
    now rewrite Hnone.
  - intros story n Hget.
    assert (Hn : Js.get (Storage.arStories
                           (Nat.iter n (fun s => fst (Api.postArStoryView s id)) st)) id
                 = Some (ArStory.mk (ArStory.data story) (ArStory.id story)
                           (ArStory.views story + Z.of_nat n) (ArStory.createdAt story))).
    { induction n as [|n IH].
      - cbn. rewrite Hget, Z.add_0_r. now destruct story.
      - rewrite Nat.iter_succ.
        set (prev := Nat.iter n (fun s => fst (Api.postArStoryView s id)) st) in *.
        unfold Api.postArStoryView, Storage.incrementStoryViews.
        rewrite IH. cbn. rewrite get_set_same. do 2 f_equal. lia. }
    split; [exact Hn|].
    set (st' := Nat.iter n (fun s => fst (Api.postArStoryView s id)) st) in *.
    unfold Api.postArStoryView, Storage.incrementStoryViews. now rewrite Hn.
Qed.

Lemma story_views_count_the_requests_witness :
  let story := ArStory.mkInsert 1 "clip.mp4" 0%float 0%float 100 5000 in
  let st := fst (Api.postArStory 1000 Storage.empty story) in
  let viewed := Nat.iter 3 (fun s => fst (Api.postArStoryView s 1)) st in
  Js.get (Storage.arStories viewed) 1 = Some (ArStory.mk story 1 3 1000)
  /\ Storage.getArStoriesNearby 5000 viewed 0 0 500 = [ArStory.mk story 1 3 1000]
  /\ Storage.getArStoriesNearby 5001 viewed 0 0 500 = []
  /\ Api.postArStoryView st 2 = (st, Routes.Status 404 "Story not found").
Proof.
  cbv zeta.
  destruct (story_views_count_the_requests
              (fst (Api.postArStory 1000 Storage.empty
                      (ArStory.mkInsert 1 "clip.mp4" 0%float 0%float 100 5000))) 1%Z)
    as [_ Hviews].
  destruct (Hviews (ArStory.mk (ArStory.mkInsert 1 "clip.mp4" 0%float 0%float 100 5000)
                      1 0 1000) 3 eq_refl) as [Hget _].
  split; [exact Hget|]. split; [vm_compute; reflexivity|]. split; [vm_compute; reflexivity|].
  apply (story_views_count_the_requests
           (fst (Api.postArStory 1000 Storage.empty
                   (ArStory.mkInsert 1 "clip.mp4" 0%float 0%float 100 5000))) 2%Z).
  reflexivity.
Defined.

(* ------------------------------------------------------------------ *)
(** * The content moderator: verdicts and configuration *)

Lemma arrIncludes_In xs x : Js.arrIncludes xs x = true <-> In x xs.
Proof.
  unfold Js.arrIncludes. rewrite existsb_exists. split.
  - intros (y & Hin & Heq). apply String.eqb_eq in Heq. now subst.
  - intros Hin. exists x. split; [exact Hin | apply String.eqb_refl].
Qed.

Lemma dedupFrom_In seen xs x :
  In x (Js.dedupFrom seen xs) <-> In x xs /\ ~ In x seen.
Proof.
  revert seen. induction xs as [|y xs IH]; intros seen; cbn; [tauto|].
  destruct (existsb (String.eqb y) seen) eqn:Hy.
  - apply (arrIncludes_In seen y) in Hy. rewrite IH. split.
    + intros [H1 H2]. split; [now right | exact H2].
    + intros [[->|H1] H2]; [contradiction | now split].
  - assert (Hny : ~ In y seen).
    { intros Hin. apply (arrIncludes_In seen y) in Hin.
      unfold Js.arrIncludes in Hin. congruence. }
    cbn. rewrite IH. cbn. split.
    + intros [->|[H1 H2]]; [split; [now left | exact Hny]|].
      split; [now right | tauto].
    + intros [[->|H1] H2]; [now left|].
      destruct (String.eqb_spec y x) as [->|Hne]; [now left|].
      right. split; [exact H1|]. intros [H|H]; [congruence | contradiction].
Qed.

Lemma dedupFrom_NoDup seen xs : NoDup (Js.dedupFrom seen xs).
Proof.
  revert seen. induction xs as [|y xs IH]; intros seen; cbn; [constructor|].
  destruct (existsb (String.eqb y) seen); [apply IH|].
  constructor; [|apply IH]. rewrite dedupFrom_In. intros [_ H]. apply H. now left.
Qed.

Lemma moderateContent_fields config text :
  let acc :=
    ContentModerator.customStep config text
      (ContentModerator.spamStep config text
         (ContentModerator.inappropriateStep config text
            (ContentModerator.phoneStep config text ([], [], 0%float)))) in
  ContentModerator.moderateContent config text
  = ContentModerator.mkResult (0 <? List.length (fst (fst acc))) (fst (fst acc)) (snd acc)
      (Js.dedup (snd (fst acc))) (ContentModerator.generateSuggestions (fst (fst acc))).
Proof.
  cbv zeta. unfold ContentModerator.moderateContent.
  now destruct (ContentModerator.customStep config text _) as [[v f] m].
Qed.

(** Each step of [moderateContent] keeps the violations found so far in
    front of its own. *)
Lemma inappropriateStep_keeps config text acc :
  exists more,
    fst (fst (ContentModerator.inappropriateStep config text acc)) = fst (fst acc) ++ more.
Proof.
  destruct acc as [[v f] m]. unfold ContentModerator.inappropriateStep.
  destruct (ContentModerator.checkInappropriateContent config);
    [|exists []; cbn; now rewrite app_nil_r].
  destruct (0 <? _); [eexists; reflexivity | exists []; cbn; now rewrite app_nil_r].
Qed.

Lemma spamStep_keeps config text acc :
  exists more,
    fst (fst (ContentModerator.spamStep config text acc)) = fst (fst acc) ++ more.
Proof.
  destruct acc as [[v f] m]. unfold ContentModerator.spamStep.
  destruct (ContentModerator.checkSpam config);
    [|exists []; cbn; now rewrite app_nil_r].
  destruct (ContentModerator.isSpam _);
    [eexists; reflexivity | exists []; cbn; now rewrite app_nil_r].
Qed.

Lemma customStep_keeps config text acc :
  exists more,
    fst (fst (ContentModerator.customStep config text acc)) = fst (fst acc) ++ more.
Proof.
  destruct acc as [[v f] m]. unfold ContentModerator.customStep.
  destruct (0 <? _); [eexists; reflexivity | exists []; cbn; now rewrite app_nil_r].
Qed.

(** X17.  A text in which [quickPhoneCheck] finds a phone number is a
    violation for [quickModerationCheck], with "phone_number" as the
    first violation type. *)
Theorem phone_check_implies_moderation_check :
  forall text,
    ContentModerator.quickPhoneCheck text = true ->
    ContentModerator.quickModerationCheck text = true
    /\ exists more,
         ContentModerator.violationType
           (ContentModerator.moderateContent ContentModerator.defaultConfig text)
         = "phone_number" :: more.
Proof.
  intros text Hphone.
  unfold ContentModerator.quickModerationCheck.
  rewrite moderateContent_fields. cbv zeta. cbn [ContentModerator.isViolation
                                                  ContentModerator.violationType].
  set (a1 := ContentModerator.phoneStep ContentModerator.defaultConfig text ([], [], 0%float)).
  assert (H1 : fst (fst a1) = ["phone_number"]).
  { subst a1. unfold ContentModerator.phoneStep. cbn [ContentModerator.checkPhoneNumbers
      ContentModerator.defaultConfig].
    unfold ContentModerator.quickPhoneCheck in Hphone.
    change (ContentModerator.mkConfig false true true true [])
      with ContentModerator.defaultConfig in Hphone.
    now rewrite Hphone. }
  destruct (inappropriateStep_keeps ContentModerator.defaultConfig text a1) as [m2 H2].
  destruct (spamStep_keeps ContentModerator.defaultConfig text
              (ContentModerator.inappropriateStep ContentModerator.defaultConfig text a1))
    as [m3 H3].
  destruct (customStep_keeps ContentModerator.defaultConfig text
              (ContentModerator.spamStep ContentModerator.defaultConfig text
                 (ContentModerator.inappropriateStep ContentModerator.defaultConfig text a1)))
    as [m4 H4].
  rewrite H4, H3, H2, H1. cbn. split; [reflexivity|]. eexists. reflexivity.
Qed.

Lemma phone_check_implies_moderation_check_witness :
  ContentModerator.quickModerationCheck "call me at 555-123-4567" = true.
Proof.
  apply (phone_check_implies_moderation_check "call me at 555-123-4567").
  vm_compute. reflexivity.
Defined.

Lemma includes_empty s : Js.includes s "" = true.
Proof. unfold Js.includes. cbn. now destruct (Js.chars s). Qed.

Lemma hits_In lowerText words word :
  In word (ContentModerator.hits lowerText words) <->
  In word words /\ Js.includes lowerText (Js.toLowerCase word) = true.
Proof. unfold ContentModerator.hits. rewrite filter_In. reflexivity. Qed.

(** X18.  The custom blocked words apply whatever the configuration
    switches are: a text that contains one of them, in any case, is a
    violation with the type "custom_blocked" and the word among the
    flagged content.  The empty word is contained in every text.  With
    the three checks off and no blocked word, no text is a violation. *)
Theorem custom_blocked_words_always_apply :
  (forall config text word,
      In word (ContentModerator.customBlockedWords config) ->
      Js.includes (Js.toLowerCase text) (Js.toLowerCase word) = true ->
      let result := ContentModerator.moderateContent config text in
      ContentModerator.isViolation result = true
      /\ In "custom_blocked" (ContentModerator.violationType result)
      /\ In word (ContentModerator.flaggedContent result))
  /\ (forall config text,
        In "" (ContentModerator.customBlockedWords config) ->
        ContentModerator.isViolation (ContentModerator.moderateContent config text) = true)
  /\ (forall strict text,
        ContentModerator.moderateContent
          (ContentModerator.mkConfig strict false false false []) text
        = ContentModerator.mkResult false [] 0 [] []).
Proof.
  assert (Hword : forall config text word,
             In word (ContentModerator.customBlockedWords config) ->
             Js.includes (Js.toLowerCase text) (Js.toLowerCase word) = true ->
             let result := ContentModerator.moderateContent config text in
             ContentModerator.isViolation result = true
             /\ In "custom_blocked" (ContentModerator.violationType result)
             /\ In word (ContentModerator.flaggedContent result)).
  { intros config text word Hin Hinc result. subst result.
    rewrite moderateContent_fields. cbv zeta.
    cbn [ContentModerator.isViolation ContentModerator.violationType
           ContentModerator.flaggedContent].
    set (acc := ContentModerator.spamStep config text _).
    destruct acc as [[v f] m]. unfold ContentModerator.customStep.
    assert (Hhit : In word (ContentModerator.checkCustomBlockedWords config text))
      by (unfold ContentModerator.checkCustomBlockedWords; now apply hits_In).
    destruct (ContentModerator.checkCustomBlockedWords config text) as [|w ws] eqn:Hc;
      [contradiction|].
    cbn [List.length Nat.ltb Nat.leb fst snd].
    split; [|split].
    - rewrite length_app, Nat.add_1_r. reflexivity.
    - apply in_or_app. right. now left.
    - unfold Js.dedup. apply dedupFrom_In. split; [|intros []].
      apply in_or_app. now right. }
  split; [exact Hword|]. split.
  - intros config text Hin.
    apply (Hword config text "" Hin). apply includes_empty.
  - intros strict text. reflexivity.
Qed.

Lemma custom_blocked_words_always_apply_witness :
  let config := ContentModerator.mkConfig false false false false ["Zebra"] in
  ContentModerator.isViolation
    (ContentModerator.moderateContent config "a zebra crossing") = true
  /\ ContentModerator.isViolation
       (ContentModerator.moderateContent config "call 555-123-4567") = false.
Proof.
  cbv zeta. split; [|vm_compute; reflexivity].
  apply (proj1 custom_blocked_words_always_apply
           (ContentModerator.mkConfig false false false false ["Zebra"])
           "a zebra crossing" "Zebra").
  - now left.
  - vm_compute. reflexivity.
Defined.

(** X19.  [removeBlockedWords] removes every copy of each word it is
    given and nothing else; after [addBlockedWords] of the same words it
    gives what it gives without it; [addBlockedWords] puts its words
    after the stored ones, also those that are stored already. *)
Theorem removeBlockedWords_removes_every_copy :
  forall config words,
    (forall word,
        In word (ContentModerator.customBlockedWords
                   (ModeratorConfig.removeBlockedWords config words)) <->
        In word (ContentModerator.customBlockedWords config) /\ ~ In word words)
    /\ ModeratorConfig.removeBlockedWords (ModeratorConfig.addBlockedWords config words) words
       = ModeratorConfig.removeBlockedWords config words
    /\ ContentModerator.customBlockedWords (ModeratorConfig.addBlockedWords config words)
       = ContentModerator.customBlockedWords config ++ words.
Proof.
  intros config words. split; [|split; [|reflexivity]].
  - intros word. cbn. rewrite filter_In, negb_true_iff.
    split; intros [H1 H2]; (split; [exact H1|]).
    + intros Hin. apply arrIncludes_In in Hin. congruence.
    + destruct (Js.arrIncludes words word) eqn:E; [|reflexivity].
      apply arrIncludes_In in E. contradiction.
  - unfold ModeratorConfig.removeBlockedWords, ModeratorConfig.addBlockedWords,
      ModeratorConfig.withWords. cbn. f_equal. rewrite filter_app.
    assert (Hnone : filter (fun word => negb (Js.arrIncludes words word)) words = []).
    { assert (H : forall l, (forall w, In w l -> In w words) ->
                            filter (fun word => negb (Js.arrIncludes words word)) l = []).
      { induction l as [|w l IH]; intros Hsub; [reflexivity|]. cbn.
        rewrite (proj2 (arrIncludes_In words w)) by (apply Hsub; now left). cbn.
        apply IH. intros w' Hw'. apply Hsub. now right. }
      now apply H. }
    now rewrite Hnone, app_nil_r.
Qed.

(** A step of [moderateContent] that leaves no violation leaves the
    accumulators as they were. *)
Lemma phoneStep_clean config text acc :
  fst (fst (ContentModerator.phoneStep config text acc)) = [] ->
  ContentModerator.phoneStep config text acc = acc.
Proof.
  destruct acc as [[v f] m]. unfold ContentModerator.phoneStep.
  destruct (ContentModerator.checkPhoneNumbers config); [|reflexivity].
  destruct (0 <? _); [|reflexivity].
  cbn [fst]. intros H. apply app_eq_nil in H. destruct H as [_ H]. discriminate.
Qed.

Lemma inappropriateStep_clean config text acc :
  fst (fst (ContentModerator.inappropriateStep config text acc)) = [] ->
  ContentModerator.inappropriateStep config text acc = acc.
Proof.
  destruct acc as [[v f] m]. unfold ContentModerator.inappropriateStep.
  destruct (ContentModerator.checkInappropriateContent config); [|reflexivity].
  destruct (0 <? _) eqn:E; [|reflexivity].
  cbn [fst]. intros H. apply app_eq_nil in H. destruct H as [_ H].
  rewrite H in E. discriminate.
Qed.

Lemma spamStep_clean config text acc :
  fst (fst (ContentModerator.spamStep config text acc)) = [] ->
  ContentModerator.spamStep config text acc = acc.
Proof.
  destruct acc as [[v f] m]. unfold ContentModerator.spamStep.
  destruct (ContentModerator.checkSpam config); [|reflexivity].
  destruct (ContentModerator.isSpam _); [|reflexivity].
  cbn [fst]. intros H. apply app_eq_nil in H. destruct H as [_ H]. discriminate.
Qed.

Lemma customStep_clean config text acc :
  fst (fst (ContentModerator.customStep config text acc)) = [] ->
  ContentModerator.customStep config text acc = acc.
Proof.
  destruct acc as [[v f] m]. unfold ContentModerator.customStep.
  destruct (0 <? _); [|reflexivity].
  cbn [fst]. intros H. apply app_eq_nil in H. destruct H as [_ H]. discriminate.
Qed.

(** X20.  A verdict without violation carries nothing else: no flagged
    content, confidence 0 and no suggestion.  The flagged content of
    every verdict holds each text once. *)
Theorem clean_verdict_is_empty :
  forall config text,
    let result := ContentModerator.moderateContent config text in
    NoDup (ContentModerator.flaggedContent result)
    /\ (ContentModerator.isViolation result = false ->
        result = ContentModerator.mkResult false [] 0 [] []).
Proof.
  intros config text result. subst result. rewrite moderateContent_fields. cbv zeta.
  cbn [ContentModerator.flaggedContent ContentModerator.isViolation].
  split; [apply dedupFrom_NoDup|].
  intros Hclean.
  set (a1 := ContentModerator.phoneStep config text ([], [], 0%float)) in *.
  set (a2 := ContentModerator.inappropriateStep config text a1) in *.
  set (a3 := ContentModerator.spamStep config text a2) in *.
  assert (H4 : fst (fst (ContentModerator.customStep config text a3)) = []).
  { destruct (fst (fst (ContentModerator.customStep config text a3)));
      [reflexivity | discriminate]. }
  assert (E4 := customStep_clean config text a3 H4).
  rewrite E4 in H4 |- *. clear Hclean E4.
  assert (E3 := spamStep_clean config text a2 H4).
  subst a3. rewrite E3 in H4 |- *. clear E3.
  assert (E2 := inappropriateStep_clean config text a1 H4).
  subst a2. rewrite E2 in H4 |- *. clear E2.
  assert (E1 := phoneStep_clean config text _ H4).
  subst a1. rewrite E1. reflexivity.
Qed.

Lemma clean_verdict_is_empty_witness :
  ContentModerator.moderateContent ContentModerator.defaultConfig "see you at 7"
  = ContentModerator.mkResult false [] 0 [] [].
Proof.
  apply (proj2 (clean_verdict_is_empty ContentModerator.defaultConfig "see you at 7")).
  vm_compute. reflexivity.
Defined.

(* ------------------------------------------------------------------ *)
(** * Discovery, swipes and profiles *)

Lemma swipedIds_In c userId z :
  In z (Api.swipedIds c userId) <->
  (1 <= z <= 100)%Z /\ MemStorage.getSwipe c userId z <> None.
Proof.
  unfold Api.swipedIds. rewrite in_flat_map. split.
  - intros (i & Hi & Hin). apply in_seq in Hi.
    destruct (MemStorage.getSwipe c userId (Z.of_nat (i + 1))) as [swipe|] eqn:Hs;
      [|contradiction].
    destruct Hin as [<-|[]].
    unfold MemStorage.getSwipe in Hs. pose proof (find_some _ _ Hs) as [_ Hp].
    apply andb_true_iff in Hp. destruct Hp as [_ Hp]. apply Z.eqb_eq in Hp.
    rewrite Hp. split; [lia|].
    unfold MemStorage.getSwipe. rewrite Hs. discriminate.
  - intros [Hz Hs]. exists (Z.to_nat z - 1). split; [apply in_seq; lia|].
    replace (Z.of_nat (Z.to_nat z - 1 + 1)) with z by lia.
    destruct (MemStorage.getSwipe c userId z) as [swipe|] eqn:Hget; [|contradiction].
    unfold MemStorage.getSwipe in Hget. pose proof (find_some _ _ Hget) as [_ Hp].
    apply andb_true_iff in Hp. destruct Hp as [_ Hp]. apply Z.eqb_eq in Hp.
    left. exact Hp.
Qed.

(** X21.  The users that the discover handler takes from
    [getUsersNearby], before its preference filter, are the located
    users within the radius other than the requester, less those on
    whom the requester has a stored swipe and whose id is between 1 and
    100: a swiped user with a higher id is offered again. *)
Theorem discover_skips_swipes_on_first_hundred_ids :
  forall c currentUser lat lng radius user,
    In user (Api.discoverNearby c currentUser lat lng radius) <->
    In user (MemStorage.getUsersNearby c lat lng radius [])
    /\ User.id user <> User.id currentUser
    /\ ((1 <= User.id user <= 100)%Z ->
        MemStorage.getSwipe c (User.id currentUser) (User.id user) = None).
Proof.
  intros c currentUser lat lng radius user.
  unfold Api.discoverNearby, MemStorage.getUsersNearby.
  rewrite !filter_In, !nearby_spec. cbn [In].
  split.
  - intros (Hin & Hnot & Hnear). split; [split; [exact Hin|]|split].
    + split; [tauto | exact Hnear].
    + intros Heq. apply Hnot. left. now symmetry.
    + intros Hrange.
      destruct (MemStorage.getSwipe c (User.id currentUser) (User.id user)) eqn:Hs;
        [|reflexivity].
      exfalso. apply Hnot. right. apply swipedIds_In. split; [exact Hrange|].
      rewrite Hs. discriminate.
  - intros ((Hin & _ & Hnear) & Hne & Hswipe). split; [exact Hin|]. split; [|exact Hnear].
    intros [Heq|Hsw]; [now apply Hne|].
    apply swipedIds_In in Hsw. destruct Hsw as [Hrange Hs]. apply Hs. now apply Hswipe.
Qed.

Lemma find_app_Some {A : Type} (f : A -> bool) (l more : list A) (x : A) :
  find f l = Some x -> find f (l ++ more) = Some x.
Proof.
  induction l as [|y l IH]; cbn; [discriminate|].
  destruct (f y); [trivial | exact IH].
Qed.

(** The handlers only append to the table of swipes. *)
Lemma postSwipe_appends now c d :
  App.freshIds c ->
  exists more,
    MemStorage.swipes (fst (Routes.postSwipe now c d)) = MemStorage.swipes c ++ more.
Proof.
  intros Hfresh.
  destruct (MemStorage.getSwipe c (Swipe.swiperId d) (Swipe.swipedId d)) as [s|] eqn:Hs.
  - rewrite postSwipe_rejected by congruence. exists []. cbn. now rewrite app_nil_r.
  - destruct (postSwipe_accepted now c d Hfresh Hs) as (st' & -> & Hsw & _).
    cbn [fst]. rewrite Hsw, (createSwipe_swipes now c d Hfresh). eexists. reflexivity.
Qed.

Lemma handle_appends_swipes srv timed :
  Server.consistent (Server.store srv) ->
  exists more,
    MemStorage.swipes (Storage.core (Server.store (Server.handle srv timed)))
    = MemStorage.swipes (Storage.core (Server.store srv)) ++ more.
Proof.
  intros (Hcore & _). destruct timed as [now request].
  assert (Hsame : forall c', MemStorage.swipes c'
                             = MemStorage.swipes (Storage.core (Server.store srv)) ->
                             exists more, MemStorage.swipes c'
                                          = MemStorage.swipes (Storage.core (Server.store srv))
                                            ++ more).
  { intros c' ->. exists []. now rewrite app_nil_r. }
  destruct request as [r|userData|paymentData|payment paymentData|storyData|id|violationData
                      |id updates];
    cbn [Server.handle Server.store].
  - set (app := App.mk (Storage.core (Server.store srv)) (Server.regexState srv)).
    destruct (handle_sameSwipes_or_swipe app now r) as [[d ->]|Hs].
    + cbn. apply postSwipe_appends. exact (tables_fresh _ Hcore).
    + apply Hsame. cbn [Storage.withCore Storage.core]. apply Hs.
  - apply Hsame. unfold Api.register.
    destruct (Storage.getUserByEmail _ _); reflexivity.
  - apply Hsame. reflexivity.
  - apply Hsame. unfold Api.settlePayment, Storage.updatePayment.
    destruct (Js.get (Storage.payments (Server.store srv)) (Payment.id payment)); cbn.
    + destruct (MemStorage.getUser _ _); [|reflexivity].
      cbn. apply sameSwipes_updateUser.
    + destruct (MemStorage.getUser _ _); [|reflexivity].
      cbn. apply sameSwipes_updateUser.
  - apply Hsame. reflexivity.
  - apply Hsame. unfold Api.postArStoryView, Storage.incrementStoryViews.
    destruct (Js.get _ _); reflexivity.
  - apply Hsame. reflexivity.
  - apply Hsame. unfold Api.putUser, Storage.updateUser.
    destruct (Js.get _ _); reflexivity.
Qed.

Lemma run_appends_swipes history srv :
  Server.consistent (Server.store srv) ->
  exists more,
    MemStorage.swipes (Storage.core (Server.store (Server.run history srv)))
    = MemStorage.swipes (Storage.core (Server.store srv)) ++ more.
Proof.
  revert srv. induction history as [|timed history IH]; intros srv Hwf.
  - exists []. cbn. now rewrite app_nil_r.
  - cbn. destruct (handle_appends_swipes srv timed Hwf) as [m1 H1].
    destruct (IH (Server.handle srv timed) (handle_consistent srv timed Hwf)) as [m2 H2].
    exists (m1 ++ m2). unfold Server.run in H2. now rewrite H2, H1, app_assoc.
Qed.

(** X22.  A swipe is final.  Once the store holds a swipe of [a] on
    [b], every later state of the server, whatever the requests in
    between, holds the same swipe for the pair, and a new swipe of [a]
    on [b] with any action is answered with "Already swiped" and writes
    nothing: a pass never becomes a like. *)
Theorem stored_swipe_is_final :
  forall history srv a b swipe,
    Server.wellFormed (Server.store srv) ->
    MemStorage.getSwipe (Storage.core (Server.store srv)) a b = Some swipe ->
    let later := Storage.core (Server.store (Server.run history srv)) in
    MemStorage.getSwipe later a b = Some swipe
    /\ forall now action,
         Routes.postSwipe now later (Swipe.mkInsert a b action)
         = (later, Routes.Status 400 "Already swiped").
Proof.
  intros history srv a b swipe Hwf Hs later.
  assert (Hlater : MemStorage.getSwipe later a b = Some swipe).
  { subst later.
    destruct (run_appends_swipes history srv (wellFormed_consistent _ Hwf)) as [more Hmore].
    unfold MemStorage.getSwipe in *. rewrite Hmore. unfold Js.values in *.
    rewrite map_app. now apply find_app_Some. }
  split; [exact Hlater|].
  intros now action. apply postSwipe_rejected. cbn. rewrite Hlater. discriminate.
Qed.

Lemma stored_swipe_is_final_witness :
  let srv :=
    Server.run [(10%Z, Server.Handler (App.PostSwipe (Swipe.mkInsert 1 2 "pass")))]
      Server.start in
  let later :=
    Storage.core
      (Server.store
         (Server.run [(20%Z, Server.Handler (App.PostSwipe (Swipe.mkInsert 2 1 "like")))] srv)) in
  Routes.postSwipe 30 later (Swipe.mkInsert 1 2 "like")
  = (later, Routes.Status 400 "Already swiped").
Proof.
  cbv zeta.
  apply (stored_swipe_is_final
           [(20%Z, Server.Handler (App.PostSwipe (Swipe.mkInsert 2 1 "like")))]
           (Server.run [(10%Z, Server.Handler (App.PostSwipe (Swipe.mkInsert 1 2 "pass")))]
              Server.start)
           1%Z 2%Z (Swipe.mk (Swipe.mkInsert 1 2 "pass") 1 10)).
  - apply run_wellFormed; [repeat constructor | exact start_wellFormed].
  - reflexivity.
Defined.

Lemma mapDelete_absent {V : Type} (m : Js.jsmap V) (k : Z) :
  Forall (fun kv => fst kv <> k) m -> Storage.mapDelete m k = (m, false).
Proof.
  intros H. unfold Storage.mapDelete. induction H as [|[k' v] m Hk _ IH]; [reflexivity|].
  cbn in *. injection IH as IH1 IH2.
  destruct (Z.eqb_spec k' k) as [->|_]; [contradiction|]. cbn. now rewrite IH1, IH2.
Qed.

Lemma mapDelete_last {V : Type} (m : Js.jsmap V) (k : Z) (v : V) :
  Forall (fun kv => fst kv <> k) m -> Storage.mapDelete (m ++ [(k, v)]) k = (m, true).
Proof.
  intros H. unfold Storage.mapDelete. rewrite filter_app, existsb_app.
  pose proof (mapDelete_absent m k H) as Ha. unfold Storage.mapDelete in Ha.
  injection Ha as H1 H2. rewrite H1, H2. cbn. rewrite Z.eqb_refl. cbn.
  now rewrite app_nil_r.
Qed.

(** X23.  Profiles.  [deleteProfile] of an id that is not stored answers
    false and changes nothing.  With the counter ahead of the stored
    ids, [createProfile] puts the new profile, not approved, after the
    others of its user; [deleteProfile] of its id answers true and
    leaves the table as it was before, while the counter stays
    advanced, so the id is not given again; deleting it once more
    answers false. *)
Theorem profile_create_then_delete :
  (forall st id,
      Js.get (Storage.profiles st) id = None -> Storage.deleteProfile st id = (st, false))
  /\ (forall st insertProfile,
        Server.ahead (Storage.currentProfileId st) (Storage.profiles st) ->
        let created := Storage.createProfile st insertProfile in
        let deleted := Storage.deleteProfile (fst created) (Profile.id (snd created)) in
        snd created = Profile.mk insertProfile (Storage.currentProfileId st) false
        /\ Storage.getProfilesByUserId (fst created) (Profile.userId insertProfile)
           = Storage.getProfilesByUserId st (Profile.userId insertProfile) ++ [snd created]
        /\ snd deleted = true
        /\ Storage.profiles (fst deleted) = Storage.profiles st
        /\ Storage.currentProfileId (fst deleted) = (Storage.currentProfileId st + 1)%Z
        /\ Storage.deleteProfile (fst deleted) (Profile.id (snd created))
           = (fst deleted, false)).
Proof.
  split.
  { intros st id Hget. unfold Storage.deleteProfile.
    rewrite (mapDelete_absent _ _ (get_None_keys _ _ Hget)). now destruct st. }
  intros st insertProfile Hahead created deleted.
  assert (Hfresh : Forall (fun kv => fst kv <> Storage.currentProfileId st)
                     (Storage.profiles st)).
  { eapply Forall_impl; [|exact Hahead]. cbn. intros kv Hlt. lia. }
  assert (Hset : Js.set (Storage.profiles st) (Storage.currentProfileId st)
                   (Profile.mk insertProfile (Storage.currentProfileId st) false)
                 = Storage.profiles st
                   ++ [(Storage.currentProfileId st,
                        Profile.mk insertProfile (Storage.currentProfileId st) false)])
    by now apply set_fresh.
  subst deleted created.
  unfold Storage.createProfile, Storage.deleteProfile, Storage.getProfilesByUserId.
  cbn [fst snd Storage.profiles Profile.id Storage.core Storage.arStories Storage.payments
         Storage.currentUserId Storage.currentProfileId Storage.currentArStoryId
         Storage.currentPaymentId].
  rewrite Hset, (mapDelete_last _ _ _ Hfresh).
  cbn [fst snd Storage.profiles Storage.currentProfileId].
  rewrite (mapDelete_absent _ _ Hfresh).
  split; [reflexivity|]. split.
  - unfold Js.values. rewrite map_app, filter_app. cbn. now rewrite Z.eqb_refl.
  - repeat split.
Qed.

Lemma profile_create_then_delete_witness :
  let st := fst (Storage.createProfile Storage.empty (Profile.mkInsert 1 "photo" "a.jpg" 0)) in
  Storage.getProfilesByUserId
    (fst (Storage.createProfile st (Profile.mkInsert 1 "video" "b.mp4" 1))) 1
  = Storage.getProfilesByUserId st 1
    ++ [snd (Storage.createProfile st (Profile.mkInsert 1 "video" "b.mp4" 1))].
Proof.
  cbv zeta.
  apply (proj2 profile_create_then_delete
           (fst (Storage.createProfile Storage.empty (Profile.mkInsert 1 "photo" "a.jpg" 0)))
           (Profile.mkInsert 1 "video" "b.mp4" 1)).
  cbn. constructor; [cbn; lia | constructor].
Defined.

(* ------------------------------------------------------------------ *)
(** * The content moderator: confidences *)

Lemma leb_threshold (c : float) :
  PrimFloat.leb 0.6 c = true -> PrimFloat.leb 0.3 c = true.
Proof.
  rewrite !leb_spec.
  replace (Prim2SF 0.6) with (S754_finite false 5404319552844595 (-53)) by reflexivity.
  replace (Prim2SF 0.3) with (S754_finite false 5404319552844595 (-54)) by reflexivity.
  unfold SFleb. destruct (Prim2SF c) as [s|s| |s m e];
    [cbn; trivial | cbn; trivial | cbn; trivial |].
  destruct s; [cbn; trivial|]. unfold SFcompare.
  destruct (Z.compare_spec (-53) e) as [Heq|Hlt|Hgt];
    destruct (Z.compare_spec (-54) e) as [Heq'|Hlt'|Hgt'];
    try lia; try reflexivity; try discriminate.
Qed.

Lemma isConfidence_number (x : float) : isConfidence x = true -> Js.isNaN x = false.
Proof.
  unfold isConfidence, Js.isNaN. intros H. apply andb_true_iff in H. destruct H as [H _].
  rewrite leb_spec in H. rewrite eqb_spec.
  replace (Prim2SF 0) with (S754_zero false) in H by reflexivity.
  unfold SFleb, SFeqb in *. destruct (Prim2SF x) as [s|s| |s m e]; cbn in *.
  - reflexivity.
  - destruct s; reflexivity.
  - discriminate.
  - destruct s; rewrite Z.compare_refl, Pos.compare_cont_refl; reflexivity.
Qed.

Lemma max2_isConfidence (a b : float) :
  isConfidence a = true -> isConfidence b = true -> isConfidence (Js.max2 a b) = true.
Proof.
  intros Ha Hb. unfold Js.max2.
  rewrite (isConfidence_number a Ha), (isConfidence_number b Hb). cbn [orb].
  destruct (PrimFloat.ltb a b); [exact Hb|].
  destruct (PrimFloat.ltb b a); [exact Ha|].
  destruct (PrimFloat.get_sign a); assumption.
Qed.

(** [Math.max(-Infinity, x)] is [x] for a confidence [x]. *)
Lemma max2_neg_infinity (x : float) :
  isConfidence x = true -> Js.max2 PrimFloat.neg_infinity x = x.
Proof.
  intros Hx. unfold Js.max2. rewrite (isConfidence_number x Hx).
  replace (Js.isNaN PrimFloat.neg_infinity) with false by reflexivity. cbn [orb].
  assert (Hlt : PrimFloat.ltb PrimFloat.neg_infinity x = true).
  { unfold isConfidence in Hx. apply andb_true_iff in Hx. destruct Hx as [Hx _].
    rewrite leb_spec in Hx. rewrite ltb_spec.
    replace (Prim2SF 0) with (S754_zero false) in Hx by reflexivity.
    replace (Prim2SF PrimFloat.neg_infinity) with (S754_infinity true) by reflexivity.
    unfold SFleb, SFltb in *. destruct (Prim2SF x) as [s|s| |s m e]; cbn in *;
      try reflexivity; try discriminate.
    destruct s; [discriminate | reflexivity]. }
  now rewrite Hlt.
Qed.

Lemma fold_max2_isConfidence (xs : list float) (acc : float) :
  Forall (fun x => isConfidence x = true) xs ->
  isConfidence acc = true ->
  isConfidence (fold_left Js.max2 xs acc) = true.
Proof.
  intros H. revert acc. induction H as [|x xs Hx _ IH]; intros acc Hacc; [exact Hacc|].
  cbn. apply IH. now apply max2_isConfidence.
Qed.

Lemma maxOf_isConfidence (xs : list float) :
  Forall (fun x => isConfidence x = true) xs ->
  xs <> [] ->
  isConfidence (Js.maxOf xs) = true.
Proof.
  intros H Hne. destruct H as [|x xs Hx Hxs]; [contradiction|].
  unfold Js.maxOf. cbn. rewrite (max2_neg_infinity x Hx).
  now apply fold_max2_isConfidence.
Qed.

Lemma calculatePhoneConfidence_isConfidence text :
  isConfidence (ContentModerator.calculatePhoneConfidence text) = true.
Proof.
  unfold ContentModerator.calculatePhoneConfidence. cbv zeta.
  repeat match goal with
         | |- context [if ?c then _ else _] =>
             lazymatch c with
             | context [if _ then _ else _] => fail
             | _ => destruct c
             end
         end; vm_compute; reflexivity.
Qed.

Lemma calculateDisguisedPhoneConfidence_isConfidence text :
  isConfidence (ContentModerator.calculateDisguisedPhoneConfidence text) = true.
Proof.
  unfold ContentModerator.calculateDisguisedPhoneConfidence. cbv zeta.
  repeat match goal with
         | |- context [if ?c then _ else _] =>
             lazymatch c with
             | context [if _ then _ else _] => fail
             | _ => destruct c
             end
         end; vm_compute; reflexivity.
Qed.

Lemma spelledRun_isConfidence window words sequence consecutiveNumbers m :
  consecutiveNumbers + window <= 15 ->
  ContentModerator.spelledRun window words sequence consecutiveNumbers = Some m ->
  isConfidence (ContentModerator.matchConfidence m) = true.
Proof.
  revert words sequence consecutiveNumbers.
  induction window as [|window IH]; intros words sequence n Hn; [discriminate|].
  destruct words as [|w words]; [discriminate|]. cbn [ContentModerator.spelledRun].
  destruct (Js.arrIncludes ContentModerator.numberWords w).
  - apply IH. lia.
  - destruct (7 <=? n); [|discriminate]. intros H. injection H as <-.
    cbn [ContentModerator.matchConfidence].
    do 16 (destruct n as [|n]; [vm_compute; reflexivity|]). lia.
Qed.

Lemma detectPhoneNumbers_isConfidence config text :
  Forall (fun m => isConfidence (ContentModerator.matchConfidence m) = true)
         (ContentModerator.detectPhoneNumbers config text).
Proof.
  unfold ContentModerator.detectPhoneNumbers. cbv zeta.
  apply Forall_forall. intros m Hin. apply filter_In in Hin. destruct Hin as [Hin _].
  assert (Hnumber : forall patterns,
             In m (ContentModerator.numberMatches text patterns) ->
             isConfidence (ContentModerator.matchConfidence m) = true).
  { intros patterns H. unfold ContentModerator.numberMatches in H.
    apply in_flat_map in H. destruct H as (p & _ & H).
    apply in_map_iff in H. destruct H as (x & <- & _).
    apply calculatePhoneConfidence_isConfidence. }
  apply in_app_or in Hin. destruct Hin as [Hin|Hin]; [now apply (Hnumber _ Hin)|].
  apply in_app_or in Hin. destruct Hin as [Hin|Hin]; [now apply (Hnumber _ Hin)|].
  apply in_app_or in Hin. destruct Hin as [Hin|Hin].
  - unfold ContentModerator.detectSpelledPhoneNumbers in Hin.
    apply in_flat_map in Hin. destruct Hin as (i & _ & Hin).
    destruct (ContentModerator.spelledRun 15 _ "" 0) as [m'|] eqn:Hrun; [|contradiction].
    destruct Hin as [<-|[]].
    eapply (spelledRun_isConfidence 15 _ "" 0 m'); [cbn; lia | exact Hrun].
  - unfold ContentModerator.detectDisguisedPhoneNumbers in Hin.
    apply in_flat_map in Hin. destruct Hin as (p & _ & Hin).
    apply in_flat_map in Hin. destruct Hin as (x & _ & Hin).
    destruct (PrimFloat.ltb 0.4 _); [|contradiction].
    destruct Hin as [<-|[]]. apply calculateDisguisedPhoneConfidence_isConfidence.
Qed.

Lemma spamConfidence_isConfidence text :
  isConfidence (ContentModerator.spamConfidence (ContentModerator.detectSpam text)) = true.
Proof.
  cbn [ContentModerator.detectSpam ContentModerator.spamConfidence].
  rewrite spamScore_sum. cbv zeta.
  pose proof (hits_length (Js.toLowerCase text) ContentModerator.spam) as Hk.
  change (List.length ContentModerator.spam) with 10 in Hk.
  generalize dependent (List.length
                          (ContentModerator.hits (Js.toLowerCase text) ContentModerator.spam)).
  intros k Hk.
  destruct (PrimFloat.ltb 0.5 (ContentModerator.capsRatio text)),
    (0 <? ContentModerator.punctRatio text),
    (PrimFloat.ltb 3 (ContentModerator.maxRepeats text));
    do 11 (destruct k as [|k]; [vm_compute; reflexivity|]); lia.
Qed.

Lemma moderateContent_isConfidence config text :
  isConfidence (ContentModerator.confidence (ContentModerator.moderateContent config text))
  = true.
Proof.
  rewrite moderateContent_fields. cbv zeta. cbn [ContentModerator.confidence].
  assert (H0 : isConfidence (snd (([] : list string), ([] : list string), 0%float)) = true)
    by reflexivity.
  assert (H1 : forall acc, isConfidence (snd acc) = true ->
                           isConfidence (snd (ContentModerator.phoneStep config text acc))
                           = true).
  { intros [[v f] m] Hm. unfold ContentModerator.phoneStep.
    destruct (ContentModerator.checkPhoneNumbers config); [|exact Hm].
    destruct (0 <? _) eqn:E; [|exact Hm]. cbn [snd] in *.
    apply max2_isConfidence; [exact Hm|]. apply maxOf_isConfidence.
    - apply Forall_map. apply detectPhoneNumbers_isConfidence.
    - destruct (ContentModerator.detectPhoneNumbers config text); discriminate. }
  assert (H2 : forall acc, isConfidence (snd acc) = true ->
                           isConfidence
                             (snd (ContentModerator.inappropriateStep config text acc))
                           = true).
  { intros [[v f] m] Hm. unfold ContentModerator.inappropriateStep.
    destruct (ContentModerator.checkInappropriateContent config); [|exact Hm].
    destruct (0 <? _); [|exact Hm]. cbn [snd] in *.
    apply max2_isConfidence; [exact Hm|].
    cbn [ContentModerator.detectInappropriateContent ContentModerator.maxConfidence].
    generalize (flat_map
                  (fun entry => map (fun word => (fst entry, word))
                                    (ContentModerator.hits (Js.toLowerCase text) (snd entry)))
                  ContentModerator.inappropriateContent).
    intros found. assert (Hz : isConfidence 0 = true) by reflexivity.
    revert Hz. generalize 0%float. induction found as [|x found IH]; intros z Hz; [exact Hz|].
    cbn. apply IH. apply max2_isConfidence; [exact Hz | reflexivity]. }
  assert (H3 : forall acc, isConfidence (snd acc) = true ->
                           isConfidence (snd (ContentModerator.spamStep config text acc))
                           = true).
  { intros [[v f] m] Hm. unfold ContentModerator.spamStep.
    destruct (ContentModerator.checkSpam config); [|exact Hm].
    destruct (ContentModerator.isSpam _); [|exact Hm]. cbn [snd] in *.
    apply max2_isConfidence; [exact Hm | apply spamConfidence_isConfidence]. }
  assert (H4 : forall acc, isConfidence (snd acc) = true ->
                           isConfidence (snd (ContentModerator.customStep config text acc))
                           = true).
  { intros [[v f] m] Hm. unfold ContentModerator.customStep.
    destruct (0 <? _); [|exact Hm]. cbn [snd] in *.
    apply max2_isConfidence; [exact Hm | reflexivity]. }
  apply H4, H3, H2, H1, H0.
Qed.

(** X24.  Every confidence that the moderator reports is a number from
    0 to 1, for every configuration and text: the confidence of the
    verdict of [moderateContent], which is never NaN, the confidence of
    each phone number match, and the confidence of [detectSpam]. *)
Theorem confidences_are_between_0_and_1 :
  forall config text,
    let result := ContentModerator.moderateContent config text in
    isConfidence (ContentModerator.confidence result) = true
    /\ Js.isNaN (ContentModerator.confidence result) = false
    /\ (forall m, In m (ContentModerator.detectPhoneNumbers config text) ->
                  isConfidence (ContentModerator.matchConfidence m) = true)
    /\ isConfidence (ContentModerator.spamConfidence (ContentModerator.detectSpam text))
       = true.
Proof.
  intros config text result. subst result.
  pose proof (moderateContent_isConfidence config text) as H.
  split; [exact H|]. split; [now apply isConfidence_number|]. split.
  - apply Forall_forall. apply detectPhoneNumbers_isConfidence.
  - apply spamConfidence_isConfidence.
Qed.

(** What the steps after the phone numbers add to the violations does
    not depend on what was found before. *)
Lemma laterSteps_add config text :
  exists more,
    forall acc,
      fst (fst (ContentModerator.customStep config text
                  (ContentModerator.spamStep config text
                     (ContentModerator.inappropriateStep config text acc))))
      = fst (fst acc) ++ more.
Proof.
  assert (H2 : exists more, forall acc,
               fst (fst (ContentModerator.inappropriateStep config text acc))
               = fst (fst acc) ++ more).
  { unfold ContentModerator.inappropriateStep.
    destruct (ContentModerator.checkInappropriateContent config);
      [|exists []; intros [[v f] m]; cbn; now rewrite app_nil_r].
    destruct (0 <? _);
      [eexists; intros [[v f] m]; reflexivity
      |exists []; intros [[v f] m]; cbn; now rewrite app_nil_r]. }
  assert (H3 : exists more, forall acc,
               fst (fst (ContentModerator.spamStep config text acc))
               = fst (fst acc) ++ more).
  { unfold ContentModerator.spamStep.
    destruct (ContentModerator.checkSpam config);
      [|exists []; intros [[v f] m]; cbn; now rewrite app_nil_r].
    destruct (ContentModerator.isSpam _);
      [eexists; intros [[v f] m]; reflexivity
      |exists []; intros [[v f] m]; cbn; now rewrite app_nil_r]. }
  assert (H4 : exists more, forall acc,
               fst (fst (ContentModerator.customStep config text acc))
               = fst (fst acc) ++ more).
  { unfold ContentModerator.customStep.
    destruct (0 <? _);
      [eexists; intros [[v f] m]; reflexivity
      |exists []; intros [[v f] m]; cbn; now rewrite app_nil_r]. }
  destruct H2 as [m2 H2], H3 as [m3 H3], H4 as [m4 H4].
  exists (m2 ++ m3 ++ m4). intros acc. now rewrite H4, H3, H2, !app_assoc.
Qed.

(** X25.  Strict mode only adds: with [updateConfig({strictMode: true})]
    every phone number match of the configuration is still a match,
    and every text that was a violation still is one. *)
Theorem strict_mode_only_adds :
  forall config text,
    let strict :=
      ModeratorConfig.updateConfig config
        (ModeratorConfig.mkPartial (Some true) None None None None) in
    (forall m, In m (ContentModerator.detectPhoneNumbers config text) ->
               In m (ContentModerator.detectPhoneNumbers strict text))
    /\ (ContentModerator.isViolation (ContentModerator.moderateContent config text) = true ->
        ContentModerator.isViolation (ContentModerator.moderateContent strict text) = true).
Proof.
  intros config text strict.
  assert (Hmatches : forall m, In m (ContentModerator.detectPhoneNumbers config text) ->
                               In m (ContentModerator.detectPhoneNumbers strict text)).
  { intros m. unfold ContentModerator.detectPhoneNumbers. cbv zeta.
    rewrite !filter_In. intros [Hin Hc]. split; [exact Hin|].
    cbn [strict ModeratorConfig.updateConfig ModeratorConfig.merge
           ModeratorConfig.setStrictMode ContentModerator.strictMode].
    destruct (ContentModerator.strictMode config); [exact Hc | now apply leb_threshold]. }
  split; [exact Hmatches|].
  rewrite !moderateContent_fields. cbv zeta. cbn [ContentModerator.isViolation].
  change (ContentModerator.customStep strict text) with (ContentModerator.customStep config text).
  change (ContentModerator.spamStep strict text) with (ContentModerator.spamStep config text).
  change (ContentModerator.inappropriateStep strict text)
    with (ContentModerator.inappropriateStep config text).
  destruct (laterSteps_add config text) as [more Hmore]. rewrite !Hmore.
  destruct more as [|x more];
    [|intros _; apply Nat.ltb_lt; rewrite length_app; cbn [List.length]; lia].
  rewrite !app_nil_r. unfold ContentModerator.phoneStep.
  change (ContentModerator.checkPhoneNumbers strict)
    with (ContentModerator.checkPhoneNumbers config).
  destruct (ContentModerator.checkPhoneNumbers config); [|trivial].
  destruct (ContentModerator.detectPhoneNumbers config text) as [|m ms] eqn:Hn;
    [discriminate|].
  intros _. pose proof (Hmatches m (or_introl eq_refl)) as Hin.
  destruct (ContentModerator.detectPhoneNumbers strict text); [contradiction | reflexivity].
Qed.

(* ------------------------------------------------------------------ *)
(** * [sanitizeText]: masking in place *)

Section LiteralMatches.

Variable ignoreCase : bool.
Variable input : list ascii.

(** A literal pattern matches as many characters as it has. *)
Lemma rmatch_literal (l : list ascii) (i : nat) (k : nat -> option nat) (e : nat) :
  Regex.rmatch ignoreCase input (fold_right (fun c r => Regex.Seq (Regex.Char c) r) Regex.Empty l)
    i k = Some e ->
  k (i + List.length l) = Some e
  /\ (i <= List.length input -> i + List.length l <= List.length input).
Proof.
  revert i. induction l as [|c l IH]; intros i; cbn [fold_right Regex.rmatch List.length].
  - rewrite Nat.add_0_r. intros H. split; [exact H | trivial].
  - destruct (nth_error input i) as [c'|] eqn:Hnth; [|discriminate].
    destruct (Regex.charIs ignoreCase c c'); [|discriminate].
    intros H. apply IH in H. destruct H as [Hk Hle].
    assert (Hi : i < List.length input) by (apply nth_error_Some; congruence).
    replace (i + S (List.length l)) with (S i + List.length l) by lia.
    split; [exact Hk|]. intros _. apply Hle. lia.
Qed.

Lemma searchN_found (r : Regex.regex) (n i s e : nat) :
  Regex.searchN ignoreCase input r n i = Some (s, e) ->
  i <= s <= i + n /\ Regex.matchAt ignoreCase input r s = Some e.
Proof.
  revert i. induction n as [|n IH]; intros i; cbn [Regex.searchN].
  - destruct (Regex.matchAt ignoreCase input r i) as [e'|] eqn:Hm; [|discriminate].
    intros H. injection H as <- <-. split; [lia | exact Hm].
  - destruct (Regex.matchAt ignoreCase input r i) as [e'|] eqn:Hm.
    + intros H. injection H as <- <-. split; [lia | exact Hm].
    + intros H. apply IH in H. destruct H as [Hs He]. split; [lia | exact He].
Qed.

Lemma search_literal (p : string) (i s e : nat) :
  Regex.search ignoreCase input (Regex.lit p) i = Some (s, e) ->
  i <= s /\ e = s + List.length (Js.chars p) /\ e <= List.length input.
Proof.
  unfold Regex.search. destruct (List.length input <? i) eqn:Hi; [discriminate|].
  apply Nat.ltb_ge in Hi. intros H. apply searchN_found in H. destruct H as [Hs Hm].
  unfold Regex.matchAt, Regex.lit in Hm. apply rmatch_literal in Hm.
  destruct Hm as [He Hle]. injection He as <-. split; [lia|]. split; [reflexivity|].
  apply Hle. lia.
Qed.

(** Replacing the matches of a literal by as many stars keeps every
    other character where it is. *)
Lemma replaceN_literal (p : string) (n i from : nat) :
  from <= i ->
  let replaced :=
    Regex.replaceN input (Regex.matchesN ignoreCase input (Regex.lit p) n i) from
      (repeat "*"%char (List.length (Js.chars p))) in
  List.length replaced = List.length input - from
  /\ forall j c, nth_error replaced j = Some c ->
                 c = "*"%char \/ nth_error input (from + j) = Some c.
Proof.
  cbv zeta. revert i from. induction n as [|n IH]; intros i from Hfrom.
  - cbn. rewrite length_skipn. split; [reflexivity|].
    intros j c H. right. now rewrite nth_error_skipn in H.
  - cbn [Regex.matchesN].
    destruct (Regex.search ignoreCase input (Regex.lit p) i) as [[s e]|] eqn:Hsearch.
    + apply search_literal in Hsearch. destruct Hsearch as (Hs & He & Hlen).
      cbn [Regex.replaceN].
      assert (Hnext : e <= (if e =? s then S e else e)) by (destruct (e =? s); lia).
      destruct (IH (if e =? s then S e else e) e Hnext) as [IHlen IHnth].
      unfold Js.slice. rewrite !length_app, repeat_length, IHlen, length_firstn, length_skipn.
      split; [lia|].
      intros j c H.
      destruct (Nat.lt_ge_cases j (s - from)) as [Hj|Hj].
      * rewrite nth_error_app1 in H by (rewrite length_firstn, length_skipn; lia).
        rewrite nth_error_firstn in H.
        destruct (j <? s - from); [|discriminate].
        right. now rewrite nth_error_skipn in H.
      * rewrite nth_error_app2 in H by (rewrite length_firstn, length_skipn; lia).
        rewrite length_firstn, length_skipn in H.
        replace (Nat.min (s - from) (List.length input - from)) with (s - from) in H by lia.
        destruct (Nat.lt_ge_cases (j - (s - from)) (List.length (Js.chars p))) as [Hp|Hp].
        -- rewrite nth_error_app1 in H by (rewrite repeat_length; lia).
           left. apply nth_error_In in H. now apply repeat_spec in H.
        -- rewrite nth_error_app2 in H by (rewrite repeat_length; lia).
           rewrite repeat_length in H. apply IHnth in H. destruct H as [H|H]; [now left|].
           right. rewrite <- H. f_equal. lia.
    + cbn. rewrite length_skipn. split; [reflexivity|].
      intros j c H. right. now rewrite nth_error_skipn in H.
Qed.

End LiteralMatches.

Lemma length_chars (s : string) : List.length (Js.chars s) = String.length s.
Proof. induction s as [|c s IH]; cbn; [reflexivity | now rewrite <- IH]. Qed.

Lemma chars_str (l : list ascii) : Js.chars (Js.str l) = l.
Proof. apply list_ascii_of_string_of_list_ascii. Qed.

Lemma mask_in_place sanitized flagged :
  let masked := ContentModerator.mask sanitized flagged in
  String.length masked = String.length sanitized
  /\ forall j c, nth_error (Js.chars masked) j = Some c ->
                 c = "*"%char \/ nth_error (Js.chars sanitized) j = Some c.
Proof.
  cbv zeta. unfold ContentModerator.mask, Regex.replaceAll, Regex.matchAll, Js.repeatStar.
  rewrite <- !length_chars, !chars_str.
  destruct (replaceN_literal true (Js.chars sanitized) flagged
              (S (List.length (Js.chars sanitized))) 0 0 (Nat.le_refl 0)) as [Hlen Hnth].
  split; [rewrite Hlen; lia|].
  intros j c H. apply Hnth in H. exact H.
Qed.

(** X26.  [sanitizeText] masks in place: the result has the length of
    the text, and each of its characters is a star or the character of
    the text at the same position. *)
Theorem sanitizeText_masks_in_place :
  forall text,
    String.length (ContentModerator.sanitizeText text) = String.length text
    /\ forall j c,
         nth_error (Js.chars (ContentModerator.sanitizeText text)) j = Some c ->
         c = "*"%char \/ nth_error (Js.chars text) j = Some c.
Proof.
  intros text. unfold ContentModerator.sanitizeText.
  destruct (negb _); [split; [reflexivity | intros j c H; now right]|].
  generalize (ContentModerator.flaggedContent
                (ContentModerator.moderateContent ContentModerator.defaultConfig text)).
  intros flagged.
  assert (H : forall current,
             (String.length current = String.length text
              /\ forall j c, nth_error (Js.chars current) j = Some c ->
                             c = "*"%char \/ nth_error (Js.chars text) j = Some c) ->
             String.length (fold_left ContentModerator.mask flagged current)
             = String.length text
             /\ forall j c,
                  nth_error (Js.chars (fold_left ContentModerator.mask flagged current)) j
                  = Some c ->
                  c = "*"%char \/ nth_error (Js.chars text) j = Some c).
  { induction flagged as [|f flagged IH]; intros current Hcur; [exact Hcur|].
    cbn [fold_left]. apply IH. destruct Hcur as [Hlen Hnth].
    destruct (mask_in_place current f) as [Hl Hn]. split; [now rewrite Hl|].
    intros j c H. apply Hn in H. destruct H as [H|H]; [now left | now apply Hnth]. }
  apply H. split; [reflexivity | intros j c Hc; now right].
Qed.
